(** * changelog-checker: a shallow embedding of the reconciliation engine

    The Go packages [db], [github], [types] and [checker] of
    [changelog-checker] are embedded as Rocq modules of the same names.
    Go strings are byte strings ([string] of [ascii]); Go [int] is [Z]
    (64-bit, the range matters only in [strconv.Atoi]); [time.Time] is a
    number of nanoseconds; a pointer that may be nil is an [option];
    a nil dereference is the outcome [Panic]. Logging is not modelled. *)

From Stdlib Require Import ZArith Ascii String List Bool Lia DecimalString DecimalPos.
From stdpp Require Import base option list strings gmap.

Local Open Scope Z_scope.

(** ** Byte strings: the parts of Go's [strings] package the program uses *)

Module strings.

Definition LF : ascii := "010"%char.
Definition CR : ascii := "013"%char.

Definition byte_eqb (a b : ascii) : bool := Ascii.eqb a b.

(** [strings.HasPrefix s prefix]. *)
Fixpoint HasPrefix (s prefix : string) {struct prefix} : bool :=
  match prefix with
  | EmptyString => true
  | String p prefix' =>
      match s with
      | EmptyString => false
      | String c s' => byte_eqb c p && HasPrefix s' prefix'
      end
  end.

(** [strings.Contains s substr]: [substr] starts at some offset of [s]. *)
Fixpoint Contains (s substr : string) : bool :=
  HasPrefix s substr ||
  match s with
  | EmptyString => false
  | String _ s' => Contains s' substr
  end.

(** [strings.Index s sep] for a one-byte [sep]; [None] stands for -1. *)
Fixpoint IndexByte (s : string) (sep : ascii) : option nat :=
  match s with
  | EmptyString => None
  | String c s' =>
      if byte_eqb c sep then Some O
      else match IndexByte s' sep with
           | Some i => Some (S i)
           | None => None
           end
  end.

(** [strings.ReplaceAll s old ""] for a one-byte [old]. *)
Fixpoint RemoveByte (s : string) (old : ascii) : string :=
  match s with
  | EmptyString => EmptyString
  | String c s' =>
      if byte_eqb c old then RemoveByte s' old else String c (RemoveByte s' old)
  end.

(** The slice [s[:n]]. *)
Fixpoint slice_to (n : nat) (s : string) : string :=
  match n, s with
  | S n', String c s' => String c (slice_to n' s')
  | _, _ => EmptyString
  end.

Definition is_upper (c : ascii) : bool :=
  let n := N_of_ascii c in (65 <=? n)%N && (n <=? 90)%N.
Definition is_lower (c : ascii) : bool :=
  let n := N_of_ascii c in (97 <=? n)%N && (n <=? 122)%N.

Definition lower_byte (c : ascii) : ascii :=
  if is_upper c then ascii_of_N (N_of_ascii c + 32) else c.
Definition upper_byte (c : ascii) : ascii :=
  if is_lower c then ascii_of_N (N_of_ascii c - 32) else c.

Fixpoint map_bytes (f : ascii -> ascii) (s : string) : string :=
  match s with
  | EmptyString => EmptyString
  | String c s' => String (f c) (map_bytes f s')
  end.

(** [strings.ToLower] and [strings.ToUpper], as they are on a text of
    ASCII bytes: the letters are mapped byte by byte. On other texts Go
    also maps the letters outside ASCII and replaces a byte that is not
    valid UTF-8 by U+FFFD; the case tables are outside the model, which
    keeps those bytes. *)
Definition ToLower (s : string) : string := map_bytes lower_byte s.
Definition ToUpper (s : string) : string := map_bytes upper_byte s.

(** [strings.Join elems sep]. *)
Fixpoint Join (elems : list string) (sep : string) : string :=
  match elems with
  | [] => EmptyString
  | [x] => x
  | x :: rest => x +:+ sep +:+ Join rest sep
  end.

End strings.

(** ** [strconv] and [fmt] *)

Module strconv.

Definition is_digit (c : ascii) : bool :=
  let n := N_of_ascii c in (48 <=? n)%N && (n <=? 57)%N.

Definition digit_val (c : ascii) : Z := Z.of_N (N_of_ascii c) - 48.

Fixpoint all_bytes (p : ascii -> bool) (s : string) : bool :=
  match s with
  | EmptyString => true
  | String c s' => p c && all_bytes p s'
  end.

(** The value of a digit string, most significant digit first. *)
Fixpoint digits_val (acc : Z) (s : string) : Z :=
  match s with
  | EmptyString => acc
  | String c s' => digits_val (acc * 10 + digit_val c) s'
  end.

Definition MaxInt : Z := 2 ^ 63 - 1.
Definition MinInt : Z := - 2 ^ 63.

Definition parse_unsigned (s : string) : option Z :=
  match s with
  | EmptyString => None
  | _ => if all_bytes is_digit s then Some (digits_val 0 s) else None
  end.

(** [strconv.Atoi]: an optional sign, then decimal digits; [None] is the
    error result (syntax or value out of the range of [int]). *)
Definition Atoi (s : string) : option Z :=
  let signed :=
    match s with
    | String "-"%char s' => option_map Z.opp (parse_unsigned s')
    | String "+"%char s' => parse_unsigned s'
    | _ => parse_unsigned s
    end in
  match signed with
  | Some n => if (MinInt <=? n) && (n <=? MaxInt) then Some n else None
  | None => None
  end.

(** [fmt.Sprintf("%d", n)]. *)
Definition Itoa (n : Z) : string := NilZero.string_of_int (Z.to_int n).

End strconv.

(** ** [regexp]: the fragment of RE2 syntax the program's patterns use

    Every repetition in the program's patterns is over a one-byte class
    ([\d+], [[^)]*], [.+]), so [Star] takes a class. Matching is
    leftmost, and greedy with backtracking, which is the submatch
    choice of Go's [regexp]. The classes of the patterns end at ASCII
    delimiters, so matching bytes and matching runes give the same
    spans. *)

Module regexp.

Inductive regex : Type :=
| Eps
| Lit (c : ascii)
| Class (p : ascii -> bool)
| Star (p : ascii -> bool)
| Cat (r1 r2 : regex)
| Group (r : regex)
| EndText.

Definition Plus (p : ascii -> bool) : regex := Cat (Class p) (Star p).

(** A literal string. *)
Fixpoint Lits (s : string) : regex :=
  match s with
  | EmptyString => Eps
  | String c s' => Cat (Lit c) (Lits s')
  end.

(** A sequence of sub-patterns. *)
Fixpoint Seq (rs : list regex) : regex :=
  match rs with
  | [] => Eps
  | r :: rs' => Cat r (Seq rs')
  end.

(** [\d], [[^)]] and [.] (any byte but a newline). *)
Definition digit : ascii -> bool := strconv.is_digit.
Definition not_rparen (c : ascii) : bool := negb (strings.byte_eqb c ")"%char).
Definition dot (c : ascii) : bool := negb (strings.byte_eqb c strings.LF).

(** A compiled pattern: [anchored] is a leading [^]. *)
Record Regexp : Type := MustCompile { anchored : bool; body : regex }.

Section Matcher.
Context {A : Type}.

(** Greedy repetition: take the byte when the class allows it, and give
    it back when the rest of the pattern fails. *)
Fixpoint star_k (p : ascii -> bool) (k : string -> option A) (s : string)
  : option A :=
  match s with
  | String c t =>
      if p c then
        match star_k p k t with
        | Some r => Some r
        | None => k s
        end
      else k s
  | EmptyString => k s
  end.

(** [match_k r s caps k]: match [r] at the head of [s], then run the
    rest of the pattern [k] on what is left, with the groups closed so
    far. *)
Fixpoint match_k (r : regex) (s : string) (caps : list string)
  (k : string -> list string -> option A) : option A :=
  match r with
  | Eps => k s caps
  | Lit c =>
      match s with
      | String c' t => if strings.byte_eqb c' c then k t caps else None
      | EmptyString => None
      end
  | Class p =>
      match s with
      | String c' t => if p c' then k t caps else None
      | EmptyString => None
      end
  | Star p => star_k p (fun s' => k s' caps) s
  | Cat r1 r2 => match_k r1 s caps (fun s' caps' => match_k r2 s' caps' k)
  | Group r =>
      match_k r s caps
        (fun s' caps' =>
           k s' (caps' ++ [strings.slice_to (String.length s - String.length s') s]))
  | EndText =>
      match s with
      | EmptyString => k s caps
      | String _ _ => None
      end
  end.

End Matcher.

(** A match at the head of [s]: the text left after it, and the
    submatches, the whole match first. *)
Definition match_here (r : regex) (s : string) : option (string * list string) :=
  match_k r s []
    (fun s' caps =>
       Some (s', strings.slice_to (String.length s - String.length s') s :: caps)).

(** The leftmost match. *)
Fixpoint search (r : regex) (s : string) : option (string * list string) :=
  match match_here r s with
  | Some m => Some m
  | None =>
      match s with
      | EmptyString => None
      | String _ t => search r t
      end
  end.

(** [re.FindStringSubmatch(s)]; [None] is the nil slice. *)
Definition FindStringSubmatch (re : Regexp) (s : string) : option (list string) :=
  option_map snd (if anchored re then match_here (body re) s else search (body re) s).

(** [re.FindAllStringSubmatch(s, -1)] for a pattern that matches no
    empty string: successive leftmost matches, each search starting
    where the previous match ended ([skip] counts the bytes of the last
    match still to be passed). *)
Fixpoint find_all_from (r : regex) (s : string) (skip : nat) : list (list string) :=
  match s with
  | EmptyString => []
  | String _ t =>
      match skip with
      | S n => find_all_from r t n
      | O =>
          match match_here r s with
          | Some (rest, m) =>
              m :: find_all_from r t (String.length s - String.length rest - 1)
          | None => find_all_from r t O
          end
      end
  end.

Definition FindAllStringSubmatch (re : Regexp) (s : string) : list (list string) :=
  find_all_from (body re) s O.

End regexp.

(** ** [bufio.Scanner] with the default split function [ScanLines] *)

Module bufio.

(** The text cut at every newline; a text that ends in a newline has no
    empty last line. *)
Fixpoint split_lines (s : string) : list string :=
  match s with
  | EmptyString => []
  | String c t =>
      if strings.byte_eqb c strings.LF then EmptyString :: split_lines t
      else match split_lines t with
           | [] => [String c EmptyString]
           | l :: ls => String c l :: ls
           end
  end.

(** [dropCR]: one trailing carriage return is removed from a line. *)
Fixpoint dropCR (s : string) : string :=
  match s with
  | EmptyString => EmptyString
  | String c EmptyString =>
      if strings.byte_eqb c strings.CR then EmptyString else s
  | String c t => String c (dropCR t)
  end.

(** [bufio.MaxScanTokenSize]: a line that does not fit in the buffer
    stops the scan with [ErrTooLong]. *)
Definition MaxScanTokenSize : Z := 64 * 1024.

(** The tokens [Scan] delivers, and whether the scan stopped on a line
    that is too long ([scanner.Err() != nil] after the last token). *)
Fixpoint scan_tokens (raw : list string) : list string * bool :=
  match raw with
  | [] => ([], false)
  | l :: ls =>
      if MaxScanTokenSize <=? Z.of_nat (String.length l) then ([], true)
      else let '(ts, e) := scan_tokens ls in (dropCR l :: ts, e)
  end.

Definition scan (text : string) : list string * bool :=
  scan_tokens (split_lines text).

End bufio.

(** ** [time] *)

Module time.

(** An instant, in nanoseconds since the epoch. *)
Definition Time : Type := Z.
(** A [Duration] is an [int64] count of nanoseconds. *)
Definition Duration : Type := Z.

Definition maxDuration : Duration := 2 ^ 63 - 1.
Definition minDuration : Duration := - 2 ^ 63.

Definition Nanosecond : Duration := 1.
Definition Second : Duration := 1000000000 * Nanosecond.
Definition Hour : Duration := 3600 * Second.

(** [t.Sub(u)]: the difference, saturated to the range of [Duration]. *)
Definition Sub (t u : Time) : Duration :=
  let d := t - u in
  if d <? minDuration then minDuration
  else if maxDuration <? d then maxDuration
  else d.

(** [time.Since(t)], with [now] the reading of [time.Now()]. *)
Definition Since (now t : Time) : Duration := Sub now t.

(** [t.Before(u)]. *)
Definition Before (t u : Time) : bool := t <? u.

(** [unixToInternal]: the seconds from the year 1, the zero of the
    seconds a [Time] holds, to the year 1970. *)
Definition unixToInternal : Z :=
  (1969 * 365 + 1969 / 4 - 1969 / 100 + 1969 / 400) * 86400.

(** An [int64] sum wraps around. *)
Definition wrap_int64 (x : Z) : Z := (x + 2 ^ 63) mod 2 ^ 64 - 2 ^ 63.

(** [time.Unix(sec, 0)]: the [Time] holds [sec + unixToInternal], an
    [int64] sum; the instant it stands for is that many seconds after
    the year 1. *)
Definition Unix (sec : Z) : Time :=
  (wrap_int64 (sec + unixToInternal) - unixToInternal) * Second.

End time.

(** ** Outcomes of a call: a result, or a run-time panic *)

Inductive outcome (A : Type) : Type :=
| Ok (a : A)
| Panic.
Arguments Ok {A} a.
Arguments Panic {A}.

Notation "x <- e ;; k" :=
  (match e with Ok x => k | Panic => Panic end)
  (at level 100, e at next level, right associativity, only parsing).
(** Go's [error] values of the program, one constructor per message. *)
Inductive error : Type :=
| ErrOpen                          (* os.Open failed *)
| ErrTooLong                       (* bufio.Scanner: token too long *)
| ErrNoSection (versionTag : string) (* no section found for %s in changelog file *)
| ErrNoPRNumbers                   (* no PR numbers found in the changelog section *)
| ErrPRNotInSection (pr : Z)       (* PR #%d not found in changelog section *)
| ErrNoDescription (pr : Z)        (* couldn't extract description for PR #%d *)
| ErrRateLimitedUntil (t : time.Time) (* rate limited until %s *)
| ErrRateLimited                   (* rate limited by GitHub API *)
| ErrStatus (code : Z)             (* GitHub API returned status %d *)
| ErrOpenAI (message : string)     (* OpenAI API error: %s *)
| ErrNoChoices                     (* OpenAI API returned no choices *)
| ErrSQL (message : string)        (* an error of database/sql *)
| ErrHTTP (message : string)       (* an error of net/http, io or encoding/json *).

(** ** Package [types] *)

Module types.

(** [PRStatus] is an [int]; the three constants are its [iota] values. *)
Definition PRStatus : Type := Z.
Definition StatusGoodMatch : PRStatus := 0.
Definition StatusPotentialMismatch : PRStatus := 1.
Definition StatusNotFound : PRStatus := 2.

Record PRResult : Type := mkPRResult {
  Number : Z;
  ChangelogDesc : string;
  PRTitle : string;
  Status : PRStatus;
  Error : option error
}.

End types.

(** ** Package [db]: the SQLite cache *)

Module db.

(** A row of [github_pr_cache] and a row of [validation_cache]; the
    primary key of both tables is (repo_owner, repo_name, pr_number). *)
Record pr_row : Type := mkPRRow { title : string; fetched_at : time.Time }.
Record validation_row : Type := mkValidationRow {
  changelog_desc : string;
  status : Z;
  last_validated : time.Time
}.

(** The database file: its two tables, and the error every statement
    returns when the connection is broken. *)
Record Store : Type := mkStore {
  github_pr_cache : gmap (string * string * Z) pr_row;
  validation_cache : gmap (string * string * Z) validation_row;
  fault : option error
}.

(** The struct [DB] wraps the connection; a [*DB] may be nil. *)
Inductive DB : Type := Conn.

Definition TTL : time.Duration := 7 * 24 * time.Hour.

(** [(d *DB) GetPRInfo]: (title, found, err). The receiver is
    dereferenced at [d.db]. *)
Definition GetPRInfo (d : option DB) (now : time.Time) (st : Store)
  (repoOwner repoName : string) (prNumber : Z)
  : outcome (string * bool * option error) :=
  match d with
  | None => Panic
  | Some Conn =>
      match fault st with
      | Some err => Ok (EmptyString, false, Some err)
      | None =>
          match github_pr_cache st !! (repoOwner, repoName, prNumber) with
          | None => Ok (EmptyString, false, None)
          | Some row =>
              if TTL <? time.Since now (fetched_at row)
              then Ok (EmptyString, false, None)
              else Ok (title row, true, None)
          end
      end
  end.

(** [(d *DB) StorePRInfo]: the error, and the database after the call. *)
Definition StorePRInfo (d : option DB) (now : time.Time) (st : Store)
  (repoOwner repoName : string) (prNumber : Z) (title : string)
  : outcome (option error * Store) :=
  match d with
  | None => Panic
  | Some Conn =>
      match fault st with
      | Some err => Ok (Some err, st)
      | None =>
          Ok (None,
              mkStore
                (<[(repoOwner, repoName, prNumber) := mkPRRow title now]>
                   (github_pr_cache st))
                (validation_cache st) (fault st))
      end
  end.

(** [(d *DB) GetValidationResult]: (status, cached, err). *)
Definition GetValidationResult (d : option DB) (now : time.Time) (st : Store)
  (repoOwner repoName : string) (prNumber : Z) (changelogDesc : string)
  : outcome (Z * bool * option error) :=
  match d with
  | None => Panic
  | Some Conn =>
      match fault st with
      | Some err => Ok (0, false, Some err)
      | None =>
          match validation_cache st !! (repoOwner, repoName, prNumber) with
          | None => Ok (0, false, None)
          | Some row =>
              if negb (String.eqb (changelog_desc row) changelogDesc)
              then Ok (0, false, None)
              else if TTL <? time.Since now (last_validated row)
              then Ok (0, false, None)
              else Ok (status row, true, None)
          end
      end
  end.

(** [(d *DB) StoreValidationResult]. *)
Definition StoreValidationResult (d : option DB) (now : time.Time) (st : Store)
  (repoOwner repoName : string) (prNumber : Z) (changelogDesc : string)
  (status : Z) : outcome (option error * Store) :=
  match d with
  | None => Panic
  | Some Conn =>
      match fault st with
      | Some err => Ok (Some err, st)
      | None =>
          Ok (None,
              mkStore (github_pr_cache st)
                (<[(repoOwner, repoName, prNumber) :=
                     mkValidationRow changelogDesc status now]>
                   (validation_cache st))
                (fault st))
      end
  end.

End db.

(** ** The world outside the process

    The changelog files, the two remote services as functions of the
    request, the clock, and the cache database. Only the database
    changes during a run. *)

(** What [httpClient.Do] and the decoding of the body give for a GitHub
    request. *)
Inductive github_body : Type :=
| GhReadError (e : error)          (* io.ReadAll failed *)
| GhMalformed (e : error)          (* json.Unmarshal failed *)
| GhDecoded (title : string).
Inductive github_reply : Type :=
| GhBadRequest (e : error)         (* http.NewRequest failed *)
| GhTransportError (e : error)     (* httpClient.Do failed *)
| GhResponse (StatusCode : Z) (RateLimitReset : string) (body : github_body).

(** The same for the chat-completion request. *)
Inductive openai_reply : Type :=
| OaTransportError (e : error)
| OaReadError (e : error)
| OaMalformed (e : error)
| OaResponse (error_message : string) (choices : list string).

Record World : Type := mkWorld {
  files : string -> option string;
  github_api : string -> string -> github_reply;   (* url, token *)
  openai_api : string -> string -> openai_reply;   (* api key, user message *)
  now : time.Time;
  cache : db.Store
}.

Definition set_cache (w : World) (st : db.Store) : World :=
  mkWorld (files w) (github_api w) (openai_api w) (now w) st.

(** ** Package [github] *)

Module github.

Record Client : Type := mkClient {
  token : string;
  db : option db.DB;
  rateLimited : bool;
  resetTime : time.Time;
  defaultOwner : string;
  defaultRepo : string
}.

Definition NewClient (token defaultOwner defaultRepo : string)
  (db : option db.DB) : Client :=
  mkClient token db false 0 defaultOwner defaultRepo.

Definition StatusOK : Z := 200.
Definition StatusForbidden : Z := 403.
Definition StatusTooManyRequests : Z := 429.

Definition pulls_url (owner repo : string) (prNumber : Z) : string :=
  "https://api.github.com/repos/" +:+ owner +:+ "/" +:+ repo +:+ "/pulls/"
    +:+ strconv.Itoa prNumber.

(** [(c *Client) GetPRInfo]: (title, err), with the client and the
    world after the call. *)
Definition GetPRInfo (c : Client) (w : World) (owner repo : string)
  (prNumber : Z) : outcome ((string * option error) * Client * World) :=
  if rateLimited c && time.Before (now w) (resetTime c) then
    Ok ((EmptyString, Some (ErrRateLimitedUntil (resetTime c))), c, w)
  else
    cached <- db.GetPRInfo (db c) (now w) (cache w) owner repo prNumber ;;
    match cached with
    | (title, true, None) => Ok ((title, None), c, w)
    | _ =>
        match github_api w (pulls_url owner repo prNumber) (token c) with
        | GhBadRequest e => Ok ((EmptyString, Some e), c, w)
        | GhTransportError e => Ok ((EmptyString, Some e), c, w)
        | GhResponse code resetHeader body =>
            if (code =? StatusForbidden) || (code =? StatusTooManyRequests) then
              match
                (if String.eqb resetHeader EmptyString then None
                 else strconv.Atoi resetHeader)
              with
              | Some resetTime =>
                  let c' := mkClient (token c) (db c) true (time.Unix resetTime)
                              (defaultOwner c) (defaultRepo c) in
                  Ok ((EmptyString, Some (ErrRateLimitedUntil (time.Unix resetTime))),
                      c', w)
              | None => Ok ((EmptyString, Some ErrRateLimited), c, w)
              end
            else if negb (code =? StatusOK) then
              Ok ((EmptyString, Some (ErrStatus code)), c, w)
            else
              match body with
              | GhReadError e => Ok ((EmptyString, Some e), c, w)
              | GhMalformed e => Ok ((EmptyString, Some e), c, w)
              | GhDecoded title =>
                  stored <- db.StorePRInfo (db c) (now w) (cache w) owner repo
                              prNumber title ;;
                  Ok ((title, None), c, set_cache w (snd stored))
              end
        end
    end.

End github.

(** ** Package [checker] *)

Module checker.

Record OpenAIClient : Type := NewOpenAIClient { apiKey : string }.

Definition similarity_prompt (text1 text2 : string) : string :=
  "PR Title: " +:+ text1 +:+ String strings.LF "Changelog Description: "
    +:+ text2 +:+ String strings.LF (String strings.LF
    "Are these two texts describing the same change? Answer only YES or NO.").

(** [(c *OpenAIClient) CheckSimilarity]: (similar, err). *)
Definition OpenAI_CheckSimilarity (c : OpenAIClient) (w : World)
  (text1 text2 : string) : bool * option error :=
  match openai_api w (apiKey c) (similarity_prompt text1 text2) with
  | OaTransportError e => (false, Some e)
  | OaReadError e => (false, Some e)
  | OaMalformed e => (false, Some e)
  | OaResponse message choices =>
      if negb (String.eqb message EmptyString) then (false, Some (ErrOpenAI message))
      else
        match choices with
        | [] => (false, Some ErrNoChoices)
        | answer :: _ => (strings.Contains (strings.ToUpper answer) "YES", None)
        end
  end.

Record Checker : Type := mkChecker {
  githubClient : option github.Client;
  openAIClient : option OpenAIClient;
  db : option db.DB;
  repoOwner : string;
  repoName : string;
  verbose : bool
}.

Definition NewChecker (githubClient : option github.Client)
  (openAIKey repoOwner repoName : string) (database : option db.DB)
  (verbose : bool) : Checker :=
  mkChecker githubClient
    (if negb (String.eqb openAIKey EmptyString)
     then Some (NewOpenAIClient openAIKey) else None)
    database repoOwner repoName verbose.

(** The pattern [\[\\#(\d+)\]]. *)
Definition pr_ref_re : regexp.Regexp :=
  regexp.MustCompile false
    (regexp.Seq [regexp.Lits "[\#"; regexp.Group (regexp.Plus regexp.digit);
                 regexp.Lit "]"]).

(** The loop body of [ExtractPRNumbers] for one match. *)
Definition add_match (prNumbers : list Z) (m : list string) : list Z :=
  match m with
  | _ :: digits :: _ =>
      match strconv.Atoi digits with
      | None => prNumbers
      | Some number =>
          if existsb (fun pr => pr =? number) prNumbers then prNumbers
          else prNumbers ++ [number]
      end
  | _ => prNumbers
  end.

(** [(c *Checker) ExtractPRNumbers]; the two scans of the section only
    count lines for the log. *)
Definition ExtractPRNumbers (changelogSection : string) : list Z :=
  fold_left add_match
    (regexp.FindAllStringSubmatch pr_ref_re changelogSection) [].

(** [findSection]. *)
Fixpoint findSection (tokens : list string) (header : string) : bool :=
  match tokens with
  | [] => false
  | line :: rest =>
      if strings.HasPrefix line header then true else findSection rest header
  end.

(** The pattern [^## \[(v\d+\.\d+\.\d+)\]]. *)
Definition version_re : regexp.Regexp :=
  regexp.MustCompile true
    (regexp.Seq
       [regexp.Lits "## [";
        regexp.Group
          (regexp.Seq [regexp.Lit "v"; regexp.Plus regexp.digit;
                       regexp.Lit "."; regexp.Plus regexp.digit;
                       regexp.Lit "."; regexp.Plus regexp.digit]);
        regexp.Lit "]"]).

(** The first version header of the file, if any. *)
Fixpoint first_version (tokens : list string) : option string :=
  match tokens with
  | [] => None
  | line :: rest =>
      match regexp.FindStringSubmatch version_re line with
      | Some (_ :: v :: _) => Some v
      | _ => first_version rest
      end
  end.

(** The tag looked for when [versionTag] is empty. *)
Definition default_tag (tokens : list string) : string :=
  if findSection tokens "## [Unreleased]" then "Unreleased"
  else match first_version tokens with
       | Some v => v
       | None => "Unreleased"
       end.

Definition version_header (versionTag : string) : string :=
  if negb (strings.HasPrefix versionTag "v")
     && negb (String.eqb versionTag "Unreleased")
  then "## [v" +:+ versionTag +:+ "]"
  else "## [" +:+ versionTag +:+ "]".

(** The loop that collects the lines of the section; the boolean tells
    whether the scanner was run to its end (no [break]). *)
Fixpoint collect_section (versionHeader : string) (tokens : list string)
  (inSection : bool) (sectionLines : list string) : list string * bool :=
  match tokens with
  | [] => (sectionLines, true)
  | line :: rest =>
      if strings.HasPrefix line versionHeader then
        collect_section versionHeader rest true (sectionLines ++ [line])
      else if inSection && strings.HasPrefix line "## [" then
        (sectionLines, false)
      else if inSection then
        collect_section versionHeader rest inSection (sectionLines ++ [line])
      else collect_section versionHeader rest inSection sectionLines
  end.

(** [(c *Checker) GetChangelogSection]: (section, err). *)
Definition GetChangelogSection (w : World) (changelogFile versionTag : string)
  : string * option error :=
  match files w changelogFile with
  | None => (EmptyString, Some ErrOpen)
  | Some text =>
      let '(tokens, tooLong) := bufio.scan text in
      let versionTag :=
        if String.eqb versionTag EmptyString then default_tag tokens
        else versionTag in
      let versionHeader := version_header versionTag in
      let '(sectionLines, atEnd) :=
        collect_section versionHeader tokens false [] in
      if atEnd && tooLong then (EmptyString, Some ErrTooLong)
      else if (length sectionLines =? 0)%nat then
        (EmptyString, Some (ErrNoSection versionTag))
      else (strings.Join sectionLines (String strings.LF EmptyString), None)
  end.

(** The part the three description patterns share:
    [\[\\#\d+\]\([^)]+\) (.+)$]. *)
Definition link_then_text : list regexp.regex :=
  [regexp.Lits "[\#"; regexp.Plus regexp.digit; regexp.Lits "](";
   regexp.Plus regexp.not_rparen; regexp.Lits ") ";
   regexp.Group (regexp.Plus regexp.dot); regexp.EndText].

(** [^\* \([^)]*\) \[\\#\d+\]\([^)]+\) (.+)$] *)
Definition component_form_re : regexp.Regexp :=
  regexp.MustCompile true
    (regexp.Seq
       ([regexp.Lits "* ("; regexp.Star regexp.not_rparen; regexp.Lits ") "]
          ++ link_then_text)).

(** [^\* \[\\#\d+\]\([^)]+\) (.+)$] *)
Definition plain_form_re : regexp.Regexp :=
  regexp.MustCompile true (regexp.Seq (regexp.Lits "* " :: link_then_text)).

(** [\[\\#\d+\]\([^)]+\) (.+)$] *)
Definition general_form_re : regexp.Regexp :=
  regexp.MustCompile false (regexp.Seq link_then_text).

(** [fmt.Sprintf("[\\#%d]", prNumber)]. *)
Definition pr_marker (prNumber : Z) : string :=
  "[\#" +:+ strconv.Itoa prNumber +:+ "]".

(** [if match := re.FindStringSubmatch(line); len(match) > 1]: the
    first group of a match. *)
Definition first_group (re : regexp.Regexp) (line : string) : option string :=
  match regexp.FindStringSubmatch re line with
  | Some (_ :: g :: _) => Some g
  | _ => None
  end.

(** [(c *Checker) GetPRDescriptionFromLine]. *)
Definition GetPRDescriptionFromLine (line : string) (prNumber : Z) : string :=
  if negb (strings.Contains line (pr_marker prNumber)) then EmptyString
  else
    match first_group component_form_re line with
    | Some desc => desc
    | None =>
        match first_group plain_form_re line with
        | Some desc => desc
        | None =>
            match first_group general_form_re line with
            | Some desc => desc
            | None => EmptyString
            end
        end
    end.

(** The description as the substring check sees it: backticks removed,
    lower case, cut at the first period. *)
Definition normalize_desc (changelogDesc : string) : string :=
  let changelogLower :=
    strings.ToLower (strings.RemoveByte changelogDesc "`"%char) in
  match strings.IndexByte changelogLower "."%char with
  | Some idx => strings.slice_to idx changelogLower
  | None => changelogLower
  end.

(** The condition of the first [if] of [CheckSimilarity]. *)
Definition substring_check (changelogDesc prTitle : string) : bool :=
  let changelogLower := normalize_desc changelogDesc in
  let prTitleLower := strings.ToLower prTitle in
  strings.Contains prTitleLower changelogLower
  || strings.Contains changelogLower prTitleLower.

(** [(c *Checker) CheckSimilarity]. *)
Definition CheckSimilarity (c : Checker) (w : World)
  (changelogDesc prTitle : string) : types.PRStatus :=
  if substring_check changelogDesc prTitle then types.StatusGoodMatch
  else
    match openAIClient c with
    | Some client =>
        match OpenAI_CheckSimilarity client w prTitle changelogDesc with
        | (_, Some _) => types.StatusPotentialMismatch
        | (true, None) => types.StatusGoodMatch
        | (false, None) => types.StatusPotentialMismatch
        end
    | None => types.StatusPotentialMismatch
    end.

(** The scan of [FindPRLineInSection]. *)
Fixpoint find_line (prRef : string) (tokens : list string) : string :=
  match tokens with
  | [] => EmptyString
  | line :: rest =>
      if strings.Contains line prRef then line else find_line prRef rest
  end.

(** [(c *Checker) FindPRLineInSection]. *)
Definition FindPRLineInSection (prNumber : Z) (section : string) : string :=
  find_line (pr_marker prNumber) (fst (bufio.scan section)).

(** [c.githubClient.GetPRInfo(...)]: the client is behind a pointer of
    the checker, and keeps its rate-limit state between calls. *)
Definition client_GetPRInfo (c : Checker) (w : World) (prNumber : Z)
  : outcome ((string * option error) * Checker * World) :=
  match githubClient c with
  | None => Panic
  | Some gc =>
      r <- github.GetPRInfo gc w (repoOwner c) (repoName c) prNumber ;;
      let '(res, gc', w') := r in
      Ok (res,
          mkChecker (Some gc') (openAIClient c) (db c) (repoOwner c)
            (repoName c) (verbose c),
          w')
  end.

(** The path of [CheckPR] after a miss of the validation cache. *)
Definition check_uncached (c : Checker) (w : World) (prNumber : Z)
  (desc : string) : outcome (types.PRResult * Checker * World) :=
  r <- client_GetPRInfo c w prNumber ;;
  match r with
  | ((_, Some err), c', w') =>
      Ok (types.mkPRResult prNumber desc EmptyString types.StatusNotFound
            (Some err), c', w')
  | ((prTitle, None), c', w') =>
      let status := CheckSimilarity c' w' desc prTitle in
      let result := types.mkPRResult prNumber desc prTitle status None in
      match db c' with
      | Some d =>
          stored <- db.StoreValidationResult (Some d) (now w') (cache w')
                      (repoOwner c') (repoName c') prNumber desc status ;;
          Ok (result, c', set_cache w' (snd stored))
      | None => Ok (result, c', w')
      end
  end.

(** [(c *Checker) CheckPR]. *)
Definition CheckPR (c : Checker) (w : World) (prNumber : Z)
  (changelogSection : string) : outcome (types.PRResult * Checker * World) :=
  let line := FindPRLineInSection prNumber changelogSection in
  if String.eqb line EmptyString then
    Ok (types.mkPRResult prNumber EmptyString EmptyString types.StatusNotFound
          (Some (ErrPRNotInSection prNumber)), c, w)
  else
    let desc := GetPRDescriptionFromLine line prNumber in
    if String.eqb desc EmptyString then
      Ok (types.mkPRResult prNumber EmptyString EmptyString
            types.StatusNotFound (Some (ErrNoDescription prNumber)), c, w)
    else
      match db c with
      | Some d =>
          cached <- db.GetValidationResult (Some d) (now w) (cache w)
                      (repoOwner c) (repoName c) prNumber desc ;;
          match cached with
          | (status, true, None) =>
              r <- client_GetPRInfo c w prNumber ;;
              match r with
              | ((_, Some err), c', w') =>
                  Ok (types.mkPRResult prNumber desc EmptyString status
                        (Some err), c', w')
              | ((prTitle, None), c', w') =>
                  Ok (types.mkPRResult prNumber desc prTitle status None,
                      c', w')
              end
          | _ => check_uncached c w prNumber desc
          end
      | None => check_uncached c w prNumber desc
      end.

(** An index expression [s[i]]; out of range it panics. *)
Definition index (s : list Z) (i : nat) : outcome Z :=
  match s !! i with
  | Some x => Ok x
  | None => Panic
  end.

(** The block "Apply limit if specified" of [CheckChangelog]. *)
Definition apply_limit (prNumbers : list Z) (limit : Z) : outcome (list Z) :=
  if (0 <? limit) && (limit <? Z.of_nat (length prNumbers)) then
    if limit =? 3 then
      let middle := (length prNumbers / 2)%nat in
      first <- index prNumbers 0 ;;
      mid <- index prNumbers middle ;;
      last <- index prNumbers (length prNumbers - 1) ;;
      Ok [first; mid; last]
    else Ok (take (Z.to_nat limit) prNumbers)
  else Ok prNumbers.

(** The loop "Check each PR". *)
Fixpoint check_each (c : Checker) (w : World) (prNumbers : list Z)
  (section : string) (results : list types.PRResult)
  : outcome (list types.PRResult * Checker * World) :=
  match prNumbers with
  | [] => Ok (results, c, w)
  | prNumber :: rest =>
      r <- CheckPR c w prNumber section ;;
      let '(result, c', w') := r in
      check_each c' w' rest section (results ++ [result])
  end.

(** [(c *Checker) CheckChangelog]: (results, err). *)
Definition CheckChangelog (c : Checker) (w : World)
  (changelogFile versionTag : string) (limit : Z)
  : outcome ((list types.PRResult * option error) * Checker * World) :=
  match GetChangelogSection w changelogFile versionTag with
  | (_, Some err) => Ok (([], Some err), c, w)
  | (section, None) =>
      let prNumbers := ExtractPRNumbers section in
      if (length prNumbers =? 0)%nat then Ok (([], Some ErrNoPRNumbers), c, w)
      else
        selected <- apply_limit prNumbers limit ;;
        r <- check_each c w selected section [] ;;
        let '(results, c', w') := r in
        Ok ((results, None), c', w')
  end.

End checker.

(** * The vocabulary of the statements *)

(** ** What a pattern match means

    [matches r s rest caps caps']: the pattern [r] matches the text [s]
    when [rest] follows it, and the groups closed so far go from [caps]
    to [caps']. *)

Inductive matches : regexp.regex -> string -> string -> list string ->
  list string -> Prop :=
| M_Eps rest caps : matches regexp.Eps EmptyString rest caps caps
| M_Lit c rest caps :
    matches (regexp.Lit c) (String c EmptyString) rest caps caps
| M_Class (p : ascii -> bool) c rest caps :
    p c = true -> matches (regexp.Class p) (String c EmptyString) rest caps caps
| M_Star (p : ascii -> bool) s rest caps :
    strconv.all_bytes p s = true -> matches (regexp.Star p) s rest caps caps
| M_Cat r1 r2 s1 s2 rest caps0 caps1 caps2 :
    matches r1 s1 (s2 +:+ rest) caps0 caps1 ->
    matches r2 s2 rest caps1 caps2 ->
    matches (regexp.Cat r1 r2) (s1 +:+ s2) rest caps0 caps2
| M_Group r s rest caps0 caps1 :
    matches r s rest caps0 caps1 ->
    matches (regexp.Group r) s rest caps0 (caps1 ++ [s])
| M_EndText caps : matches regexp.EndText EmptyString EmptyString caps caps.

(** The number a match of [\[\\#(\d+)\]] stands for: the value of its
    group, when [Atoi] accepts it. *)
Definition marker_number (m : list string) : option Z :=
  match m with
  | _ :: digits :: _ => strconv.Atoi digits
  | _ => None
  end.

(** The numbers of the [[\#<digits>]] markers of a section, in the order
    of the markers, a marker whose digits overflow [int] left out. *)
Definition marker_numbers (changelogSection : string) : list Z :=
  omap marker_number
    (regexp.FindAllStringSubmatch checker.pr_ref_re changelogSection).

(** A string of one or more decimal digits. *)
Definition is_number (digits : string) : Prop :=
  digits <> EmptyString /\ strconv.all_bytes strconv.is_digit digits = true.

(** The marker [[\#<digits>]], and a text in which a marker occurs. *)
Definition marker (digits : string) : string := "[\#" +:+ digits +:+ "]".

Definition marker_occurs (s : string) : Prop :=
  exists before digits after,
    s = before +:+ marker digits +:+ after /\ is_number digits.

(** A line has a link construct when [[\#<digits>](<url>)] occurs in it. *)
Definition link (digits url : string) : string :=
  "[\#" +:+ digits +:+ "](" +:+ url +:+ ")".

(** What the patterns take for a URL: one or more bytes other than [)]. *)
Definition is_url (url : string) : Prop :=
  url <> EmptyString /\ strconv.all_bytes regexp.not_rparen url = true.

Definition has_link (line : string) : Prop :=
  exists before digits url after,
    line = before +:+ link digits url +:+ after
    /\ is_number digits /\ is_url url.

(** A text at which a run of bytes of the class [p] ends. *)
Definition stops (p : ascii -> bool) (s : string) : Prop :=
  match s with
  | EmptyString => True
  | String c _ => p c = false
  end.

(** The loop of [ExtractPRNumbers] sees the numbers of the markers one
    after the other, and appends the ones it has not seen. *)
Definition add_number (prNumbers : list Z) (number : Z) : list Z :=
  if existsb (fun pr => pr =? number) prNumbers then prNumbers
  else prNumbers ++ [number].

(** The list built from the occurrences [nums]: no value twice, the same
    values, and each value where it was first seen. *)
Definition first_seen_order (nums res : list Z) : Prop :=
  NoDup res
  /\ (forall x, x ∈ res <-> x ∈ nums)
  /\ (forall (i : nat) (x : Z), res !! i = Some x ->
        exists earlier later,
          nums = earlier ++ x :: later /\ (x ∉ earlier)
          /\ (forall y, y ∈ earlier <-> y ∈ take i res)).

(** The text after a link: not empty, and without a newline. *)
Definition is_text (desc : string) : Prop :=
  desc <> EmptyString /\ strconv.all_bytes regexp.dot desc = true.

(** No byte of [s] is [x]. *)
Definition without (x : ascii) (s : string) : Prop :=
  strconv.all_bytes (fun c => negb (strings.byte_eqb c x)) s = true.

(** ** The scenarios of the specification *)

(** A database with a verdict six days old and a title eight days old
    for PR 100, read at [example_now]. *)
Definition day : Z := 24 * time.Hour.
Definition example_now : time.Time := 1000 * day.
Definition example_store : db.Store :=
  db.mkStore
    {[ ("cosmos", "ibc-go", 100) := db.mkPRRow "Fix bug in client" (example_now - 8 * day) ]}
    {[ ("cosmos", "ibc-go", 100) := db.mkValidationRow "Fix bug" 1 (example_now - 6 * day) ]}
    None.

(** The world of the scenarios of the specification: the changelog with
    one entry, a GitHub that answers with the title, a similarity
    service that cannot be reached, and an empty cache. *)
Definition example_changelog : string :=
  "## [Unreleased]" +:+ String strings.LF
    ("* (client) [\#100](url) Fix bug" +:+ String strings.LF EmptyString).

Definition example_world : World :=
  mkWorld (fun _ => Some example_changelog)
    (fun _ _ => GhResponse 200 EmptyString (GhDecoded "Fix bug in client"))
    (fun _ _ => OaTransportError (ErrHTTP "no route"))
    example_now
    (db.mkStore ∅ ∅ None).

(** The same world with a changelog that is only a header line. *)
Definition header_only_world : World :=
  mkWorld (fun _ => Some ("## [Unreleased]" +:+ String strings.LF EmptyString))
    (github_api example_world) (openai_api example_world) example_now
    (db.mkStore ∅ ∅ None).

(** The same world with an empty changelog file. *)
Definition empty_file_world : World :=
  mkWorld (fun _ => Some EmptyString) (github_api example_world)
    (openai_api example_world) example_now (db.mkStore ∅ ∅ None).

(** The same world with a GitHub that answers with another title. *)
Definition other_title_world : World :=
  mkWorld (files example_world)
    (fun _ _ => GhResponse 200 EmptyString (GhDecoded "Add new feature"))
    (openai_api example_world) example_now (db.mkStore ∅ ∅ None).

(** A checker with the cache and without a similarity service. *)
Definition cached_checker : checker.Checker :=
  checker.NewChecker (Some (github.NewClient "" "cosmos" "ibc-go" (Some db.Conn)))
    "" "cosmos" "ibc-go" (Some db.Conn) false.

(** The verdict and the error of the result of [CheckPR]. *)
Definition verdict (r : outcome (types.PRResult * checker.Checker * World))
  : option (types.PRStatus * option error) :=
  match r with
  | Ok (res, _, _) => Some (types.Status res, types.Error res)
  | Panic => None
  end.

(** A checker with a similarity service that cannot be reached. *)
Definition example_checker : checker.Checker :=
  checker.NewChecker (Some (github.NewClient "" "cosmos" "ibc-go" (Some db.Conn)))
    "sk-key" "cosmos" "ibc-go" (Some db.Conn) false.

(** ** Further vocabulary *)

(** The world [w] with another GitHub behind it. *)
Definition with_github (w : World)
  (api : string -> string -> github_reply) : World :=
  mkWorld (files w) api (openai_api w) (now w) (cache w).

(** The world [w] with other remote services behind it. *)
Definition with_services (w : World)
  (github : string -> string -> github_reply)
  (openai : string -> string -> openai_reply) : World :=
  mkWorld (files w) github openai (now w) (cache w).

(** The checker has a GitHub client, and the client a store. *)
Definition client_has_store (c : checker.Checker) : Prop :=
  exists gc, checker.githubClient c = Some gc /\ github.db gc = Some db.Conn.

(** The configuration of a checker: all but the rate-limit state of its
    client. *)
Definition same_config (c c' : checker.Checker) : Prop :=
  checker.db c' = checker.db c
  /\ checker.openAIClient c' = checker.openAIClient c
  /\ checker.repoOwner c' = checker.repoOwner c
  /\ checker.repoName c' = checker.repoName c
  /\ checker.verbose c' = checker.verbose c.

(** What a run may change in the world: rows of the two tables. *)
Definition same_outside_cache (w w' : World) : Prop :=
  files w' = files w /\ github_api w' = github_api w
  /\ openai_api w' = openai_api w /\ now w' = now w
  /\ db.fault (cache w') = db.fault (cache w).

(** The section of the example changelog. *)
Definition example_changelog_section : string :=
  "## [Unreleased]" +:+ String strings.LF "* (client) [\#100](url) Fix bug".

(** A text of ASCII bytes, on which the model of the letter case is
    exact. *)
Definition is_ascii (s : string) : Prop :=
  strconv.all_bytes (fun c => (N_of_ascii c <? 128)%N) s = true.

(** * Proofs *)

(** Taking a [matches] derivation of a concrete pattern apart. *)
Ltac invert_matches :=
  repeat match goal with
  | H : matches regexp.Eps _ _ _ _ |- _ => inversion H; subst; clear H
  | H : matches (regexp.Lit _) _ _ _ _ |- _ => inversion H; subst; clear H
  | H : matches (regexp.Class _) _ _ _ _ |- _ => inversion H; subst; clear H
  | H : matches (regexp.Star _) _ _ _ _ |- _ => inversion H; subst; clear H
  | H : matches (regexp.Cat _ _) _ _ _ _ |- _ => inversion H; subst; clear H
  | H : matches (regexp.Group _) _ _ _ _ |- _ => inversion H; subst; clear H
  | H : matches regexp.EndText _ _ _ _ |- _ => inversion H; subst; clear H
  end.

(** * Facts about byte strings *)

#[local] Arguments String.append !_ _ / : simpl nomatch.

Section StringFacts.

Lemma append_nil_r (s : string) : s +:+ EmptyString = s.
Proof. induction s as [|c s IH]; simpl; [reflexivity | now rewrite IH]. Qed.

Lemma append_assoc (a b c : string) : (a +:+ b) +:+ c = a +:+ b +:+ c.
Proof. induction a as [|x a IH]; simpl; [reflexivity | now rewrite IH]. Qed.

Lemma length_append (a b : string) :
  String.length (a +:+ b) = (String.length a + String.length b)%nat.
Proof. induction a as [|x a IH]; simpl; [reflexivity | now rewrite IH]. Qed.

Lemma byte_eqb_eq (a b : ascii) : strings.byte_eqb a b = true <-> a = b.
Proof. apply Ascii.eqb_eq. Qed.

Lemma byte_eqb_refl (a : ascii) : strings.byte_eqb a a = true.
Proof. apply Ascii.eqb_refl. Qed.

Lemma slice_to_length (s : string) : strings.slice_to (String.length s) s = s.
Proof. induction s as [|c s IH]; simpl; [reflexivity | now rewrite IH]. Qed.

Lemma slice_to_app (a b : string) :
  strings.slice_to (String.length (a +:+ b) - String.length b) (a +:+ b) = a.
Proof.
  rewrite length_append.
  replace (String.length a + String.length b - String.length b)%nat
    with (String.length a) by lia.
  induction a as [|x a IH]; simpl.
  - destruct b; reflexivity.
  - now rewrite IH.
Qed.

Lemma HasPrefix_spec (s p : string) :
  strings.HasPrefix s p = true <-> exists t, s = p +:+ t.
Proof.
  revert s; induction p as [|c p IH]; intros s; simpl.
  - split; [intros _; now exists s | intros _; reflexivity].
  - destruct s as [|x s]; simpl.
    + split; [discriminate | intros [t Ht]; discriminate].
    + rewrite andb_true_iff, byte_eqb_eq, IH. split.
      * intros [-> [t ->]]. now exists t.
      * intros [t Ht]. injection Ht as -> ->. split; [reflexivity | now exists t].
Qed.

Lemma HasPrefix_app (p t : string) : strings.HasPrefix (p +:+ t) p = true.
Proof. apply HasPrefix_spec. now exists t. Qed.

Lemma Contains_spec (s sub : string) :
  strings.Contains s sub = true <-> exists a b, s = a +:+ sub +:+ b.
Proof.
  induction s as [|c s IH]; simpl.
  - rewrite orb_false_r, HasPrefix_spec. split.
    + intros [t Ht]. exists EmptyString, t. exact Ht.
    + intros [a [b H]]. destruct a; [now exists b | discriminate].
  - rewrite orb_true_iff, HasPrefix_spec, IH. split.
    + intros [[t Ht] | [a [b H]]].
      * exists EmptyString, t. exact Ht.
      * exists (String c a), b. simpl. now rewrite H.
    + intros [a [b H]]. destruct a as [|x a]; simpl in H.
      * left. now exists b.
      * right. injection H as -> ->. now exists a, b.
Qed.

Lemma Contains_mid (a sub b : string) :
  strings.Contains (a +:+ sub +:+ b) sub = true.
Proof. apply Contains_spec. now exists a, b. Qed.

Lemma Contains_empty (s : string) : strings.Contains s EmptyString = true.
Proof. destruct s; reflexivity. Qed.

Lemma all_bytes_app (p : ascii -> bool) (a b : string) :
  strconv.all_bytes p (a +:+ b)
  = strconv.all_bytes p a && strconv.all_bytes p b.
Proof.
  induction a as [|x a IH]; simpl; [reflexivity|].
  now rewrite IH, andb_assoc.
Qed.

End StringFacts.

(** * Facts about the matcher *)

Section MatcherFacts.
Context {A : Type}.

(** Whatever [star_k] returns, the continuation returned it after a run
    of bytes of the class. *)
Lemma star_k_sound (p : ascii -> bool) (k : string -> option A) (s : string)
  (a : A) :
  regexp.star_k p k s = Some a ->
  exists s1 s2, s = s1 +:+ s2 /\ strconv.all_bytes p s1 = true /\ k s2 = Some a.
Proof.
  induction s as [|c t IH]; simpl; intros H.
  - exists EmptyString, EmptyString. auto.
  - destruct (p c) eqn:Hp.
    + destruct (regexp.star_k p k t) as [r|] eqn:Hs.
      * injection H as ->. destruct (IH eq_refl) as (s1 & s2 & -> & H1 & H2).
        exists (String c s1), s2. simpl. rewrite Hp, H1. auto.
      * exists EmptyString, (String c t). auto.
    + exists EmptyString, (String c t). auto.
Qed.

(** The repetition is greedy: when the run of class bytes ends at [s2]
    and the rest of the pattern accepts [s2], that is the match. *)
Lemma star_k_greedy (p : ascii -> bool) (k : string -> option A)
  (s1 s2 : string) (a : A) :
  strconv.all_bytes p s1 = true -> stops p s2 -> k s2 = Some a ->
  regexp.star_k p k (s1 +:+ s2) = Some a.
Proof.
  intros H1 H2 Hk. induction s1 as [|c s1 IH]; simpl in *.
  - destruct s2 as [|c t]; simpl in *; [exact Hk | now rewrite H2].
  - apply andb_true_iff in H1 as [Hc H1]. now rewrite Hc, (IH H1).
Qed.

Lemma match_k_sound (r : regexp.regex) :
  forall (s : string) (caps : list string)
    (k : string -> list string -> option A) (a : A),
  regexp.match_k r s caps k = Some a ->
  exists s1 s2 caps',
    s = s1 +:+ s2 /\ matches r s1 s2 caps caps' /\ k s2 caps' = Some a.
Proof.
  induction r as [| c | p | p | r1 IH1 r2 IH2 | r IH |]; intros s caps k a H;
    simpl in H.
  - exists EmptyString, s, caps. repeat split; [constructor | exact H].
  - destruct s as [|c' t]; [discriminate|].
    destruct (strings.byte_eqb c' c) eqn:E; [|discriminate].
    apply byte_eqb_eq in E as ->.
    exists (String c EmptyString), t, caps. repeat split; [constructor | exact H].
  - destruct s as [|c' t]; [discriminate|].
    destruct (p c') eqn:E; [|discriminate].
    exists (String c' EmptyString), t, caps.
    repeat split; [now constructor | exact H].
  - apply star_k_sound in H as (s1 & s2 & -> & H1 & H2).
    exists s1, s2, caps. repeat split; [now constructor | exact H2].
  - apply IH1 in H as (s1 & s2 & caps1 & -> & M1 & H).
    apply IH2 in H as (s1' & s2' & caps2 & -> & M2 & H).
    exists (s1 +:+ s1'), s2', caps2. rewrite append_assoc.
    repeat split; [econstructor; eassumption | exact H].
  - apply IH in H as (s1 & s2 & caps1 & -> & M & H).
    rewrite slice_to_app in H.
    exists s1, s2, (caps1 ++ [s1]). repeat split; [now constructor | exact H].
  - destruct s; [|discriminate].
    exists EmptyString, EmptyString, caps. repeat split; [constructor | exact H].
Qed.

End MatcherFacts.

(** A match found by [match_here] or [search] is a match of the pattern
    somewhere in the text. *)
Lemma match_here_sound (r : regexp.regex) (s rest : string) (m : list string) :
  regexp.match_here r s = Some (rest, m) ->
  exists whole caps,
    s = whole +:+ rest /\ m = whole :: caps /\ matches r whole rest [] caps.
Proof.
  unfold regexp.match_here. intros H.
  apply match_k_sound in H as (s1 & s2 & caps & -> & M & H).
  rewrite slice_to_app in H. injection H as <- <-.
  now exists s1, caps.
Qed.

Lemma search_sound (r : regexp.regex) (s rest : string) (m : list string) :
  regexp.search r s = Some (rest, m) ->
  exists before whole caps,
    s = before +:+ whole +:+ rest /\ m = whole :: caps
    /\ matches r whole rest [] caps.
Proof.
  induction s as [|c t IH]; simpl; intros H.
  - destruct (regexp.match_here r EmptyString) as [[rest' m']|] eqn:E;
      [|discriminate].
    injection H as -> ->. apply match_here_sound in E as (w & caps & E & -> & M).
    now exists EmptyString, w, caps.
  - destruct (regexp.match_here r (String c t)) as [[rest' m']|] eqn:E.
    + injection H as -> ->. apply match_here_sound in E as (w & caps & E & -> & M).
      now exists EmptyString, w, caps.
    + apply IH in H as (before & w & caps & -> & -> & M).
      now exists (String c before), w, caps.
Qed.

(** * The PR markers of a section *)

Section Markers.

(** A match of [\[\\#(\d+)\]] is a marker, and its group the digits. *)
Lemma pr_ref_matches (whole rest : string) (caps : list string) :
  matches (regexp.body checker.pr_ref_re) whole rest [] caps ->
  exists digits,
    whole = "[\#" +:+ digits +:+ "]" /\ caps = [digits] /\ is_number digits.
Proof.
  intros H. cbv [checker.pr_ref_re regexp.body regexp.Seq regexp.Lits regexp.Plus] in H.
  invert_matches. simpl.
  match goal with
  | Hc : regexp.digit ?c = true, Hs : strconv.all_bytes regexp.digit ?s = true |- _ =>
      exists (String c s); repeat split;
        [ discriminate
        | simpl; unfold regexp.digit in Hc, Hs; now rewrite Hc, Hs ]
  end.
Qed.

(** Every element of [find_all_from] is a match in the text. *)
Lemma find_all_from_sound (r : regexp.regex) (s : string) :
  forall (skip : nat) (m : list string),
  m ∈ regexp.find_all_from r s skip ->
  exists before whole rest caps,
    s = before +:+ whole +:+ rest /\ m = whole :: caps
    /\ matches r whole rest [] caps.
Proof.
  induction s as [|c t IH]; intros skip m Hm; simpl in Hm.
  - now apply elem_of_nil in Hm.
  - assert (Htail : forall k, m ∈ regexp.find_all_from r t k ->
              exists before whole rest caps,
                String c t = before +:+ whole +:+ rest /\ m = whole :: caps
                /\ matches r whole rest [] caps).
    { intros k Hk. apply IH in Hk as (b & w & rest & caps & -> & -> & M).
      now exists (String c b), w, rest, caps. }
    destruct skip as [|n]; [|now apply (Htail n)].
    destruct (regexp.match_here r (String c t)) as [[rest mm]|] eqn:E.
    + apply elem_of_cons in Hm as [-> | Hm]; [|eapply Htail; eassumption].
      apply match_here_sound in E as (w & caps & E & -> & M).
      exists EmptyString, w, rest, caps. auto.
    + now apply (Htail O).
Qed.

Lemma is_digit_not_sign (c : ascii) :
  strconv.is_digit c = true -> c <> "-"%char /\ c <> "+"%char.
Proof.
  intros H. split; intros ->; vm_compute in H; discriminate.
Qed.

Lemma digit_val_range (c : ascii) :
  strconv.is_digit c = true -> 0 <= strconv.digit_val c <= 9.
Proof.
  unfold strconv.is_digit, strconv.digit_val. intros H.
  apply andb_true_iff in H as [H1 H2].
  apply N.leb_le in H1, H2. lia.
Qed.

Lemma digits_val_nonneg (s : string) :
  forall acc, 0 <= acc -> strconv.all_bytes strconv.is_digit s = true ->
  0 <= strconv.digits_val acc s.
Proof.
  induction s as [|c s IH]; simpl; intros acc Hacc H; [exact Hacc|].
  apply andb_true_iff in H as [Hc H].
  apply IH; [|exact H]. pose proof (digit_val_range c Hc). lia.
Qed.

(** [Atoi] on a string of digits: its value, when it fits [int]. *)
Lemma Atoi_digits (digits : string) (n : Z) :
  is_number digits -> strconv.Atoi digits = Some n ->
  n = strconv.digits_val 0 digits /\ 0 <= n <= strconv.MaxInt.
Proof.
  intros [Hne Hd] H. destruct digits as [|c s]; [contradiction|].
  assert (Hc : strconv.is_digit c = true).
  { simpl in Hd. now apply andb_true_iff in Hd as [Hc _]. }
  destruct (is_digit_not_sign c Hc) as [Hm Hp].
  assert (E : strconv.Atoi (String c s)
              = match strconv.parse_unsigned (String c s) with
                | Some n =>
                    if (strconv.MinInt <=? n) && (n <=? strconv.MaxInt)
                    then Some n else None
                | None => None
                end).
  { unfold strconv.Atoi.
    destruct c as [[] [] [] [] [] [] [] []]; try reflexivity; congruence. }
  rewrite E in H. unfold strconv.parse_unsigned in H. rewrite Hd in H.
  destruct ((strconv.MinInt <=? _) && (_ <=? strconv.MaxInt)) eqn:R;
    [|discriminate].
  injection H as <-. apply andb_true_iff in R as [_ R]. apply Z.leb_le in R.
  split; [reflexivity|]. split; [|exact R].
  exact (digits_val_nonneg (String c s) 0 (Z.le_refl 0) Hd).
Qed.

(** The number of a marker is the value of digits that stand between
    [[\#] and []] in the section, and it is not negative. *)
Lemma marker_numbers_sound (section : string) (n : Z) :
  n ∈ marker_numbers section ->
  exists before digits after,
    section = before +:+ "[\#" +:+ digits +:+ "]" +:+ after
    /\ is_number digits /\ n = strconv.digits_val 0 digits
    /\ 0 <= n <= strconv.MaxInt.
Proof.
  unfold marker_numbers. intros H.
  apply list_elem_of_omap in H as (m & Hm & Hn).
  apply find_all_from_sound in Hm as (b & w & rest & caps & -> & -> & M).
  apply pr_ref_matches in M as (digits & -> & -> & Hd).
  simpl in Hn. destruct (Atoi_digits digits n Hd Hn) as [-> R].
  exists b, digits, rest.
  split; [|split; [exact Hd | split; [reflexivity | exact R]]].
  f_equal. simpl. now rewrite append_assoc.
Qed.

Lemma fold_add_match (ms : list (list string)) :
  forall acc,
  fold_left checker.add_match ms acc
  = fold_left add_number (omap marker_number ms) acc.
Proof.
  induction ms as [|m ms IH]; intros acc; simpl; [reflexivity|].
  rewrite IH. unfold checker.add_match, marker_number.
  destruct m as [|w [|digits rest]]; simpl; try reflexivity.
  destruct (strconv.Atoi digits); reflexivity.
Qed.

Lemma ExtractPRNumbers_fold (section : string) :
  checker.ExtractPRNumbers section
  = fold_left add_number (marker_numbers section) [].
Proof. unfold checker.ExtractPRNumbers. apply fold_add_match. Qed.

Lemma seen_spec (prNumbers : list Z) (number : Z) :
  existsb (fun pr => pr =? number) prNumbers = true <-> number ∈ prNumbers.
Proof.
  rewrite existsb_exists. split.
  - intros (x & Hx & E). apply Z.eqb_eq in E as ->. now apply list_elem_of_In.
  - intros H. exists number. split; [now apply list_elem_of_In | apply Z.eqb_refl].
Qed.

Lemma fold_add_number_first_seen (nums : list Z) :
  first_seen_order nums (fold_left add_number nums []).
Proof.
  induction nums as [|n nums IH] using rev_ind.
  - simpl. repeat split; try constructor; try (intros H; now apply elem_of_nil in H).
    intros i x H. now rewrite lookup_nil in H.
  - rewrite fold_left_app. simpl.
    set (res := fold_left add_number nums []) in *.
    destruct IH as (Hnd & Hmem & Hord).
    unfold add_number. destruct (existsb _ res) eqn:E.
    + apply seen_spec in E. repeat split; [exact Hnd | | |].
      * intros Hx. apply elem_of_app. left. now apply Hmem.
      * intros Hx. apply elem_of_app in Hx as [Hx | Hx]; [now apply Hmem|].
        apply list_elem_of_singleton in Hx as ->. exact E.
      * intros i x Hi. destruct (Hord i x Hi) as (e & l & -> & Hne & Hy).
        exists e, (l ++ [n]). repeat split; try assumption; try apply Hy.
        now rewrite <- app_assoc.
    + assert (Hn : n ∉ res).
      { intros Hn. apply seen_spec in Hn. congruence. }
      repeat split.
      * apply NoDup_app. repeat split; [exact Hnd | | apply NoDup_singleton].
        intros x Hx Hx'. apply list_elem_of_singleton in Hx' as ->. now apply Hn.
      * intros Hx. apply elem_of_app in Hx as [Hx | Hx]; apply elem_of_app;
          [left; now apply Hmem | now right].
      * intros Hx. apply elem_of_app in Hx as [Hx | Hx]; apply elem_of_app;
          [left; now apply Hmem | now right].
      * intros i x Hi. destruct (decide (i < length res)%nat) as [Hlt | Hge].
        -- rewrite lookup_app_l in Hi by exact Hlt.
           destruct (Hord i x Hi) as (e & l & -> & Hne & Hy).
           exists e, (l ++ [n]). repeat split; try assumption.
           ++ now rewrite <- app_assoc.
           ++ intros H. rewrite take_app_le by lia. now apply Hy.
           ++ intros H. rewrite take_app_le in H by lia. now apply Hy.
        -- rewrite lookup_app_r in Hi by lia.
           destruct (i - length res)%nat as [|j] eqn:Ei;
             [|simpl in Hi; now rewrite lookup_nil in Hi].
           simpl in Hi. injection Hi as <-.
           assert (i = length res) as -> by lia.
           exists nums, []. repeat split.
           ++ intros H. apply Hn. now apply Hmem.
           ++ intros H. rewrite take_app_length. now apply Hmem.
           ++ intros H. rewrite take_app_length in H. now apply Hmem.
Qed.

Lemma ExtractPRNumbers_spec (section : string) :
  first_seen_order (marker_numbers section) (checker.ExtractPRNumbers section).
Proof.
  rewrite ExtractPRNumbers_fold. apply fold_add_number_first_seen.
Qed.

End Markers.

(** * The description of a PR on a changelog line *)

Section Description.

Lemma string_of_uint_digits (d : Decimal.uint) :
  strconv.all_bytes strconv.is_digit (NilEmpty.string_of_uint d) = true.
Proof. induction d; simpl; try rewrite IHd; reflexivity. Qed.

(** [%d] of a number that is not negative is a string of digits. *)
Lemma Itoa_is_number (n : Z) : 0 <= n -> is_number (strconv.Itoa n).
Proof.
  intros Hn. unfold strconv.Itoa. destruct n as [|p|p]; [| |lia].
  - split; [discriminate | reflexivity].
  - simpl. pose proof (DecimalPos.Unsigned.to_uint_nonnil p) as Hnil.
    unfold NilZero.string_of_uint.
    destruct (Pos.to_uint p) eqn:E; try contradiction;
      (split; [discriminate | rewrite <- E; apply string_of_uint_digits]).
Qed.

Context {A : Type}.
Implicit Types (k : string -> list string -> option A) (a : A).

Lemma match_Seq_cons r rs s caps k :
  regexp.match_k (regexp.Seq (r :: rs)) s caps k
  = regexp.match_k r s caps
      (fun s' caps' => regexp.match_k (regexp.Seq rs) s' caps' k).
Proof. reflexivity. Qed.

Lemma match_Seq_nil s caps k :
  regexp.match_k (regexp.Seq []) s caps k = k s caps.
Proof. reflexivity. Qed.

Lemma match_Lits (x s : string) caps k :
  regexp.match_k (regexp.Lits x) (x +:+ s) caps k = k s caps.
Proof.
  revert k. induction x as [|c x IH]; intros k; simpl; [reflexivity|].
  now rewrite byte_eqb_refl, IH.
Qed.

Lemma match_Star_greedy (p : ascii -> bool) (s1 s2 : string) caps k a :
  strconv.all_bytes p s1 = true -> stops p s2 -> k s2 caps = Some a ->
  regexp.match_k (regexp.Star p) (s1 +:+ s2) caps k = Some a.
Proof. intros H1 H2 Hk. simpl. now apply star_k_greedy. Qed.

Lemma match_Plus_greedy (p : ascii -> bool) (s s1 s2 : string) caps k a :
  s = s1 +:+ s2 ->
  strconv.all_bytes p s1 = true -> s1 <> EmptyString -> stops p s2 ->
  k s2 caps = Some a ->
  regexp.match_k (regexp.Plus p) s caps k = Some a.
Proof.
  intros -> H1 Hne H2 Hk. destruct s1 as [|c s1]; [contradiction|].
  simpl in H1 |- *. apply andb_true_iff in H1 as [Hc H1]. rewrite Hc.
  now apply star_k_greedy.
Qed.

(** The end of the three patterns, [(.+)$]. *)
Lemma match_last_group (p : ascii -> bool) (s : string) caps k a :
  strconv.all_bytes p s = true -> s <> EmptyString ->
  k EmptyString (caps ++ [s]) = Some a ->
  regexp.match_k (regexp.Seq [regexp.Group (regexp.Plus p); regexp.EndText])
    s caps k = Some a.
Proof.
  intros H1 Hne Hk. rewrite match_Seq_cons.
  change (regexp.match_k (regexp.Group (regexp.Plus p)) s caps ?K)
    with (regexp.match_k (regexp.Plus p) s caps
            (fun s' caps' =>
               K s' (caps' ++ [strings.slice_to
                                 (String.length s - String.length s') s]))).
  apply (match_Plus_greedy p s s EmptyString);
    [now rewrite append_nil_r | exact H1 | exact Hne | exact I |].
  simpl. now rewrite Nat.sub_0_r, slice_to_length.
Qed.

(** The shared part of the patterns matches a link, a blank and a text,
    and its group is the text. *)
Lemma link_then_text_complete (digits url desc : string) caps k a :
  is_number digits -> is_url url -> is_text desc ->
  k EmptyString (caps ++ [desc]) = Some a ->
  regexp.match_k (regexp.Seq checker.link_then_text)
    ("[\#" +:+ digits +:+ "](" +:+ url +:+ ") " +:+ desc) caps k = Some a.
Proof.
  intros [Hd1 Hd2] [Hu1 Hu2] [Ht1 Ht2] Hk. unfold checker.link_then_text.
  rewrite match_Seq_cons, match_Lits, match_Seq_cons.
  apply (match_Plus_greedy regexp.digit _ digits ("](" +:+ url +:+ ") " +:+ desc));
    [reflexivity | exact Hd2 | exact Hd1 | reflexivity |].
  rewrite match_Seq_cons, match_Lits, match_Seq_cons.
  apply (match_Plus_greedy regexp.not_rparen _ url (") " +:+ desc));
    [reflexivity | exact Hu2 | exact Hu1 | reflexivity |].
  rewrite match_Seq_cons, match_Lits.
  now apply match_last_group.
Qed.

End Description.

Section DescriptionForms.

(** A line flattened to the shape the patterns read. *)
Lemma link_flat (digits url rest : string) :
  link digits url +:+ " " +:+ rest
  = "[\#" +:+ digits +:+ "](" +:+ url +:+ ") " +:+ rest.
Proof.
  unfold link. simpl. rewrite !append_assoc. simpl. rewrite !append_assoc.
  reflexivity.
Qed.

Lemma line_has_marker (before digits url rest : string) :
  strings.Contains (before +:+ link digits url +:+ rest)
    ("[\#" +:+ digits +:+ "]") = true.
Proof.
  apply Contains_spec. exists before, ("(" +:+ url +:+ ")" +:+ rest).
  unfold link. f_equal. simpl. rewrite !append_assoc. simpl.
  now rewrite !append_assoc.
Qed.

Lemma here_result (s desc : string) :
  (fun s' caps =>
     Some (s', strings.slice_to (String.length s - String.length s') s :: caps))
    EmptyString ([] ++ [desc])
  = Some (EmptyString, [s; desc]).
Proof.
  cbv beta. change (String.length EmptyString) with 0%nat.
  now rewrite Nat.sub_0_r, slice_to_length.
Qed.

Lemma match_here_link (digits url desc : string) :
  is_number digits -> is_url url -> is_text desc ->
  regexp.match_here (regexp.Seq checker.link_then_text)
    (link digits url +:+ " " +:+ desc)
  = Some (EmptyString, [link digits url +:+ " " +:+ desc; desc]).
Proof.
  intros Hd Hu Ht. unfold regexp.match_here. rewrite link_flat.
  apply link_then_text_complete; try assumption.
  apply here_result.
Qed.

(** Form 1: [* (<component>) [\#N](<url>) <desc>]. *)
Lemma component_form_complete (comp digits url desc : string) :
  strconv.all_bytes regexp.not_rparen comp = true ->
  is_number digits -> is_url url -> is_text desc ->
  checker.first_group checker.component_form_re
    ("* (" +:+ comp +:+ ") " +:+ link digits url +:+ " " +:+ desc)
  = Some desc.
Proof.
  intros Hc Hd Hu Ht.
  unfold checker.first_group, regexp.FindStringSubmatch,
    checker.component_form_re. cbn [regexp.anchored regexp.body app].
  set (line := "* (" +:+ comp +:+ ") " +:+ link digits url +:+ " " +:+ desc).
  assert (E : regexp.match_here
                (regexp.Seq
                   (regexp.Lits "* (" :: regexp.Star regexp.not_rparen
                    :: regexp.Lits ") " :: checker.link_then_text)) line
              = Some (EmptyString, [line; desc])).
  { unfold regexp.match_here. subst line.
    rewrite match_Seq_cons, match_Lits, match_Seq_cons.
    apply (match_Star_greedy regexp.not_rparen comp); [exact Hc | reflexivity |].
    rewrite match_Seq_cons, match_Lits, link_flat.
    apply link_then_text_complete; try assumption.
    apply here_result. }
  now rewrite E.
Qed.

(** Form 2: [* [\#N](<url>) <desc>]; form 1 does not match it. *)
Lemma plain_form_complete (digits url desc : string) :
  is_number digits -> is_url url -> is_text desc ->
  checker.first_group checker.component_form_re
    ("* " +:+ link digits url +:+ " " +:+ desc) = None
  /\ checker.first_group checker.plain_form_re
       ("* " +:+ link digits url +:+ " " +:+ desc) = Some desc.
Proof.
  intros Hd Hu Ht. split; [reflexivity|].
  unfold checker.first_group, regexp.FindStringSubmatch, checker.plain_form_re.
  cbn [regexp.anchored regexp.body].
  set (line := "* " +:+ link digits url +:+ " " +:+ desc).
  assert (E : regexp.match_here
                (regexp.Seq (regexp.Lits "* " :: checker.link_then_text)) line
              = Some (EmptyString, [line; desc])).
  { unfold regexp.match_here. subst line.
    rewrite match_Seq_cons, match_Lits, link_flat.
    apply link_then_text_complete; try assumption.
    apply here_result. }
  now rewrite E.
Qed.

(** What a match of the shared part is. *)
Lemma link_then_text_sound (whole rest : string) (caps0 caps : list string) :
  matches (regexp.Seq checker.link_then_text) whole rest caps0 caps ->
  exists digits url desc,
    whole = link digits url +:+ " " +:+ desc /\ rest = EmptyString
    /\ caps = caps0 ++ [desc]
    /\ is_number digits /\ is_url url /\ is_text desc.
Proof.
  intros H.
  cbv [checker.link_then_text regexp.Seq regexp.Lits regexp.Plus] in H.
  invert_matches.
  repeat match goal with
  | Hc : ?p ?c = true, Hs : strconv.all_bytes ?p ?s = true |- _ =>
      assert (strconv.all_bytes p (String c s) = true)
        by (simpl; now rewrite Hc, Hs);
      clear Hc Hs
  end.
  match goal with
  | H1 : strconv.all_bytes regexp.digit ?d = true,
    H2 : strconv.all_bytes regexp.not_rparen ?u = true,
    H3 : strconv.all_bytes regexp.dot ?t = true |- _ =>
      exists d, u, t
  end.
  rewrite link_flat. simpl. rewrite !append_nil_r.
  repeat split; try assumption; try discriminate.
  match goal with
  | E : EmptyString = EmptyString +:+ ?r |- ?r = EmptyString => now simpl in E
  end.
Qed.

Lemma matches_Seq_cons r rs whole rest caps0 caps2 :
  matches (regexp.Seq (r :: rs)) whole rest caps0 caps2 ->
  exists s1 s2 caps1,
    whole = s1 +:+ s2 /\ matches r s1 (s2 +:+ rest) caps0 caps1
    /\ matches (regexp.Seq rs) s2 rest caps1 caps2.
Proof.
  change (regexp.Seq (r :: rs)) with (regexp.Cat r (regexp.Seq rs)).
  intros H. inversion H; subst. eauto 10.
Qed.

Lemma matches_Lits (x : string) :
  forall s rest caps0 caps1,
  matches (regexp.Lits x) s rest caps0 caps1 -> s = x /\ caps1 = caps0.
Proof.
  induction x as [|c x IH]; intros s rest caps0 caps1 H; simpl in H.
  - inversion H; subst. auto.
  - inversion H as [| | | | r1 r2 s1 s2 rest' c0 c1 c2 H1 H2 | |]; subst.
    inversion H1; subst. apply IH in H2 as [-> ->]. auto.
Qed.

(** Every description the three patterns extract is the text after a
    link and a blank, at the end of the line. *)
Lemma first_group_sound (re : regexp.Regexp) (line g : string) :
  re = checker.component_form_re \/ re = checker.plain_form_re
  \/ re = checker.general_form_re ->
  checker.first_group re line = Some g ->
  exists before digits url,
    line = before +:+ link digits url +:+ " " +:+ g
    /\ is_number digits /\ is_url url /\ is_text g.
Proof.
  intros Hre H. unfold checker.first_group, regexp.FindStringSubmatch in H.
  assert (Hm : exists before whole rest caps,
             line = before +:+ whole +:+ rest
             /\ matches (regexp.body re) whole rest [] (g :: caps)).
  { destruct (regexp.anchored re).
    - destruct (regexp.match_here (regexp.body re) line) as [[rest m]|] eqn:E;
        [|discriminate].
      apply match_here_sound in E as (w & caps & -> & -> & M). simpl in H.
      destruct caps as [|g' caps]; [discriminate|]. injection H as ->.
      now exists EmptyString, w, rest, caps.
    - destruct (regexp.search (regexp.body re) line) as [[rest m]|] eqn:E;
        [|discriminate].
      apply search_sound in E as (b & w & caps & -> & -> & M). simpl in H.
      destruct caps as [|g' caps]; [discriminate|]. injection H as ->.
      now exists b, w, rest, caps. }
  clear H. destruct Hm as (before & whole & rest & caps & -> & M).
  destruct Hre as [-> | [-> | ->]];
    cbv [checker.component_form_re checker.plain_form_re
         checker.general_form_re regexp.body app] in M.
  - apply matches_Seq_cons in M as (s1 & s2 & c1 & -> & M1 & M).
    apply matches_Lits in M1 as [-> ->].
    apply matches_Seq_cons in M as (comp & s3 & c2 & -> & M2 & M).
    inversion M2; subst.
    apply matches_Seq_cons in M as (s4 & s5 & c3 & -> & M3 & M).
    apply matches_Lits in M3 as [-> ->].
    apply link_then_text_sound in M
      as (digits & url & desc & -> & -> & Hcaps & Hd & Hu & Ht).
    simpl in Hcaps. injection Hcaps as <- ->.
    exists (before +:+ "* (" +:+ comp +:+ ") "), digits, url.
    split; [|auto]. rewrite !append_assoc, append_nil_r. reflexivity.
  - apply matches_Seq_cons in M as (s1 & s2 & c1 & -> & M1 & M).
    apply matches_Lits in M1 as [-> ->].
    apply link_then_text_sound in M
      as (digits & url & desc & -> & -> & Hcaps & Hd & Hu & Ht).
    simpl in Hcaps. injection Hcaps as <- ->.
    exists (before +:+ "* "), digits, url.
    split; [|auto]. rewrite !append_assoc, append_nil_r. reflexivity.
  - apply link_then_text_sound in M
      as (digits & url & desc & -> & -> & Hcaps & Hd & Hu & Ht).
    simpl in Hcaps. injection Hcaps as <- ->.
    exists before, digits, url. split; [|auto].
    now rewrite !append_assoc, append_nil_r.
Qed.

End DescriptionForms.

(** * The markers in the order of the text *)

Section MarkerOrder.

Lemma find_all_skip (r : regexp.regex) (a b : string) :
  regexp.find_all_from r (a +:+ b) (String.length a)
  = regexp.find_all_from r b O.
Proof. induction a as [|c a IH]; simpl; [reflexivity | exact IH]. Qed.

Lemma match_here_marker (digits after : string) :
  is_number digits ->
  regexp.match_here (regexp.body checker.pr_ref_re) (marker digits +:+ after)
  = Some (after, [marker digits; digits]).
Proof.
  intros [Hne Hd]. unfold regexp.match_here, checker.pr_ref_re, marker.
  cbn [regexp.body].
  set (line := ("[\#" +:+ digits +:+ "]") +:+ after).
  assert (El : line = "[\#" +:+ digits +:+ "]" +:+ after).
  { subst line. simpl. now rewrite append_assoc. }
  rewrite El at 1.
  rewrite match_Seq_cons, match_Lits, match_Seq_cons.
  change (regexp.match_k (regexp.Group (regexp.Plus regexp.digit)) ?s ?caps ?K)
    with (regexp.match_k (regexp.Plus regexp.digit) s caps
            (fun s' caps' =>
               K s' (caps' ++ [strings.slice_to
                                 (String.length s - String.length s') s]))).
  apply (match_Plus_greedy regexp.digit _ digits ("]" +:+ after));
    [reflexivity | exact Hd | exact Hne | reflexivity |].
  rewrite slice_to_app, match_Seq_cons.
  change ("]" +:+ after) with (String "]" after).
  cbn [regexp.match_k]. rewrite byte_eqb_refl, match_Seq_nil.
  subst line. now rewrite slice_to_app.
Qed.

Lemma find_all_marker (digits after : string) :
  is_number digits ->
  regexp.find_all_from (regexp.body checker.pr_ref_re)
    (marker digits +:+ after) O
  = [marker digits; digits]
    :: regexp.find_all_from (regexp.body checker.pr_ref_re) after O.
Proof.
  intros Hd. pose proof (match_here_marker digits after Hd) as E.
  set (a := "\#" +:+ digits +:+ "]").
  change (marker digits +:+ after)
    with (String "[" (a +:+ after)) in E |- *.
  clearbody a. cbn [regexp.find_all_from]. rewrite E. f_equal.
  replace (String.length (String "[" (a +:+ after)) - String.length after - 1)%nat
    with (String.length a) by (simpl; rewrite length_append; lia).
  apply find_all_skip.
Qed.

(** A marker [[\#<digits>]] occurs in [s]. *)
Lemma without_app_cons (x : ascii) (a b : string) :
  ~ without x (a +:+ String x b).
Proof.
  unfold without. induction a as [|c a IH]; simpl.
  - now rewrite byte_eqb_refl.
  - intros H. apply andb_true_iff in H as [_ H]. now apply IH.
Qed.

Lemma append_eq_append (a b x y : string) :
  a +:+ b = x +:+ y ->
  (exists z, a = x +:+ z /\ y = z +:+ b)
  \/ (exists z, x = a +:+ z /\ b = z +:+ y).
Proof.
  revert x. induction a as [|c a IH]; intros x H; simpl in H.
  - right. now exists x.
  - destruct x as [|d x]; simpl in H.
    + left. exists (String c a). now subst y.
    + injection H as -> H. destruct (IH x H) as [(z & -> & ->) | (z & -> & ->)].
      * left. now exists z.
      * right. now exists z.
Qed.

Lemma all_bytes_impl (p q : ascii -> bool) (s : string) :
  (forall c, p c = true -> q c = true) ->
  strconv.all_bytes p s = true -> strconv.all_bytes q s = true.
Proof.
  intros Hpq. induction s as [|c s IH]; simpl; [reflexivity|].
  intros H. apply andb_true_iff in H as [Hc H].
  now rewrite (Hpq c Hc), (IH H).
Qed.

(** After its first byte a marker has no [[]. *)
Lemma marker_tail_without (digits : string) :
  is_number digits -> without "["%char ("\#" +:+ digits +:+ "]").
Proof.
  intros [_ Hd]. unfold without.
  change ("\#" +:+ digits +:+ "]") with (String "\" (String "#" (digits +:+ "]"))).
  cbn [strconv.all_bytes]. rewrite all_bytes_app.
  rewrite (all_bytes_impl strconv.is_digit _ digits); [reflexivity | | exact Hd].
  intros c Hc. apply negb_true_iff. destruct (strings.byte_eqb c "[") eqn:E;
    [|reflexivity].
  apply byte_eqb_eq in E as ->. vm_compute in Hc. discriminate.
Qed.

(** No match begins in a text without a marker, even when a marker
    follows the text. *)
Lemma match_here_no_marker (c : ascii) (before digits after : string) :
  ~ marker_occurs (String c before) ->
  regexp.match_here (regexp.body checker.pr_ref_re)
    (String c before +:+ marker digits +:+ after) = None.
Proof.
  intros Hno.
  destruct (regexp.match_here _ _) as [[rest m]|] eqn:E; [exfalso|reflexivity].
  apply match_here_sound in E as (w & caps & Hs & -> & M).
  apply pr_ref_matches in M as (ds & -> & -> & Hd).
  apply append_eq_append in Hs as [(z & Ha & _) | (z & Hx & Hb)].
  - apply Hno. exists EmptyString, ds, z. split; [exact Ha | exact Hd].
  - destruct z as [|d z].
    + apply Hno. exists EmptyString, ds, EmptyString.
      split; [|exact Hd]. rewrite append_nil_r in Hx.
      rewrite <- Hx. unfold marker. simpl. now rewrite append_nil_r.
    + unfold marker in Hb. simpl in Hb. injection Hb as <- _.
      simpl in Hx. injection Hx as <- Hx.
      apply (without_app_cons "["%char before z).
      rewrite <- Hx. now apply marker_tail_without.
Qed.

Lemma marker_occurs_cons (c : ascii) (s : string) :
  marker_occurs s -> marker_occurs (String c s).
Proof.
  intros (a & ds & b & -> & Hd). now exists (String c a), ds, b.
Qed.

(** The first match is the first marker of the text. *)
Lemma find_all_first (before digits after : string) :
  ~ marker_occurs before -> is_number digits ->
  regexp.find_all_from (regexp.body checker.pr_ref_re)
    (before +:+ marker digits +:+ after) O
  = [marker digits; digits]
    :: regexp.find_all_from (regexp.body checker.pr_ref_re) after O.
Proof.
  intros Hno Hd. induction before as [|c before IH].
  - now apply find_all_marker.
  - change (String c before +:+ marker digits +:+ after)
      with (String c (before +:+ marker digits +:+ after)).
    cbn [regexp.find_all_from].
    change (String c (before +:+ marker digits +:+ after))
      with (String c before +:+ marker digits +:+ after).
    rewrite (match_here_no_marker c before digits after Hno).
    apply IH. intros H. apply Hno. now apply marker_occurs_cons.
Qed.

Lemma find_all_none (s : string) :
  ~ marker_occurs s ->
  regexp.find_all_from (regexp.body checker.pr_ref_re) s O = [].
Proof.
  intros Hno.
  destruct (regexp.find_all_from _ s O) as [|m l] eqn:E; [reflexivity|].
  exfalso. apply Hno.
  destruct (find_all_from_sound (regexp.body checker.pr_ref_re) s O m) as (b & w & rest & caps & -> & -> & M).
  { rewrite E. apply list_elem_of_here. }
  apply pr_ref_matches in M as (ds & -> & -> & Hd).
  now exists b, ds, rest.
Qed.

(** The numbers of the markers are read off the text from left to
    right. *)
Lemma marker_numbers_text :
  (forall s, ~ marker_occurs s -> marker_numbers s = [])
  /\ (forall before digits after,
        ~ marker_occurs before -> is_number digits ->
        marker_numbers (before +:+ marker digits +:+ after)
        = match strconv.Atoi digits with
          | Some n => n :: marker_numbers after
          | None => marker_numbers after
          end).
Proof.
  unfold marker_numbers, regexp.FindAllStringSubmatch. split.
  - intros s Hno. now rewrite (find_all_none s Hno).
  - intros before digits after Hno Hd.
    now rewrite (find_all_first before digits after Hno Hd).
Qed.

End MarkerOrder.

(** C4: [ExtractPRNumbers] returns no value twice, and the values in the
    order in which the markers [[\#<digits>]] of the section first show
    them: the result has the values of the markers; the value at index
    [i] of the result first occurs, among the numbers of the markers,
    right after occurrences of exactly the values at the indices below
    [i]; and the numbers of the markers are those of the text from left
    to right (none for a text without a marker, and after the first
    marker of a text those of the text after it). *)
Theorem ExtractPRNumbers_first_seen :
  (forall changelogSection : string,
     let res := checker.ExtractPRNumbers changelogSection in
     let nums := marker_numbers changelogSection in
     NoDup res
     /\ (forall x, x ∈ res <-> x ∈ nums)
     /\ (forall (i : nat) (x : Z), res !! i = Some x ->
           exists earlier later,
             nums = earlier ++ x :: later /\ (x ∉ earlier)
             /\ (forall y, y ∈ earlier <-> y ∈ take i res)))
  /\ (forall s, ~ marker_occurs s -> marker_numbers s = [])
  /\ (forall before digits after,
        ~ marker_occurs before -> is_number digits ->
        marker_numbers (before +:+ marker digits +:+ after)
        = match strconv.Atoi digits with
          | Some n => n :: marker_numbers after
          | None => marker_numbers after
          end).
Proof.
  split; [|exact marker_numbers_text].
  intros changelogSection. apply ExtractPRNumbers_spec.
Qed.

Lemma ExtractPRNumbers_example :
  checker.ExtractPRNumbers "* [\#12](u) x [\#7] [\#12]" !! 1%nat = Some 7
  /\ exists earlier later,
       marker_numbers "* [\#12](u) x [\#7] [\#12]" = earlier ++ 7 :: later
       /\ (7 ∉ earlier)
       /\ (forall y,
             y ∈ earlier
             <-> y ∈ take 1 (checker.ExtractPRNumbers "* [\#12](u) x [\#7] [\#12]")).
Proof.
  split; [reflexivity|].
  apply (proj2 (proj2 (proj1 ExtractPRNumbers_first_seen
                         "* [\#12](u) x [\#7] [\#12]")) 1%nat 7).
  reflexivity.
Defined.

(** C9, as the claim states it, fails on a marker of zero: the section
    [* [\#0](u) x] yields the PR number 0, which is not positive. *)
Lemma ExtractPRNumbers_zero :
  ~ (forall x, x ∈ checker.ExtractPRNumbers "* [\#0](u) x" -> 0 < x).
Proof.
  intros H. specialize (H 0).
  assert (E : checker.ExtractPRNumbers "* [\#0](u) x" = [0]) by reflexivity.
  rewrite E in H. specialize (H (list_elem_of_here _ _)). lia.
Qed.

(** C9, amended: no value returned by [ExtractPRNumbers] is negative
    (each is the value of the digits of a marker, between 0 and the
    largest [int]). *)
Theorem ExtractPRNumbers_nonneg (changelogSection : string) :
  Forall (fun x => 0 <= x <= strconv.MaxInt)
    (checker.ExtractPRNumbers changelogSection).
Proof.
  apply Forall_forall. intros x Hx.
  apply (proj1 (proj2 (ExtractPRNumbers_spec changelogSection))) in Hx.
  apply marker_numbers_sound in Hx as (_ & _ & _ & _ & _ & _ & R). exact R.
Qed.

Section GeneralForm.

Lemma without_cons (x c : ascii) (s : string) :
  without x (String c s) -> strings.byte_eqb c x = false /\ without x s.
Proof.
  unfold without. simpl. intros H. apply andb_true_iff in H as [Hc H].
  apply negb_true_iff in Hc. auto.
Qed.

Lemma search_here (r : regexp.regex) (s : string) m :
  regexp.match_here r s = Some m -> regexp.search r s = Some m.
Proof. intros H. destruct s; simpl; now rewrite H. Qed.

(** The shared part only matches at a [[]. *)
Lemma link_here_fail (c : ascii) (t : string) :
  strings.byte_eqb c "["%char = false ->
  regexp.match_here (regexp.Seq checker.link_then_text) (String c t) = None.
Proof.
  intros H. unfold regexp.match_here, checker.link_then_text.
  rewrite match_Seq_cons. simpl. now rewrite H.
Qed.

(** The leftmost match of the general form is at the first [[]. *)
Lemma search_link (before digits url desc : string) :
  without "["%char before ->
  is_number digits -> is_url url -> is_text desc ->
  regexp.search (regexp.Seq checker.link_then_text)
    (before +:+ link digits url +:+ " " +:+ desc)
  = Some (EmptyString, [link digits url +:+ " " +:+ desc; desc]).
Proof.
  intros Hb Hd Hu Ht. induction before as [|c before IH].
  - apply search_here. now apply match_here_link.
  - apply without_cons in Hb as [Hc Hb]. simpl.
    rewrite (link_here_fail c _ Hc). now apply IH.
Qed.

(** Form 1 needs a [(] as the third byte of the line. *)
Lemma component_form_fail (before rest : string) :
  without "("%char before ->
  checker.first_group checker.component_form_re (before +:+ "[\#" +:+ rest)
  = None.
Proof.
  intros Hb. unfold checker.first_group, regexp.FindStringSubmatch,
    checker.component_form_re, regexp.match_here.
  cbn [regexp.anchored regexp.body app]. rewrite match_Seq_cons.
  destruct before as [|a [|b [|c before]]]; simpl.
  - reflexivity.
  - destruct (strings.byte_eqb a "*"); reflexivity.
  - destruct (strings.byte_eqb a "*"); [|reflexivity].
    destruct (strings.byte_eqb b " "); reflexivity.
  - apply without_cons in Hb as [_ Hb]. apply without_cons in Hb as [_ Hb].
    apply without_cons in Hb as [Hc _].
    destruct (strings.byte_eqb a "*"); [|reflexivity].
    destruct (strings.byte_eqb b " "); [|reflexivity].
    now rewrite Hc.
Qed.

(** Form 2 needs [* ] right before the first [[]. *)
Lemma plain_form_fail (before rest : string) :
  without "["%char before -> before <> "* " ->
  checker.first_group checker.plain_form_re (before +:+ "[\#" +:+ rest)
  = None.
Proof.
  intros Hb Hne. unfold checker.first_group, regexp.FindStringSubmatch,
    checker.plain_form_re, regexp.match_here.
  cbn [regexp.anchored regexp.body]. rewrite match_Seq_cons.
  destruct before as [|a [|b [|c before]]]; simpl.
  - reflexivity.
  - destruct (strings.byte_eqb a "*"); reflexivity.
  - destruct (strings.byte_eqb a "*") eqn:Ea; [|reflexivity].
    destruct (strings.byte_eqb b " ") eqn:Eb; [|reflexivity].
    apply byte_eqb_eq in Ea, Eb. subst. contradiction.
  - apply without_cons in Hb as [_ Hb]. apply without_cons in Hb as [_ Hb].
    apply without_cons in Hb as [Hc _].
    destruct (strings.byte_eqb a "*"); [|reflexivity].
    destruct (strings.byte_eqb b " "); [|reflexivity].
    now rewrite Hc.
Qed.

Lemma first_group_general (before digits url desc : string) :
  without "["%char before ->
  is_number digits -> is_url url -> is_text desc ->
  checker.first_group checker.general_form_re
    (before +:+ link digits url +:+ " " +:+ desc) = Some desc.
Proof.
  intros Hb Hd Hu Ht.
  unfold checker.first_group, regexp.FindStringSubmatch, checker.general_form_re.
  cbn [regexp.anchored regexp.body].
  now rewrite (search_link before digits url desc Hb Hd Hu Ht).
Qed.

End GeneralForm.

(** C3, as the claim states it, fails on a line with two links: asked
    for PR 2, the patterns, which match any digits, take the text after
    the link of PR 1. *)
Lemma description_of_second_link :
  checker.GetPRDescriptionFromLine "* [\#1](u) foo [\#2](v) bar" 2
  = "foo [\#2](v) bar"
  /\ checker.GetPRDescriptionFromLine "* [\#1](u) foo [\#2](v) bar" 2 <> "bar".
Proof. split; [reflexivity | discriminate]. Qed.

(** C3, amended: [GetPRDescriptionFromLine] returns the empty string
    when the line has not the marker of N, and when the line has no link
    construct at all. On a line that has the marker of N, of the form
    [* (<component>) [\#<digits>](<url>) <desc>], or on which no [[] and
    no [(] comes before the link [[\#<digits>](<url>) <desc>] (as on
    [* [\#<digits>](<url>) <desc>]), it returns [<desc>], the text after
    that first link, whichever PR the digits are; so it returns the text
    after N's own link when that link is the first of the line (N not
    negative). Whatever it returns is empty or the text after a link and
    a blank, of whichever PR. *)
Theorem GetPRDescriptionFromLine_spec :
  (forall (N : Z) (comp url desc : string),
     0 <= N -> strconv.all_bytes regexp.not_rparen comp = true ->
     is_url url -> is_text desc ->
     checker.GetPRDescriptionFromLine
       ("* (" +:+ comp +:+ ") " +:+ link (strconv.Itoa N) url +:+ " " +:+ desc) N
     = desc)
  /\ (forall (N : Z) (before url desc : string),
        0 <= N -> without "["%char before -> without "("%char before ->
        is_url url -> is_text desc ->
        checker.GetPRDescriptionFromLine
          (before +:+ link (strconv.Itoa N) url +:+ " " +:+ desc) N
        = desc)
  /\ (forall (line : string) (N : Z),
        checker.GetPRDescriptionFromLine line N <> EmptyString ->
        exists before digits url,
          line = before +:+ link digits url +:+ " "
                   +:+ checker.GetPRDescriptionFromLine line N
          /\ is_number digits /\ is_url url
          /\ is_text (checker.GetPRDescriptionFromLine line N))
  /\ (forall (line : string) (N : Z),
        ~ has_link line ->
        checker.GetPRDescriptionFromLine line N = EmptyString)
  /\ (forall (line : string) (N : Z),
        strings.Contains line (checker.pr_marker N) = false ->
        checker.GetPRDescriptionFromLine line N = EmptyString)
  /\ (forall (N : Z) (comp digits url desc : string),
        strconv.all_bytes regexp.not_rparen comp = true ->
        is_number digits -> is_url url -> is_text desc ->
        strings.Contains
          ("* (" +:+ comp +:+ ") " +:+ link digits url +:+ " " +:+ desc)
          (checker.pr_marker N) = true ->
        checker.GetPRDescriptionFromLine
          ("* (" +:+ comp +:+ ") " +:+ link digits url +:+ " " +:+ desc) N
        = desc)
  /\ (forall (N : Z) (before digits url desc : string),
        without "["%char before -> without "("%char before ->
        is_number digits -> is_url url -> is_text desc ->
        strings.Contains (before +:+ link digits url +:+ " " +:+ desc)
          (checker.pr_marker N) = true ->
        checker.GetPRDescriptionFromLine
          (before +:+ link digits url +:+ " " +:+ desc) N
        = desc).
Proof.
  assert (Hsound : forall (line : string) (N : Z),
            checker.GetPRDescriptionFromLine line N <> EmptyString ->
            exists before digits url,
              line = before +:+ link digits url +:+ " "
                       +:+ checker.GetPRDescriptionFromLine line N
              /\ is_number digits /\ is_url url
              /\ is_text (checker.GetPRDescriptionFromLine line N)).
  { intros line N. unfold checker.GetPRDescriptionFromLine.
    destruct (negb _); [congruence|].
    destruct (checker.first_group checker.component_form_re line) eqn:E1;
      [intros _; apply (first_group_sound _ _ _ (or_introl eq_refl) E1)|].
    destruct (checker.first_group checker.plain_form_re line) eqn:E2;
      [intros _;
       apply (first_group_sound _ _ _ (or_intror (or_introl eq_refl)) E2)|].
    destruct (checker.first_group checker.general_form_re line) eqn:E3;
      [intros _;
       apply (first_group_sound _ _ _ (or_intror (or_intror eq_refl)) E3)|].
    congruence. }
  assert (Hcomp : forall (N : Z) (comp digits url desc : string),
            strconv.all_bytes regexp.not_rparen comp = true ->
            is_number digits -> is_url url -> is_text desc ->
            strings.Contains
              ("* (" +:+ comp +:+ ") " +:+ link digits url +:+ " " +:+ desc)
              (checker.pr_marker N) = true ->
            checker.GetPRDescriptionFromLine
              ("* (" +:+ comp +:+ ") " +:+ link digits url +:+ " " +:+ desc) N
            = desc).
  { intros N comp digits url desc Hc Hd Hu Ht Hm.
    unfold checker.GetPRDescriptionFromLine. rewrite Hm. simpl negb. cbv iota.
    now rewrite (component_form_complete comp digits url desc Hc Hd Hu Ht). }
  assert (Hfirst : forall (N : Z) (before digits url desc : string),
            without "["%char before -> without "("%char before ->
            is_number digits -> is_url url -> is_text desc ->
            strings.Contains (before +:+ link digits url +:+ " " +:+ desc)
              (checker.pr_marker N) = true ->
            checker.GetPRDescriptionFromLine
              (before +:+ link digits url +:+ " " +:+ desc) N
            = desc).
  { intros N before digits url desc Hb1 Hb2 Hd Hu Ht Hm.
    unfold checker.GetPRDescriptionFromLine. rewrite Hm. simpl negb. cbv iota.
    destruct (string_dec before "* ") as [-> | Hne].
    + destruct (plain_form_complete digits url desc Hd Hu Ht) as [E1 E2].
      now rewrite E1, E2.
    + rewrite link_flat.
      rewrite (component_form_fail before _ Hb2), (plain_form_fail before _ Hb1 Hne).
      rewrite <- link_flat.
      now rewrite (first_group_general before digits url desc Hb1 Hd Hu Ht). }
  split; [|split; [|split; [exact Hsound|split; [|split; [|split;
    [exact Hcomp | exact Hfirst]]]]]].
  - intros N comp url desc HN Hc Hu Ht.
    pose proof (Itoa_is_number N HN) as Hd.
    apply Hcomp; try assumption. unfold checker.pr_marker.
    replace ("* (" +:+ comp +:+ ") " +:+ link (strconv.Itoa N) url +:+ " " +:+ desc)
      with (("* (" +:+ comp +:+ ") ") +:+ link (strconv.Itoa N) url +:+ " " +:+ desc)
      by (now rewrite !append_assoc).
    apply line_has_marker.
  - intros N before url desc HN Hb1 Hb2 Hu Ht.
    pose proof (Itoa_is_number N HN) as Hd.
    apply Hfirst; try assumption. unfold checker.pr_marker.
    apply line_has_marker.
  - intros line N Hno.
    destruct (string_dec (checker.GetPRDescriptionFromLine line N) EmptyString)
      as [E | E]; [exact E|].
    exfalso. apply Hno.
    destruct (Hsound line N E) as (before & digits & url & Hl & Hd & Hu & _).
    exists before, digits, url,
      (" " +:+ checker.GetPRDescriptionFromLine line N). auto.
  - intros line N Hm. unfold checker.GetPRDescriptionFromLine.
    now rewrite Hm.
Qed.

Lemma description_example :
  checker.GetPRDescriptionFromLine "* (client) [\#100](url) Fix bug" 100
  = "Fix bug"
  /\ checker.GetPRDescriptionFromLine "* (client) [\#100](url) Fix bug" 101
     = EmptyString
  /\ checker.GetPRDescriptionFromLine "* [\#1](u) foo [\#2](v) bar" 2
     = "foo [\#2](v) bar".
Proof.
  destruct GetPRDescriptionFromLine_spec
    as (Hown & _ & _ & _ & Hguard & _ & Hfirst).
  split; [|split].
  - apply (Hown 100 "client" "url" "Fix bug");
      [lia | reflexivity | split; [discriminate | reflexivity]
      | split; [discriminate | reflexivity]].
  - apply (Hguard "* (client) [\#100](url) Fix bug" 101). reflexivity.
  - apply (Hfirst 2 "* " "1" "u" "foo [\#2](v) bar");
      [reflexivity | reflexivity | split; [discriminate | reflexivity]
      | split; [discriminate | reflexivity]
      | split; [discriminate | reflexivity] | reflexivity].
Defined.

(** * The cache *)

Section Cache.

(** The saturation of [Sub] does not change a comparison with the
    seven days. *)
Lemma expired_spec (now t : time.Time) :
  (db.TTL <? time.Since now t) = true <-> db.TTL < now - t.
Proof.
  unfold time.Since, time.Sub, db.TTL, time.minDuration, time.maxDuration,
    time.Hour, time.Second, time.Nanosecond.
  destruct (now - t <? - 2 ^ 63) eqn:E1; [|destruct (2 ^ 63 - 1 <? now - t) eqn:E2];
    rewrite Z.ltb_lt; try apply Z.ltb_lt in E1; try apply Z.ltb_lt in E2; lia.
Qed.

Lemma fresh_spec (now t : time.Time) :
  (db.TTL <? time.Since now t) = false <-> now - t <= db.TTL.
Proof.
  rewrite <- not_true_iff_false, expired_spec. lia.
Qed.

End Cache.

(** C1: a stored verdict is a hit, with the stored status, exactly when
    the stored description equals the current one and the stored time is
    at most seven days before now; a stored title is a hit exactly when
    it was fetched at most seven days before now. *)
Theorem cache_hit_iff_same_description_and_fresh
  (now : time.Time) (st : db.Store) (owner repo : string) (pr : Z) :
  db.fault st = None ->
  db.TTL = 7 * 24 * 3600 * 1000000000
  /\ (forall row currentDescription,
        db.validation_cache st !! (owner, repo, pr) = Some row ->
        let hit := db.changelog_desc row = currentDescription
                   /\ now - db.last_validated row <= db.TTL in
        (hit ->
         db.GetValidationResult (Some db.Conn) now st owner repo pr
           currentDescription = Ok (db.status row, true, None))
        /\ (~ hit ->
            db.GetValidationResult (Some db.Conn) now st owner repo pr
              currentDescription = Ok (0, false, None)))
  /\ (forall row,
        db.github_pr_cache st !! (owner, repo, pr) = Some row ->
        (now - db.fetched_at row <= db.TTL ->
         db.GetPRInfo (Some db.Conn) now st owner repo pr
         = Ok (db.title row, true, None))
        /\ (db.TTL < now - db.fetched_at row ->
            db.GetPRInfo (Some db.Conn) now st owner repo pr
            = Ok (EmptyString, false, None))).
Proof.
  intros Hfault. split; [reflexivity|]. split.
  - intros row current Hrow hit. unfold db.GetValidationResult.
    rewrite Hfault, Hrow. split.
    + intros [Hd Hf]. apply String.eqb_eq in Hd. rewrite Hd. simpl.
      apply fresh_spec in Hf. now rewrite Hf.
    + intros Hn. destruct (String.eqb _ _) eqn:Hd; simpl; [|reflexivity].
      apply String.eqb_eq in Hd.
      destruct (db.TTL <? _) eqn:Hf; [reflexivity|].
      apply fresh_spec in Hf. exfalso. apply Hn. now split.
  - intros row Hrow. unfold db.GetPRInfo. rewrite Hfault, Hrow. split.
    + intros Hf. apply fresh_spec in Hf. now rewrite Hf.
    + intros Hf. apply expired_spec in Hf. now rewrite Hf.
Qed.

Lemma cache_hit_example :
  db.GetValidationResult (Some db.Conn) example_now example_store
    "cosmos" "ibc-go" 100 "Fix bug" = Ok (1, true, None)
  /\ db.GetValidationResult (Some db.Conn) example_now example_store
       "cosmos" "ibc-go" 100 "Fix bugs" = Ok (0, false, None)
  /\ db.GetPRInfo (Some db.Conn) example_now example_store
       "cosmos" "ibc-go" 100 = Ok (EmptyString, false, None).
Proof.
  destruct (cache_hit_iff_same_description_and_fresh example_now example_store
              "cosmos" "ibc-go" 100 eq_refl) as (_ & Hv & Ht).
  split; [|split].
  - apply (Hv (db.mkValidationRow "Fix bug" 1 (example_now - 6 * day)));
      [reflexivity | split; [reflexivity | vm_compute; discriminate]].
  - apply (Hv (db.mkValidationRow "Fix bug" 1 (example_now - 6 * day)));
      [reflexivity | intros [Hd _]; discriminate].
  - apply (Ht (db.mkPRRow "Fix bug in client" (example_now - 8 * day)));
      [reflexivity | reflexivity].
Defined.

(** * The missing store *)

(** C2 fails on the code: no method of [DB] can be called on the nil
    handle, and with no database [(c *Client) GetPRInfo] calls
    [c.db.GetPRInfo] on it and panics, although [CheckPR] guards its own
    uses of the store with [c.db != nil]; so [CheckPR], with caching
    off, panics on a PR whose line and description it finds. *)
Theorem nil_store_panics :
  (forall now st owner repo pr title desc status,
     db.GetPRInfo None now st owner repo pr = Panic
     /\ db.StorePRInfo None now st owner repo pr title = Panic
     /\ db.GetValidationResult None now st owner repo pr desc = Panic
     /\ db.StoreValidationResult None now st owner repo pr desc status = Panic)
  /\ (forall w token o r owner repo pr,
        github.GetPRInfo (github.NewClient token o r None) w owner repo pr
        = Panic)
  /\ checker.CheckPR
       (checker.NewChecker (Some (github.NewClient "" "cosmos" "ibc-go" None))
          "" "cosmos" "ibc-go" None false)
       example_world 100 example_changelog = Panic.
Proof.
  split; [intros; repeat split | split; [intros; reflexivity | reflexivity]].
Qed.

(** * The sample of [CheckChangelog] *)

Section Sampling.

Lemma CheckPR_Number c w pr section r c' w' :
  checker.CheckPR c w pr section = Ok (r, c', w') -> types.Number r = pr.
Proof.
  unfold checker.CheckPR, checker.check_uncached, checker.client_GetPRInfo.
  intros H. repeat case_match; simplify_eq; reflexivity.
Qed.

Lemma check_each_Numbers (prNumbers : list Z) :
  forall c w section acc results c' w',
  checker.check_each c w prNumbers section acc = Ok (results, c', w') ->
  map types.Number results = map types.Number acc ++ prNumbers.
Proof.
  induction prNumbers as [|pr rest IH]; intros c w section acc results c' w' H;
    simpl in H.
  - injection H as <- <- <-. now rewrite app_nil_r.
  - destruct (checker.CheckPR c w pr section) as [[[r c1] w1]|] eqn:E;
      [|discriminate].
    apply IH in H. rewrite H, map_app. simpl.
    rewrite (CheckPR_Number _ _ _ _ _ _ _ E). now rewrite <- app_assoc.
Qed.

End Sampling.


(** * The similarity pipeline *)

Section Similarity.

Lemma lower_byte_special (c x : ascii) :
  strings.is_upper x = false -> strings.is_lower x = false ->
  strings.lower_byte c = x -> c = x.
Proof.
  unfold strings.lower_byte. intros Hu Hl H.
  destruct (strings.is_upper c) eqn:E; [|exact H].
  exfalso. subst x. clear Hu.
  destruct c as [[] [] [] [] [] [] [] []]; vm_compute in E, Hl; discriminate.
Qed.

(** Lower-casing neither makes nor removes a byte that is not a letter. *)
Lemma IndexByte_ToLower (s : string) (x : ascii) :
  strings.is_upper x = false -> strings.is_lower x = false ->
  strings.IndexByte s x = None ->
  strings.IndexByte (strings.ToLower s) x = None.
Proof.
  intros Hu Hl. induction s as [|c s IH]; simpl; [reflexivity|].
  destruct (strings.byte_eqb c x) eqn:E; [discriminate|].
  destruct (strings.IndexByte s x) eqn:Es; [discriminate|]. intros _.
  destruct (strings.byte_eqb (strings.lower_byte c) x) eqn:E'.
  - apply byte_eqb_eq in E'. apply (lower_byte_special c x Hu Hl) in E'.
    subst c. now rewrite byte_eqb_refl in E.
  - fold (strings.ToLower s). now rewrite IH.
Qed.

Lemma RemoveByte_absent (s : string) (x : ascii) :
  strings.IndexByte s x = None -> strings.RemoveByte s x = s.
Proof.
  induction s as [|c s IH]; simpl; [reflexivity|].
  destruct (strings.byte_eqb c x); [discriminate|].
  destruct (strings.IndexByte s x); [discriminate|].
  intros _. now rewrite IH.
Qed.

(** A description without backticks and periods is only lower-cased. *)
Lemma normalize_desc_plain (s : string) :
  strings.IndexByte s "`"%char = None -> strings.IndexByte s "."%char = None ->
  checker.normalize_desc s = strings.ToLower s.
Proof.
  intros Hb Hp. unfold checker.normalize_desc.
  rewrite (RemoveByte_absent s _ Hb).
  now rewrite (IndexByte_ToLower s "."%char eq_refl eq_refl Hp).
Qed.

Lemma RemoveByte_all (s : string) (x : ascii) :
  strconv.all_bytes (strings.byte_eqb x) s = true ->
  strings.RemoveByte s x = EmptyString.
Proof.
  induction s as [|c s IH]; simpl; [reflexivity|].
  intros H. apply andb_true_iff in H as [Hc H].
  apply byte_eqb_eq in Hc as <-. rewrite byte_eqb_refl. now apply IH.
Qed.

Lemma substring_check_empty (desc title : string) :
  checker.normalize_desc desc = EmptyString ->
  checker.substring_check desc title = true.
Proof.
  intros H. unfold checker.substring_check. rewrite H.
  now rewrite Contains_empty.
Qed.

End Similarity.

(** C7, as the claim states it, fails: the description is cut at its
    first period and the title is not, so ["a.b"] against ["b"] is no
    match as a description, and a match as a title. *)
Lemma substring_check_not_commutative :
  ~ (forall a b, checker.substring_check a b = checker.substring_check b a).
Proof.
  intros H. specialize (H "a.b" "b"). vm_compute in H. discriminate.
Qed.

(** C7, amended: the substring check gives the same outcome for (a, b)
    and (b, a) when neither text contains a backtick or a period. *)
Theorem substring_check_commutative_plain (a b : string) :
  strings.IndexByte a "`"%char = None -> strings.IndexByte a "."%char = None ->
  strings.IndexByte b "`"%char = None -> strings.IndexByte b "."%char = None ->
  checker.substring_check a b = checker.substring_check b a.
Proof.
  intros Ha1 Ha2 Hb1 Hb2. unfold checker.substring_check.
  rewrite (normalize_desc_plain a Ha1 Ha2), (normalize_desc_plain b Hb1 Hb2).
  apply orb_comm.
Qed.

Lemma substring_check_commutative_example :
  checker.substring_check "Fix bug" "fix bug in client"
  = checker.substring_check "fix bug in client" "Fix bug".
Proof.
  apply (substring_check_commutative_plain "Fix bug" "fix bug in client");
    reflexivity.
Defined.

(** C8: [CheckSimilarity] returns [StatusGoodMatch] or
    [StatusPotentialMismatch], never [StatusNotFound]; and when the
    substring check fails and the configured similarity service returns
    an error, the result is [StatusPotentialMismatch]. *)
Theorem CheckSimilarity_verdicts (c : checker.Checker) (w : World)
  (changelogDesc prTitle : string) :
  (checker.CheckSimilarity c w changelogDesc prTitle = types.StatusGoodMatch
   \/ checker.CheckSimilarity c w changelogDesc prTitle
      = types.StatusPotentialMismatch)
  /\ checker.CheckSimilarity c w changelogDesc prTitle <> types.StatusNotFound
  /\ (forall client similar err,
        checker.substring_check changelogDesc prTitle = false ->
        checker.openAIClient c = Some client ->
        checker.OpenAI_CheckSimilarity client w prTitle changelogDesc
        = (similar, Some err) ->
        checker.CheckSimilarity c w changelogDesc prTitle
        = types.StatusPotentialMismatch).
Proof.
  assert (H : checker.CheckSimilarity c w changelogDesc prTitle
              = types.StatusGoodMatch
              \/ checker.CheckSimilarity c w changelogDesc prTitle
                 = types.StatusPotentialMismatch).
  { unfold checker.CheckSimilarity. repeat case_match; auto. }
  split; [exact H|]. split.
  - destruct H as [-> | ->]; discriminate.
  - intros client similar err Hs Hc Ho. unfold checker.CheckSimilarity.
    rewrite Hs, Hc, Ho. now destruct similar.
Qed.

Lemma CheckSimilarity_oracle_error_example :
  checker.CheckSimilarity example_checker example_world "Fix bug"
    "Add new feature" = types.StatusPotentialMismatch.
Proof.
  apply (proj2 (proj2 (CheckSimilarity_verdicts example_checker example_world
                         "Fix bug" "Add new feature"))
           (checker.NewOpenAIClient "sk-key") false (ErrHTTP "no route"));
    reflexivity.
Defined.

(** C10: a description that normalizes to the empty string is a good
    match for every title; a description of backticks only, and a
    description that begins with a period, normalize to the empty
    string. *)
Theorem empty_description_matches :
  (forall (c : checker.Checker) (w : World) (changelogDesc prTitle : string),
     checker.normalize_desc changelogDesc = EmptyString ->
     checker.CheckSimilarity c w changelogDesc prTitle = types.StatusGoodMatch)
  /\ (forall changelogDesc,
        strconv.all_bytes (strings.byte_eqb "`"%char) changelogDesc = true ->
        checker.normalize_desc changelogDesc = EmptyString)
  /\ (forall rest, checker.normalize_desc (String "."%char rest) = EmptyString).
Proof.
  split; [|split].
  - intros c w desc title H. unfold checker.CheckSimilarity.
    now rewrite (substring_check_empty desc title H).
  - intros desc H. unfold checker.normalize_desc.
    now rewrite (RemoveByte_all desc _ H).
  - intros rest. reflexivity.
Qed.

Lemma empty_description_example :
  checker.normalize_desc "``" = EmptyString
  /\ checker.CheckSimilarity example_checker example_world "``"
       "Add new feature" = types.StatusGoodMatch.
Proof.
  split; [reflexivity|].
  apply (proj1 empty_description_matches). reflexivity.
Defined.

(** * The section of a version *)

#[local] Arguments strings.HasPrefix : simpl never.

Section Sections.

Lemma collect_section_grows (h : string) (tokens : list string) :
  forall inSection acc,
  (length acc <= length (fst (checker.collect_section h tokens inSection acc)))%nat.
Proof.
  induction tokens as [|line rest IH]; intros inSection acc; simpl; [lia|].
  destruct (strings.HasPrefix line h).
  - specialize (IH true (acc ++ [line])). rewrite length_app in IH. simpl in IH. lia.
  - destruct inSection; simpl; [|apply IH].
    destruct (strings.HasPrefix line "## ["); simpl; [lia|].
    specialize (IH true (acc ++ [line])). rewrite length_app in IH. simpl in IH. lia.
Qed.

(** Without a header line nothing is collected, and the scan runs to
    its end. *)
Lemma collect_section_no_header (h : string) (tokens : list string) acc :
  (forall line, line ∈ tokens -> strings.HasPrefix line h = false) ->
  checker.collect_section h tokens false acc = (acc, true).
Proof.
  induction tokens as [|line rest IH]; intros H; simpl; [reflexivity|].
  rewrite (H line (list_elem_of_here _ _)). simpl.
  apply IH. intros l Hl. apply H. now apply list_elem_of_further.
Qed.

(** With a header line the section has at least that line. *)
Lemma collect_section_header (h : string) (tokens : list string) acc :
  (exists line, line ∈ tokens /\ strings.HasPrefix line h = true) ->
  fst (checker.collect_section h tokens false acc) <> [].
Proof.
  induction tokens as [|line rest IH]; intros (l & Hl & Hp).
  - now apply elem_of_nil in Hl.
  - simpl. destruct (strings.HasPrefix line h) eqn:E.
    + pose proof (collect_section_grows h rest true (acc ++ [line])) as G.
      rewrite length_app in G. simpl in G.
      intros Hnil. rewrite Hnil in G. simpl in G. lia.
    + simpl. apply IH. apply elem_of_cons in Hl as [-> | Hl]; [congruence|].
      now exists l.
Qed.

End Sections.

(** C6, as the claim states it, fails: a changelog that is only the
    header line [## [Unreleased]] has nothing after the header, and
    [GetChangelogSection] returns the header line as the section, with
    no error. *)
Lemma header_only_section_is_returned :
  checker.GetChangelogSection header_only_world "CHANGELOG.md" "Unreleased"
  = ("## [Unreleased]", None)
  /\ ~ (exists t,
          snd (checker.GetChangelogSection header_only_world "CHANGELOG.md"
                 "Unreleased") = Some (ErrNoSection t)).
Proof. split; [reflexivity | intros [t H]; discriminate]. Qed.

(** C6, amended: on a file that can be opened, [GetChangelogSection]
    fails with "no section found" exactly when the scan of the file
    meets no line that is too long and no line that begins with the
    header of the (normalized) label; a header line with nothing after
    it is not a failure. *)
Theorem section_not_found_iff (w : World) (changelogFile versionTag text : string) :
  files w changelogFile = Some text ->
  let tokens := fst (bufio.scan text) in
  let tooLong := snd (bufio.scan text) in
  let tag := if String.eqb versionTag EmptyString
             then checker.default_tag tokens else versionTag in
  (exists t, snd (checker.GetChangelogSection w changelogFile versionTag)
             = Some (ErrNoSection t))
  <-> tooLong = false
      /\ (forall line, line ∈ tokens ->
            strings.HasPrefix line (checker.version_header tag) = false).
Proof.
  intros Hfile tokens tooLong tag. unfold checker.GetChangelogSection.
  rewrite Hfile. subst tokens tooLong.
  destruct (bufio.scan text) as [tokens tooLong] eqn:Hscan. simpl in tag |- *.
  fold tag.
  destruct (checker.collect_section (checker.version_header tag) tokens false [])
    as [sectionLines atEnd] eqn:Hc.
  split.
  - intros [t Ht].
    assert (Hno : forall line, line ∈ tokens ->
              strings.HasPrefix line (checker.version_header tag) = false).
    { intros line Hl.
      destruct (strings.HasPrefix line (checker.version_header tag)) eqn:E;
        [|reflexivity].
      exfalso.
      assert (Hne : fst (checker.collect_section (checker.version_header tag)
                           tokens false []) <> [])
        by (apply collect_section_header; now exists line).
      rewrite Hc in Hne. simpl in Hne.
      destruct (atEnd && tooLong); [discriminate|].
      destruct sectionLines; [contradiction|]. discriminate. }
    split; [|exact Hno].
    rewrite (collect_section_no_header _ _ [] Hno) in Hc.
    injection Hc as <- <-. simpl in Ht.
    destruct tooLong; [discriminate | reflexivity].
  - intros [-> Hno]. rewrite (collect_section_no_header _ _ [] Hno) in Hc.
    injection Hc as <- <-. simpl. now exists tag.
Qed.

Lemma section_not_found_example :
  exists t,
    snd (checker.GetChangelogSection example_world "CHANGELOG.md" "v1.0.0")
    = Some (ErrNoSection t).
Proof.
  apply (proj2 (section_not_found_iff example_world "CHANGELOG.md" "v1.0.0"
                  example_changelog eq_refl)).
  split; [reflexivity|].
  intros line Hl. vm_compute in Hl.
  repeat (apply elem_of_cons in Hl as [-> | Hl]; [reflexivity|]).
  now apply elem_of_nil in Hl.
Defined.

(** * The scenarios of the specification, run on the model *)

Section Scenarios.

(** PR 100 with the title "Fix bug in client": a substring match. *)
Lemma scenario_good_match :
  verdict (checker.CheckPR cached_checker example_world 100
             (fst (checker.GetChangelogSection example_world "CHANGELOG.md" "")))
  = Some (types.StatusGoodMatch, None).
Proof. reflexivity. Qed.

(** PR 100 with the title "Add new feature", no similarity service. *)
Lemma scenario_potential_mismatch :
  verdict (checker.CheckPR cached_checker other_title_world 100
             (fst (checker.GetChangelogSection example_world "CHANGELOG.md" "")))
  = Some (types.StatusPotentialMismatch, None).
Proof. reflexivity. Qed.

(** PR 200 is not in the section. *)
Lemma scenario_not_found :
  verdict (checker.CheckPR cached_checker example_world 200
             (fst (checker.GetChangelogSection example_world "CHANGELOG.md" "")))
  = Some (types.StatusNotFound, Some (ErrPRNotInSection 200)).
Proof. reflexivity. Qed.

(** An empty changelog file has no section, whatever the label. *)
Lemma scenario_empty_file (versionTag : string) :
  exists t,
    checker.GetChangelogSection
      empty_file_world "CHANGELOG.md" versionTag
    = (EmptyString, Some (ErrNoSection t)).
Proof.
  unfold checker.GetChangelogSection. simpl. eauto.
Qed.

End Scenarios.

(** * More on the markers: every marker of the text is found *)

Section MarkersComplete.

(** A match that begins before a marker ends before it. *)
Lemma match_before_marker (c : ascii) (before digits after rest : string)
  (m : list string) :
  regexp.match_here (regexp.body checker.pr_ref_re)
    (String c before +:+ marker digits +:+ after) = Some (rest, m) ->
  (String.length (String c (before +:+ marker digits +:+ after))
   - String.length rest - 1 <= String.length before)%nat.
Proof.
  intros E.
  apply match_here_sound in E as (w & caps & Hs & -> & M).
  apply pr_ref_matches in M as (ds & -> & -> & Hd).
  enough (String.length ("[\#" +:+ ds +:+ "]") <= S (String.length before))%nat
    as Hw.
  { apply (f_equal String.length) in Hs.
    change (String c before +:+ marker digits +:+ after)
      with (String c (before +:+ marker digits +:+ after)) in Hs.
    rewrite Hs, length_append. lia. }
  apply append_eq_append in Hs as [(z & Ha & _) | (z & Hx & Hb)].
  - apply (f_equal String.length) in Ha. rewrite length_append in Ha.
    change (String.length (String c before)) with (S (String.length before)) in Ha.
    lia.
  - destruct z as [|d z].
    + rewrite append_nil_r in Hx. rewrite Hx. simpl. lia.
    + exfalso. unfold marker in Hb. simpl in Hb. injection Hb as <- _.
      simpl in Hx. injection Hx as <- Hx.
      apply (without_app_cons "["%char before z).
      rewrite <- Hx. now apply marker_tail_without.
Qed.

(** Every marker of the text is among the matches, whatever was matched
    before it. *)
Lemma find_all_complete (before digits after : string) :
  is_number digits ->
  forall skip, (skip <= String.length before)%nat ->
  [marker digits; digits]
    ∈ regexp.find_all_from (regexp.body checker.pr_ref_re)
        (before +:+ marker digits +:+ after) skip.
Proof.
  intros Hd. induction before as [|c before IH]; intros skip Hs.
  - simpl in Hs. assert (skip = O) as -> by lia.
    change (EmptyString +:+ marker digits +:+ after)
      with (marker digits +:+ after).
    rewrite (find_all_marker digits after Hd). apply list_elem_of_here.
  - change (String c before +:+ marker digits +:+ after)
      with (String c (before +:+ marker digits +:+ after)).
    destruct skip as [|k]; cbn [regexp.find_all_from].
    + change (String c (before +:+ marker digits +:+ after))
        with (String c before +:+ marker digits +:+ after) at 1.
      destruct (regexp.match_here _ _) as [[rest m]|] eqn:E.
      * apply list_elem_of_further. apply IH.
        now apply (match_before_marker c before digits after rest m).
      * apply IH. lia.
    + apply IH. simpl in Hs. lia.
Qed.

Lemma marker_number_sound (section : string) (m : list string) (n : Z) :
  m ∈ regexp.FindAllStringSubmatch checker.pr_ref_re section ->
  marker_number m = Some n ->
  exists before digits after,
    section = before +:+ marker digits +:+ after
    /\ is_number digits /\ strconv.Atoi digits = Some n.
Proof.
  intros Hm Hn.
  apply find_all_from_sound in Hm as (b & w & rest & caps & -> & -> & M).
  apply pr_ref_matches in M as (digits & -> & -> & Hd).
  now exists b, digits, rest.
Qed.

End MarkersComplete.

(** X1: [ExtractPRNumbers] returns exactly the numbers of the markers of
    the section: [x] is returned if and only if a marker [[\#<digits>]]
    occurs in the section whose digits [Atoi] reads as [x]. *)
Theorem ExtractPRNumbers_exact (changelogSection : string) (x : Z) :
  x ∈ checker.ExtractPRNumbers changelogSection
  <-> exists before digits after,
        changelogSection = before +:+ marker digits +:+ after
        /\ is_number digits /\ strconv.Atoi digits = Some x.
Proof.
  rewrite (proj1 (proj2 (ExtractPRNumbers_spec changelogSection)) x).
  unfold marker_numbers. rewrite list_elem_of_omap. split.
  - intros (m & Hm & Hn). now apply (marker_number_sound _ m).
  - intros (before & digits & after & -> & Hd & Hn).
    exists [marker digits; digits]. split; [|exact Hn].
    apply (find_all_complete before digits after Hd O). lia.
Qed.

Lemma ExtractPRNumbers_exact_example :
  7 ∈ checker.ExtractPRNumbers "see [\#007] and [\#12]"
  /\ 12 ∈ checker.ExtractPRNumbers "see [\#007] and [\#12]".
Proof.
  split.
  - apply (ExtractPRNumbers_exact "see [\#007] and [\#12]" 7).
    exists "see ", "007", " and [\#12]".
    split; [reflexivity|].
    split; [split; [discriminate | reflexivity] | reflexivity].
  - apply (ExtractPRNumbers_exact "see [\#007] and [\#12]" 12).
    exists "see [\#007] and ", "12", EmptyString.
    split; [reflexivity|].
    split; [split; [discriminate | reflexivity] | reflexivity].
Defined.


(** * The line of a PR *)

Section FindLine.

Lemma find_line_spec (prRef : string) (tokens : list string) :
  prRef <> EmptyString ->
  (checker.find_line prRef tokens = EmptyString
   /\ forall line, line ∈ tokens -> strings.Contains line prRef = false)
  \/ (exists earlier later,
        tokens = earlier ++ checker.find_line prRef tokens :: later
        /\ strings.Contains (checker.find_line prRef tokens) prRef = true
        /\ forall line, line ∈ earlier -> strings.Contains line prRef = false).
Proof.
  intros Hne. induction tokens as [|l ls IH]; simpl.
  - left. split; [reflexivity|]. intros line H. now apply elem_of_nil in H.
  - destruct (strings.Contains l prRef) eqn:E.
    + right. exists [], ls. repeat split; [exact E|].
      intros line H. now apply elem_of_nil in H.
    + destruct IH as [[H0 Hall] | (e & la & Ht & Hc & Hall)].
      * left. split; [exact H0|]. intros line H.
        apply elem_of_cons in H as [-> | H]; [exact E | now apply Hall].
      * right. exists (l :: e), la. repeat split; [|exact Hc|].
        -- simpl. now rewrite <- Ht.
        -- intros line H.
           apply elem_of_cons in H as [-> | H]; [exact E | now apply Hall].
Qed.

Lemma pr_marker_nonempty (prNumber : Z) :
  checker.pr_marker prNumber <> EmptyString.
Proof. unfold checker.pr_marker. simpl. discriminate. Qed.

End FindLine.

(** X2: [FindPRLineInSection] returns the first scanned line of the
    section that contains the marker of the PR: either no scanned line
    contains the marker and the result is empty, or the result is a
    scanned line that contains it and no scanned line before it does. *)
Theorem FindPRLineInSection_first (prNumber : Z) (section : string) :
  let tokens := fst (bufio.scan section) in
  let line := checker.FindPRLineInSection prNumber section in
  (line = EmptyString
   /\ forall l, l ∈ tokens ->
        strings.Contains l (checker.pr_marker prNumber) = false)
  \/ (exists earlier later,
        tokens = earlier ++ line :: later
        /\ strings.Contains line (checker.pr_marker prNumber) = true
        /\ forall l, l ∈ earlier ->
             strings.Contains l (checker.pr_marker prNumber) = false).
Proof.
  intros tokens line. subst tokens line. unfold checker.FindPRLineInSection.
  apply find_line_spec, pr_marker_nonempty.
Qed.

Lemma FindPRLineInSection_first_example :
  strings.Contains (checker.FindPRLineInSection 100 example_changelog)
    (checker.pr_marker 100) = true.
Proof.
  pose proof (FindPRLineInSection_first 100 example_changelog) as H.
  cbv zeta in H.
  destruct H as [[E _] | (earlier & later & _ & H & _)];
    [discriminate E | exact H].
Defined.

(** * The scanner and the markers *)

Section ScanFacts.

Lemma split_lines_prefix (m b : string) :
  without strings.LF m -> m <> EmptyString ->
  exists l0 rest, bufio.split_lines (m +:+ b) = (m +:+ l0) :: rest.
Proof.
  induction m as [|c m IH]; intros Hm Hne; [contradiction|].
  apply without_cons in Hm as [Hc Hm]. simpl. rewrite Hc.
  destruct m as [|c' m'].
  - simpl. destruct (bufio.split_lines b) as [|l ls].
    + now exists EmptyString, [].
    + now exists l, ls.
  - destruct (IH Hm) as (l0 & rest & E); [discriminate|].
    rewrite E. now exists l0, rest.
Qed.

(** A text without a newline that occurs in the input occurs in one of
    its lines. *)
Lemma split_lines_contains (a m b : string) :
  without strings.LF m -> m <> EmptyString ->
  exists l, l ∈ bufio.split_lines (a +:+ m +:+ b)
            /\ strings.Contains l m = true.
Proof.
  intros Hm Hne. induction a as [|c a IH].
  - destruct (split_lines_prefix m b Hm Hne) as (l0 & rest & E).
    exists (m +:+ l0). simpl. rewrite E. split; [apply list_elem_of_here|].
    apply Contains_spec. now exists EmptyString, l0.
  - destruct IH as (l & Hl & Hc). simpl.
    destruct (strings.byte_eqb c strings.LF).
    + exists l. split; [now apply list_elem_of_further | exact Hc].
    + destruct (bufio.split_lines (a +:+ m +:+ b)) as [|l0 ls];
        [now apply elem_of_nil in Hl|].
      apply elem_of_cons in Hl as [-> | Hl].
      * exists (String c l0). split; [apply list_elem_of_here|].
        apply Contains_spec in Hc as (x & y & ->).
        apply Contains_spec. now exists (String c x), y.
      * exists l. split; [now apply list_elem_of_further | exact Hc].
Qed.

Lemma dropCR_spec (l : string) :
  bufio.dropCR l = l
  \/ l = bufio.dropCR l +:+ String strings.CR EmptyString.
Proof.
  induction l as [|c l IH]; [now left|].
  destruct l as [|c' l'].
  - simpl. destruct (strings.byte_eqb c strings.CR) eqn:E; [|now left].
    right. apply byte_eqb_eq in E. now subst.
  - change (bufio.dropCR (String c (String c' l')))
      with (String c (bufio.dropCR (String c' l'))).
    destruct IH as [-> | IH]; [now left|].
    right.
    change (String c (String c' l')
            = String c (bufio.dropCR (String c' l')
                        +:+ String strings.CR EmptyString)).
    now rewrite <- IH.
Qed.

Lemma string_snoc (s : string) :
  s <> EmptyString -> exists s' c, s = s' +:+ String c EmptyString.
Proof.
  induction s as [|c s IH]; [contradiction|]. intros _.
  destruct s as [|c' s'].
  - now exists EmptyString, c.
  - destruct IH as (t & d & E); [discriminate|].
    exists (String c t), d. simpl. now rewrite <- E.
Qed.

Lemma snoc_inj (a b : string) (p q : ascii) :
  a +:+ String p EmptyString = b +:+ String q EmptyString -> a = b /\ p = q.
Proof.
  revert b. induction a as [|x a IH]; intros b H.
  - destruct b as [|y [|z b]]; simpl in H; try discriminate.
    now injection H as ->.
  - destruct b as [|y b]; simpl in H.
    + destruct a; discriminate.
    + injection H as -> H. apply IH in H as [-> ->]. auto.
Qed.

(** Dropping the carriage return of a line keeps the occurrences of a
    text that does not end with one. *)
Lemma Contains_dropCR (l m' : string) (c : ascii) :
  strings.byte_eqb c strings.CR = false ->
  strings.Contains l (m' +:+ String c EmptyString) = true ->
  strings.Contains (bufio.dropCR l) (m' +:+ String c EmptyString) = true.
Proof.
  intros Hc H. destruct (dropCR_spec l) as [-> | E]; [exact H|].
  apply Contains_spec in H as (x & y & Hl). apply Contains_spec.
  destruct y as [|e y].
  - exfalso. rewrite E in Hl. rewrite append_nil_r, <- append_assoc in Hl.
    apply snoc_inj in Hl as [_ Hl]. subst c. discriminate.
  - destruct (string_snoc (String e y)) as (y' & q & Ey); [discriminate|].
    rewrite Ey in Hl. rewrite E in Hl.
    replace (x +:+ (m' +:+ String c EmptyString) +:+ y' +:+ String q EmptyString)
      with ((x +:+ (m' +:+ String c EmptyString) +:+ y') +:+ String q EmptyString)
      in Hl by (now rewrite !append_assoc).
    apply snoc_inj in Hl as [Hl _]. now exists x, y'.
Qed.

Lemma scan_tokens_all (raw : list string) :
  snd (bufio.scan_tokens raw) = false ->
  fst (bufio.scan_tokens raw) = map bufio.dropCR raw.
Proof.
  induction raw as [|l ls IH]; simpl; [reflexivity|].
  destruct (bufio.MaxScanTokenSize <=? _); [discriminate|].
  destruct (bufio.scan_tokens ls) as [ts e]. simpl in *.
  intros He. now rewrite (IH He).
Qed.

Lemma uint_without (x : ascii) (d : Decimal.uint) :
  strconv.is_digit x = false -> without x (NilEmpty.string_of_uint d).
Proof.
  intros Hx. unfold without.
  apply (all_bytes_impl strconv.is_digit); [|apply string_of_uint_digits].
  intros c Hc. apply negb_true_iff.
  destruct (strings.byte_eqb c x) eqn:E; [|reflexivity].
  apply byte_eqb_eq in E. congruence.
Qed.

(** [%d] writes digits and at most a minus sign. *)
Lemma Itoa_without (x : ascii) (n : Z) :
  strconv.is_digit x = false -> strings.byte_eqb "-"%char x = false ->
  without x (strconv.Itoa n).
Proof.
  intros Hx Hm. unfold strconv.Itoa.
  assert (Hu : forall d, without x (NilZero.string_of_uint d)).
  { intros d. unfold NilZero.string_of_uint.
    destruct d; try apply (uint_without x _ Hx).
    unfold without. cbn [strconv.all_bytes].
    destruct (strings.byte_eqb "0" x) eqn:E; [|reflexivity].
    apply byte_eqb_eq in E. subst x. discriminate. }
  destruct (Z.to_int n) as [d|d]; cbn [NilZero.string_of_int]; [apply Hu|].
  unfold without. cbn [strconv.all_bytes]. rewrite Hm. apply Hu.
Qed.

Lemma pr_marker_without (x : ascii) (prNumber : Z) :
  strconv.is_digit x = false -> strings.byte_eqb "-"%char x = false ->
  strings.byte_eqb "["%char x = false -> strings.byte_eqb "\"%char x = false ->
  strings.byte_eqb "#"%char x = false -> strings.byte_eqb "]"%char x = false ->
  without x (checker.pr_marker prNumber).
Proof.
  intros Hd Hm H1 H2 H3 H4. unfold checker.pr_marker, without.
  change ("[\#" +:+ strconv.Itoa prNumber +:+ "]")
    with (String "[" (String "\" (String "#" (strconv.Itoa prNumber +:+ "]")))).
  cbn [strconv.all_bytes]. rewrite H1, H2, H3, all_bytes_app.
  rewrite (Itoa_without x prNumber Hd Hm). cbn [strconv.all_bytes].
  now rewrite H4.
Qed.

End ScanFacts.

(** The scan of a section that has the marker meets it. *)
Lemma FindPRLineInSection_scan (prNumber : Z) (section : string) :
  snd (bufio.scan section) = false ->
  strings.Contains section (checker.pr_marker prNumber) = true ->
  strings.Contains (checker.FindPRLineInSection prNumber section)
    (checker.pr_marker prNumber) = true
  /\ checker.FindPRLineInSection prNumber section <> EmptyString.
Proof.
  intros Hscan Hc.
  assert (Hfound : strings.Contains (checker.FindPRLineInSection prNumber section)
                     (checker.pr_marker prNumber) = true).
  { apply Contains_spec in Hc as (a & b & ->).
    destruct (split_lines_contains a (checker.pr_marker prNumber) b)
      as (l & Hl & Hlc).
    { now apply pr_marker_without. }
    { apply pr_marker_nonempty. }
    unfold checker.FindPRLineInSection, bufio.scan in *.
    rewrite (scan_tokens_all _ Hscan).
    destruct (find_line_spec (checker.pr_marker prNumber)
                (map bufio.dropCR
                   (bufio.split_lines (a +:+ checker.pr_marker prNumber +:+ b)))
                (pr_marker_nonempty prNumber))
      as [[_ Hall] | (e & la & _ & Hf & _)]; [|exact Hf].
    exfalso.
    assert (Hd : strings.Contains (bufio.dropCR l) (checker.pr_marker prNumber)
                 = true).
    { unfold checker.pr_marker in *.
      replace ("[\#" +:+ strconv.Itoa prNumber +:+ "]")
        with (("[\#" +:+ strconv.Itoa prNumber) +:+ String "]" EmptyString)
        in * by (now rewrite append_assoc).
      now apply Contains_dropCR. }
    rewrite Hall in Hd; [discriminate|].
    apply list_elem_of_fmap. now exists l. }
  split; [exact Hfound|].
  intros E. rewrite E in Hfound.
  pose proof (pr_marker_nonempty prNumber) as Hne.
  destruct (checker.pr_marker prNumber); [contradiction | discriminate].
Qed.

(** X3: a PR whose marker occurs in the section is located: when the
    scan of the section meets no line that is too long and the section
    contains the marker [[\#N]], [FindPRLineInSection] returns a line
    that contains the marker (so it is not empty). *)
Theorem FindPRLineInSection_finds (prNumber : Z) (section : string) :
  snd (bufio.scan section) = false ->
  strings.Contains section (checker.pr_marker prNumber) = true ->
  strings.Contains (checker.FindPRLineInSection prNumber section)
    (checker.pr_marker prNumber) = true
  /\ checker.FindPRLineInSection prNumber section <> EmptyString.
Proof. apply FindPRLineInSection_scan. Qed.

Lemma FindPRLineInSection_finds_example :
  checker.FindPRLineInSection 100 example_changelog <> EmptyString.
Proof.
  apply (FindPRLineInSection_finds 100 example_changelog); reflexivity.
Defined.

(** * The two tables: what is stored is what is read *)

Section StoreFacts.

Lemma Since_self (t : time.Time) : (db.TTL <? time.Since t t) = false.
Proof. apply fresh_spec. unfold db.TTL, time.Hour, time.Second, time.Nanosecond. lia. Qed.

End StoreFacts.

(** X4: the verdict table, on a database whose statements succeed.
    [StoreValidationResult] succeeds and touches the row of its key
    only; a later [GetValidationResult] of the key is a hit with the
    stored status when it asks with the stored description at most
    seven days later, and a miss when it asks with another description
    or more than seven days later; and a second store of the same key
    replaces the first. *)
Theorem StoreValidationResult_round_trip
  (now : time.Time) (st : db.Store) (owner repo : string) (pr : Z)
  (desc : string) (status : Z) :
  db.fault st = None ->
  exists st',
    db.StoreValidationResult (Some db.Conn) now st owner repo pr desc status
    = Ok (None, st')
    /\ db.fault st' = None
    /\ db.github_pr_cache st' = db.github_pr_cache st
    /\ (forall key, key <> (owner, repo, pr) ->
          db.validation_cache st' !! key = db.validation_cache st !! key)
    /\ (forall later, later - now <= db.TTL ->
          db.GetValidationResult (Some db.Conn) later st' owner repo pr desc
          = Ok (status, true, None))
    /\ (forall later other, other <> desc ->
          db.GetValidationResult (Some db.Conn) later st' owner repo pr other
          = Ok (0, false, None))
    /\ (forall later current, db.TTL < later - now ->
          db.GetValidationResult (Some db.Conn) later st' owner repo pr current
          = Ok (0, false, None))
    /\ (forall now2 desc2 status2,
          db.StoreValidationResult (Some db.Conn) now2 st' owner repo pr
            desc2 status2
          = db.StoreValidationResult (Some db.Conn) now2 st owner repo pr
              desc2 status2).
Proof.
  intros Hf. unfold db.StoreValidationResult. rewrite Hf.
  eexists. split; [reflexivity|]. cbn [db.fault db.github_pr_cache db.validation_cache].
  repeat split.
  - intros key Hk. now rewrite lookup_insert_ne.
  - intros later Hl. unfold db.GetValidationResult.
    cbn [db.fault db.validation_cache]. rewrite lookup_insert_eq.
    cbn [db.changelog_desc db.last_validated db.status].
    rewrite String.eqb_refl. cbn [negb].
    apply fresh_spec in Hl. now rewrite Hl.
  - intros later other Ho. unfold db.GetValidationResult.
    cbn [db.fault db.validation_cache]. rewrite lookup_insert_eq.
    cbn [db.changelog_desc].
    destruct (String.eqb desc other) eqn:E; [|reflexivity].
    apply String.eqb_eq in E. congruence.
  - intros later current Hl. unfold db.GetValidationResult.
    cbn [db.fault db.validation_cache]. rewrite lookup_insert_eq.
    cbn [db.changelog_desc db.last_validated].
    apply expired_spec in Hl. rewrite Hl.
    now destruct (negb (String.eqb desc current)).
  - intros now2 desc2 status2. cbn [db.fault db.github_pr_cache db.validation_cache].
    now rewrite insert_insert_eq.
Qed.

Lemma StoreValidationResult_round_trip_example :
  exists st',
    db.StoreValidationResult (Some db.Conn) example_now example_store
      "cosmos" "ibc-go" 7 "Fix bug" 1 = Ok (None, st')
    /\ db.GetValidationResult (Some db.Conn) (example_now + 3 * day) st'
         "cosmos" "ibc-go" 7 "Fix bug" = Ok (1, true, None).
Proof.
  destruct (StoreValidationResult_round_trip example_now example_store
              "cosmos" "ibc-go" 7 "Fix bug" 1 eq_refl)
    as (st' & Hs & _ & _ & _ & Hhit & _).
  exists st'. split; [exact Hs|].
  apply Hhit. vm_compute. discriminate.
Defined.

(** X5: the title table, on a database whose statements succeed.
    [StorePRInfo] succeeds and touches the row of its key only; a later
    [GetPRInfo] of the key returns the stored title when it asks at most
    seven days later, and is a miss after that; and a second store of
    the same key replaces the first. *)
Theorem StorePRInfo_round_trip
  (now : time.Time) (st : db.Store) (owner repo : string) (pr : Z)
  (title : string) :
  db.fault st = None ->
  exists st',
    db.StorePRInfo (Some db.Conn) now st owner repo pr title = Ok (None, st')
    /\ db.fault st' = None
    /\ db.validation_cache st' = db.validation_cache st
    /\ (forall key, key <> (owner, repo, pr) ->
          db.github_pr_cache st' !! key = db.github_pr_cache st !! key)
    /\ (forall later, later - now <= db.TTL ->
          db.GetPRInfo (Some db.Conn) later st' owner repo pr
          = Ok (title, true, None))
    /\ (forall later, db.TTL < later - now ->
          db.GetPRInfo (Some db.Conn) later st' owner repo pr
          = Ok (EmptyString, false, None))
    /\ (forall now2 title2,
          db.StorePRInfo (Some db.Conn) now2 st' owner repo pr title2
          = db.StorePRInfo (Some db.Conn) now2 st owner repo pr title2).
Proof.
  intros Hf. unfold db.StorePRInfo. rewrite Hf.
  eexists. split; [reflexivity|]. cbn [db.fault db.github_pr_cache db.validation_cache].
  repeat split.
  - intros key Hk. now rewrite lookup_insert_ne.
  - intros later Hl. unfold db.GetPRInfo.
    cbn [db.fault db.github_pr_cache]. rewrite lookup_insert_eq.
    cbn [db.title db.fetched_at]. apply fresh_spec in Hl. now rewrite Hl.
  - intros later Hl. unfold db.GetPRInfo.
    cbn [db.fault db.github_pr_cache]. rewrite lookup_insert_eq.
    cbn [db.title db.fetched_at]. apply expired_spec in Hl. now rewrite Hl.
  - intros now2 title2. cbn [db.fault db.github_pr_cache db.validation_cache].
    now rewrite insert_insert_eq.
Qed.

Lemma StorePRInfo_round_trip_example :
  exists st',
    db.StorePRInfo (Some db.Conn) example_now example_store
      "cosmos" "ibc-go" 100 "New title" = Ok (None, st')
    /\ db.GetPRInfo (Some db.Conn) example_now st' "cosmos" "ibc-go" 100
       = Ok ("New title", true, None).
Proof.
  destruct (StorePRInfo_round_trip example_now example_store
              "cosmos" "ibc-go" 100 "New title" eq_refl)
    as (st' & Hs & _ & _ & _ & Hhit & _).
  exists st'. split; [exact Hs|].
  apply Hhit. vm_compute. discriminate.
Defined.

(** * The GitHub client *)

Section ClientFacts.

(** What a call of [GetPRInfo] can change. *)
Lemma client_GetPRInfo_frame (c : github.Client) (w : World)
  (owner repo : string) (pr : Z) res c' w' :
  github.GetPRInfo c w owner repo pr = Ok (res, c', w') ->
  files w' = files w /\ github_api w' = github_api w
  /\ openai_api w' = openai_api w /\ now w' = now w
  /\ db.fault (cache w') = db.fault (cache w)
  /\ db.validation_cache (cache w') = db.validation_cache (cache w)
  /\ (forall key, key <> (owner, repo, pr) ->
        db.github_pr_cache (cache w') !! key
        = db.github_pr_cache (cache w) !! key)
  /\ (snd res <> None -> w' = w)
  /\ github.token c' = github.token c /\ github.db c' = github.db c
  /\ github.defaultOwner c' = github.defaultOwner c
  /\ github.defaultRepo c' = github.defaultRepo c.
Proof.
  unfold github.GetPRInfo, db.GetPRInfo, db.StorePRInfo. intros H.
  repeat case_match; simplify_eq; cbn;
    repeat split; try reflexivity; try congruence;
    try (intros key Hk; now rewrite lookup_insert_ne).
Qed.

End ClientFacts.

(** X6: a call of [(c *Client) GetPRInfo] that returns changes nothing
    but the title row of its own key, and that only when it returns a
    title: the files, the services, the clock, the verdict table and the
    other title rows are as before, and so are the token and the store
    of the client; when it returns an error the world is unchanged. *)
Theorem GetPRInfo_frame (c : github.Client) (w : World)
  (owner repo : string) (pr : Z) (res : string * option error)
  (c' : github.Client) (w' : World) :
  github.GetPRInfo c w owner repo pr = Ok (res, c', w') ->
  files w' = files w /\ github_api w' = github_api w
  /\ openai_api w' = openai_api w /\ now w' = now w
  /\ db.fault (cache w') = db.fault (cache w)
  /\ db.validation_cache (cache w') = db.validation_cache (cache w)
  /\ (forall key, key <> (owner, repo, pr) ->
        db.github_pr_cache (cache w') !! key
        = db.github_pr_cache (cache w) !! key)
  /\ (snd res <> None -> w' = w)
  /\ github.token c' = github.token c /\ github.db c' = github.db c.
Proof.
  intros H.
  destruct (client_GetPRInfo_frame c w owner repo pr res c' w' H)
    as (H1 & H2 & H3 & H4 & H5 & H6 & H7 & H8 & H9 & H10 & _).
  repeat split; assumption.
Qed.

Lemma GetPRInfo_frame_example :
  exists res c' w',
    github.GetPRInfo (github.NewClient "" "cosmos" "ibc-go" (Some db.Conn))
      example_world "cosmos" "ibc-go" 100 = Ok (res, c', w')
    /\ db.validation_cache (cache w') = db.validation_cache (cache example_world).
Proof.
  eexists _, _, _. split; [reflexivity|].
  eapply (GetPRInfo_frame (github.NewClient "" "cosmos" "ibc-go" (Some db.Conn))
            example_world "cosmos" "ibc-go" 100).
  reflexivity.
Defined.

Lemma GetPRInfo_cached (c : github.Client) (w : World)
  (owner repo : string) (pr : Z) (row : db.pr_row) :
  github.rateLimited c && time.Before (now w) (github.resetTime c) = false ->
  github.db c = Some db.Conn -> db.fault (cache w) = None ->
  db.github_pr_cache (cache w) !! (owner, repo, pr) = Some row ->
  (db.TTL <? time.Since (now w) (db.fetched_at row)) = false ->
  github.GetPRInfo c w owner repo pr = Ok ((db.title row, None), c, w).
Proof.
  intros Hr Hdb Hf Hrow Hfresh. unfold github.GetPRInfo, db.GetPRInfo.
  now rewrite Hr, Hdb, Hf, Hrow, Hfresh.
Qed.

(** X7: the title cache is read through. When [GetPRInfo] returns a
    title, on a client with a store whose statements succeed, the same
    call repeated at once returns the same title whatever GitHub would
    answer, and changes nothing. *)
Theorem GetPRInfo_read_through (c : github.Client) (w : World)
  (owner repo : string) (pr : Z) (title : string)
  (c' : github.Client) (w' : World) :
  github.db c = Some db.Conn -> db.fault (cache w) = None ->
  github.GetPRInfo c w owner repo pr = Ok ((title, None), c', w') ->
  forall api,
    github.GetPRInfo c' (with_github w' api) owner repo pr
    = Ok ((title, None), c', with_github w' api).
Proof.
  intros Hdb Hf H api.
  assert (Hcase : c' = c
            /\ github.rateLimited c && time.Before (now w) (github.resetTime c)
               = false
            /\ now w' = now w /\ db.fault (cache w') = None
            /\ exists row,
                 db.github_pr_cache (cache w') !! (owner, repo, pr) = Some row
                 /\ (db.TTL <? time.Since (now w) (db.fetched_at row)) = false
                 /\ db.title row = title).
  { unfold github.GetPRInfo in H.
    destruct (github.rateLimited c && time.Before (now w) (github.resetTime c))
      eqn:Hr; [discriminate|].
    unfold db.GetPRInfo, db.StorePRInfo in H. rewrite Hdb, Hf in H.
    assert (Hfetch :
              match github_api w (github.pulls_url owner repo pr) (github.token c)
              with
              | GhBadRequest e | GhTransportError e =>
                  Ok ((EmptyString, Some e), c, w)
              | GhResponse code resetHeader body =>
                  if (code =? github.StatusForbidden)
                     || (code =? github.StatusTooManyRequests)
                  then
                    match
                      (if String.eqb resetHeader EmptyString then None
                       else strconv.Atoi resetHeader)
                    with
                    | Some resetTime =>
                        Ok ((EmptyString,
                             Some (ErrRateLimitedUntil (time.Unix resetTime))),
                            github.mkClient (github.token c) (Some db.Conn) true
                              (time.Unix resetTime) (github.defaultOwner c)
                              (github.defaultRepo c), w)
                    | None => Ok ((EmptyString, Some ErrRateLimited), c, w)
                    end
                  else if negb (code =? github.StatusOK) then
                    Ok ((EmptyString, Some (ErrStatus code)), c, w)
                  else
                    match body with
                    | GhReadError e | GhMalformed e =>
                        Ok ((EmptyString, Some e), c, w)
                    | GhDecoded t =>
                        Ok ((t, None), c,
                            set_cache w
                              (db.mkStore
                                 (<[(owner, repo, pr) := db.mkPRRow t (now w)]>
                                    (db.github_pr_cache (cache w)))
                                 (db.validation_cache (cache w))
                                 (db.fault (cache w))))
                    end
              end = Ok ((title, None), c', w') ->
              c' = c /\ false = false /\ now w' = now w
              /\ db.fault (cache w') = None
              /\ exists row,
                   db.github_pr_cache (cache w') !! (owner, repo, pr) = Some row
                   /\ (db.TTL <? time.Since (now w) (db.fetched_at row)) = false
                   /\ db.title row = title).
    { clear H. intros Hx. repeat case_match; simplify_eq. cbn.
      split; [reflexivity|]. split; [reflexivity|]. split; [reflexivity|].
      split; [exact Hf|].
      eexists. split; [apply lookup_insert_eq|].
      split; [apply Since_self | reflexivity]. }
    destruct (db.github_pr_cache (cache w) !! (owner, repo, pr)) as [row|]
      eqn:Hrow; [destruct (db.TTL <? time.Since (now w) (db.fetched_at row))
                   eqn:Hfresh|].
    - apply Hfetch. rewrite Hf. exact H.
    - simplify_eq. split; [reflexivity|]. split; [reflexivity|].
      split; [reflexivity|]. split; [exact Hf|]. now exists row.
    - apply Hfetch. rewrite Hf. exact H. }
  destruct Hcase as (-> & Hr & Hnow & Hf' & row & Hrow & Hfresh & <-).
  apply GetPRInfo_cached; cbn [now with_github cache]; try assumption;
    rewrite Hnow; assumption.
Qed.

Lemma GetPRInfo_read_through_example :
  exists c' w',
    github.GetPRInfo (github.NewClient "" "cosmos" "ibc-go" (Some db.Conn))
      example_world "cosmos" "ibc-go" 100
    = Ok (("Fix bug in client", None), c', w')
    /\ github.GetPRInfo c'
         (with_github w' (fun _ _ => GhTransportError (ErrHTTP "offline")))
         "cosmos" "ibc-go" 100
       = Ok (("Fix bug in client", None), c',
             with_github w' (fun _ _ => GhTransportError (ErrHTTP "offline"))).
Proof.
  eexists _, _. split; [reflexivity|].
  apply (GetPRInfo_read_through
           (github.NewClient "" "cosmos" "ibc-go" (Some db.Conn))
           example_world "cosmos" "ibc-go" 100); reflexivity.
Defined.

(** The header of a reset time is within [int64]. *)
Lemma Atoi_range (s : string) (n : Z) :
  strconv.Atoi s = Some n -> strconv.MinInt <= n <= strconv.MaxInt.
Proof.
  unfold strconv.Atoi. intros H.
  repeat case_match; simplify_eq;
    match goal with
    | E : (_ <=? _) && (_ <=? _) = true |- _ =>
        apply andb_true_iff in E as [E1 E2];
        apply Z.leb_le in E1; apply Z.leb_le in E2; lia
    end.
Qed.

(** The seconds that fit give their own instant, the ones above wrap
    around to the remote past. *)
Lemma Unix_spec (sec : Z) :
  strconv.MinInt <= sec <= strconv.MaxInt ->
  (sec < 2 ^ 63 - time.unixToInternal -> time.Unix sec = sec * time.Second)
  /\ (2 ^ 63 - time.unixToInternal <= sec ->
      time.Unix sec = (sec - 2 ^ 64) * time.Second).
Proof.
  unfold strconv.MinInt, strconv.MaxInt, time.Unix, time.wrap_int64.
  change time.unixToInternal with 62135596800.
  change (2 ^ 63) with 9223372036854775808.
  change (2 ^ 64) with 18446744073709551616.
  intros Hr. split; intros H; f_equal.
  - rewrite Z.mod_small by lia. lia.
  - replace (sec + 62135596800 + 9223372036854775808)
      with (sec + 62135596800 - 9223372036854775808
            + 1 * 18446744073709551616) by lia.
    rewrite Z.mod_add by lia. rewrite Z.mod_small by lia. lia.
Qed.

(** X8: a rate-limit answer closes the client. When GitHub answers 403
    or 429 with a reset time it can read, [GetPRInfo] returns the
    rate-limit error, and every later call made before the reset time
    [time.Unix(reset, 0)] returns the same error at once, for any PR and
    in any world: it neither reads the store (a cached title is not
    served) nor calls GitHub. The reset time is [reset] seconds after
    1970 for a header below 9223371974719179008; above, the seconds
    wrap around and the reset time is [2^64] seconds earlier. *)
Theorem GetPRInfo_rate_limit (c : github.Client) (w : World)
  (owner repo : string) (pr code reset : Z) (header : string)
  (body : github_body) (err : option error) :
  github.rateLimited c && time.Before (now w) (github.resetTime c) = false ->
  db.GetPRInfo (github.db c) (now w) (cache w) owner repo pr
  = Ok (EmptyString, false, err) ->
  github_api w (github.pulls_url owner repo pr) (github.token c)
  = GhResponse code header body ->
  code = github.StatusForbidden \/ code = github.StatusTooManyRequests ->
  header <> EmptyString -> strconv.Atoi header = Some reset ->
  exists c',
    github.GetPRInfo c w owner repo pr
    = Ok ((EmptyString, Some (ErrRateLimitedUntil (time.Unix reset))), c', w)
    /\ (forall w2 owner2 repo2 pr2,
          now w2 < time.Unix reset ->
          github.GetPRInfo c' w2 owner2 repo2 pr2
          = Ok ((EmptyString, Some (ErrRateLimitedUntil (time.Unix reset))),
                c', w2))
    /\ (reset < 9223371974719179008 ->
        time.Unix reset = reset * 1000000000)
    /\ (9223371974719179008 <= reset ->
        time.Unix reset = (reset - 2 ^ 64) * 1000000000).
Proof.
  intros Hr Hmiss Hapi Hcode Hne Hreset.
  exists (github.mkClient (github.token c) (github.db c) true (time.Unix reset)
            (github.defaultOwner c) (github.defaultRepo c)).
  split; [|split].
  - unfold github.GetPRInfo. rewrite Hr, Hmiss. cbv beta iota. rewrite Hapi.
    assert (Hc : (code =? github.StatusForbidden)
                 || (code =? github.StatusTooManyRequests) = true).
    { destruct Hcode as [-> | ->]; reflexivity. }
    rewrite Hc. apply String.eqb_neq in Hne. rewrite Hne, Hreset.
    destruct err; reflexivity.
  - intros w2 owner2 repo2 pr2 Hlt. unfold github.GetPRInfo.
    cbn [github.rateLimited github.resetTime]. unfold time.Before.
    apply Z.ltb_lt in Hlt. now rewrite Hlt.
  - apply Atoi_range in Hreset. exact (Unix_spec reset Hreset).
Qed.

Lemma GetPRInfo_rate_limit_example :
  exists c',
    github.GetPRInfo (github.NewClient "" "cosmos" "ibc-go" (Some db.Conn))
      (with_github example_world
         (fun _ _ => GhResponse 429 "2000000000" (GhDecoded EmptyString)))
      "cosmos" "ibc-go" 100
    = Ok ((EmptyString, Some (ErrRateLimitedUntil (time.Unix 2000000000))), c',
          with_github example_world
            (fun _ _ => GhResponse 429 "2000000000" (GhDecoded EmptyString)))
    /\ github.GetPRInfo c' example_world "cosmos" "ibc-go" 100
       = Ok ((EmptyString, Some (ErrRateLimitedUntil (time.Unix 2000000000))),
             c', example_world).
Proof.
  destruct (GetPRInfo_rate_limit
              (github.NewClient "" "cosmos" "ibc-go" (Some db.Conn))
              (with_github example_world
                 (fun _ _ => GhResponse 429 "2000000000" (GhDecoded EmptyString)))
              "cosmos" "ibc-go" 100 429 2000000000 "2000000000"
              (GhDecoded EmptyString) None)
    as (c' & H1 & H2 & _);
    [reflexivity | reflexivity | reflexivity | now right | discriminate
    | reflexivity |].
  exists c'. split; [exact H1|]. apply H2. vm_compute. reflexivity.
Defined.

(** * The check of one PR *)

Section CheckPRFacts.

Lemma GetPRInfo_returns (c : github.Client) (w : World)
  (owner repo : string) (pr : Z) :
  github.db c = Some db.Conn ->
  exists res c' w', github.GetPRInfo c w owner repo pr = Ok (res, c', w').
Proof.
  intros Hdb. unfold github.GetPRInfo, db.GetPRInfo, db.StorePRInfo.
  rewrite Hdb. repeat case_match; simplify_eq; eauto.
Qed.

Lemma client_GetPRInfo_returns (c : checker.Checker) (w : World) (pr : Z) :
  client_has_store c ->
  exists res c' w',
    checker.client_GetPRInfo c w pr = Ok (res, c', w')
    /\ client_has_store c' /\ same_config c c'.
Proof.
  intros (gc & Hgc & Hdb). unfold checker.client_GetPRInfo. rewrite Hgc.
  destruct (GetPRInfo_returns gc w (checker.repoOwner c) (checker.repoName c)
              pr Hdb) as (res & gc' & w' & E).
  rewrite E. exists res. eexists. exists w'. split; [reflexivity|].
  apply client_GetPRInfo_frame in E.
  split.
  - exists gc'. split; [reflexivity|]. destruct E as (_&_&_&_&_&_&_&_&_&E&_).
    now rewrite E.
  - repeat split.
Qed.

Lemma client_GetPRInfo_world (c : checker.Checker) (w : World) (pr : Z)
  res c' w' :
  checker.client_GetPRInfo c w pr = Ok (res, c', w') ->
  same_outside_cache w w'
  /\ db.validation_cache (cache w') = db.validation_cache (cache w)
  /\ (forall key, key <> (checker.repoOwner c, checker.repoName c, pr) ->
        db.github_pr_cache (cache w') !! key
        = db.github_pr_cache (cache w) !! key)
  /\ same_config c c'
  /\ (client_has_store c -> client_has_store c').
Proof.
  unfold checker.client_GetPRInfo. intros H.
  destruct (checker.githubClient c) as [gc|] eqn:Hgc; [|discriminate].
  destruct (github.GetPRInfo gc w _ _ pr) as [[[res0 gc'] w0]|] eqn:E;
    [|discriminate].
  injection H as <- <- <-.
  apply client_GetPRInfo_frame in E
    as (H1 & H2 & H3 & H4 & H5 & H6 & H7 & _ & _ & H10 & _).
  repeat split; try assumption.
  intros (gc0 & Hgc0 & Hdb). exists gc'. split; [reflexivity|].
  rewrite H10. congruence.
Qed.

Lemma StoreValidationResult_frame now st owner repo pr desc status e st' :
  db.StoreValidationResult (Some db.Conn) now st owner repo pr desc status
  = Ok (e, st') ->
  db.fault st' = db.fault st
  /\ db.github_pr_cache st' = db.github_pr_cache st
  /\ (forall key, key <> (owner, repo, pr) ->
        db.validation_cache st' !! key = db.validation_cache st !! key).
Proof.
  unfold db.StoreValidationResult. intros H.
  destruct (db.fault st) eqn:Hf; simplify_eq; cbn; repeat split; try assumption.
  intros key Hk. now rewrite lookup_insert_ne.
Qed.

Lemma same_config_trans c1 c2 c3 :
  same_config c1 c2 -> same_config c2 c3 -> same_config c1 c3.
Proof.
  unfold same_config. intros (A1 & A2 & A3 & A4 & A5) (B1 & B2 & B3 & B4 & B5).
  repeat split; congruence.
Qed.

Lemma same_config_refl c : same_config c c.
Proof. repeat split. Qed.

Lemma same_outside_cache_refl w : same_outside_cache w w.
Proof. repeat split. Qed.

(** What the path after a cache miss can change. *)
Lemma check_uncached_world (c : checker.Checker) (w : World) (pr : Z)
  (desc : string) r c' w' :
  checker.check_uncached c w pr desc = Ok (r, c', w') ->
  same_outside_cache w w'
  /\ (forall key, key <> (checker.repoOwner c, checker.repoName c, pr) ->
        db.github_pr_cache (cache w') !! key
        = db.github_pr_cache (cache w) !! key
        /\ db.validation_cache (cache w') !! key
           = db.validation_cache (cache w) !! key)
  /\ same_config c c'
  /\ (client_has_store c -> client_has_store c').
Proof.
  unfold checker.check_uncached. intros H.
  destruct (checker.client_GetPRInfo c w pr) as [[[[t e] c1] w1]|] eqn:E;
    [|discriminate].
  apply client_GetPRInfo_world in E as (Hw & Hv & Hp & Hc & Hs).
  destruct e as [err|].
  - injection H as <- <- <-. repeat split; try apply Hw; try apply Hc;
      try exact Hs.
    + now apply Hp.
    + now rewrite Hv.
  - destruct (checker.db c1) as [[]|] eqn:Hdb.
    + destruct (db.StoreValidationResult _ _ _ _ _ _ _ _) as [[e st']|] eqn:Es;
        [|discriminate].
      injection H as <- <- <-.
      apply StoreValidationResult_frame in Es as (Hf & Hg & Hk).
      destruct Hw as (W1 & W2 & W3 & W4 & W5).
      destruct Hc as (C1 & C2 & C3 & C4 & C5).
      repeat split; cbn; try assumption; try congruence.
      * rewrite Hg. now apply Hp.
      * rewrite Hk; [now rewrite Hv | congruence].
    + injection H as <- <- <-. repeat split; try apply Hw; try apply Hc;
        try exact Hs.
      * now apply Hp.
      * now rewrite Hv.
Qed.

(** What [CheckPR] can change. *)
Lemma CheckPR_world (c : checker.Checker) (w : World) (pr : Z)
  (section : string) r c' w' :
  checker.CheckPR c w pr section = Ok (r, c', w') ->
  same_outside_cache w w'
  /\ (forall key, key <> (checker.repoOwner c, checker.repoName c, pr) ->
        db.github_pr_cache (cache w') !! key
        = db.github_pr_cache (cache w) !! key
        /\ db.validation_cache (cache w') !! key
           = db.validation_cache (cache w) !! key)
  /\ same_config c c'
  /\ (client_has_store c -> client_has_store c').
Proof.
  unfold checker.CheckPR. intros H.
  assert (Hsame : forall r0, Ok (r0, c, w) = Ok (r, c', w') ->
            same_outside_cache w w'
            /\ (forall key,
                  key <> (checker.repoOwner c, checker.repoName c, pr) ->
                  db.github_pr_cache (cache w') !! key
                  = db.github_pr_cache (cache w) !! key
                  /\ db.validation_cache (cache w') !! key
                     = db.validation_cache (cache w) !! key)
            /\ same_config c c'
            /\ (client_has_store c -> client_has_store c')).
  { intros r0 E. injection E as <- <- <-. repeat split; auto. }
  destruct (String.eqb (checker.FindPRLineInSection pr section) EmptyString);
    [now apply (Hsame _ H)|].
  destruct (String.eqb (checker.GetPRDescriptionFromLine _ pr) EmptyString);
    [now apply (Hsame _ H)|].
  destruct (checker.db c) as [d|]; [|now apply check_uncached_world in H].
  destruct (db.GetValidationResult _ _ _ _ _ _ _) as [[[st found] e]|];
    [|discriminate].
  destruct found; [|now apply check_uncached_world in H].
  destruct e; [now apply check_uncached_world in H|].
  destruct (checker.client_GetPRInfo c w pr) as [[[[t e] c1] w1]|] eqn:E;
    [|discriminate].
  apply client_GetPRInfo_world in E as (Hw & Hv & Hp & Hc & Hs).
  assert (Hres : c1 = c' /\ w1 = w') by (destruct e; now injection H).
  destruct Hres as [-> ->].
  repeat split; try apply Hw; try apply Hc; try exact Hs.
  - now apply Hp.
  - now rewrite Hv.
Qed.

Lemma check_uncached_returns (c : checker.Checker) (w : World) (pr : Z)
  (desc : string) :
  client_has_store c ->
  exists r c' w', checker.check_uncached c w pr desc = Ok (r, c', w').
Proof.
  intros Hs. unfold checker.check_uncached.
  destruct (client_GetPRInfo_returns c w pr Hs)
    as ([t e] & c1 & w1 & E & _ & _).
  rewrite E. destruct e; [eauto|].
  destruct (checker.db c1) as [[]|]; [|eauto].
  unfold db.StoreValidationResult. destruct (db.fault (cache w1)); eauto.
Qed.

Lemma CheckPR_returns (c : checker.Checker) (w : World) (pr : Z)
  (section : string) :
  client_has_store c ->
  exists r c' w', checker.CheckPR c w pr section = Ok (r, c', w').
Proof.
  intros Hs. unfold checker.CheckPR.
  destruct (String.eqb (checker.FindPRLineInSection pr section) EmptyString);
    [eauto|].
  destruct (String.eqb (checker.GetPRDescriptionFromLine _ pr) EmptyString);
    [eauto|].
  destruct (checker.db c) as [[]|]; [|now apply check_uncached_returns].
  unfold db.GetValidationResult.
  destruct (db.fault (cache w)); [now apply check_uncached_returns|].
  destruct (db.validation_cache (cache w) !! _) as [row|];
    [|now apply check_uncached_returns].
  destruct (negb _); [now apply check_uncached_returns|].
  destruct (db.TTL <? _); [now apply check_uncached_returns|].
  destruct (client_GetPRInfo_returns c w pr Hs)
    as ([t e] & c1 & w1 & E & _ & _).
  rewrite E. destruct e; eauto.
Qed.

End CheckPRFacts.

(** X9: with a client that has a store, [CheckPR] does not panic: it
    returns a result for every PR number, section and world, with or
    without a store of its own; and the checker it leaves has the same
    configuration and a client with a store, so the next call is safe
    too. *)
Theorem CheckPR_safe (c : checker.Checker) (w : World) (pr : Z)
  (section : string) :
  client_has_store c ->
  exists r c' w',
    checker.CheckPR c w pr section = Ok (r, c', w')
    /\ client_has_store c' /\ same_config c c'.
Proof.
  intros Hs. destruct (CheckPR_returns c w pr section Hs) as (r & c' & w' & E).
  exists r, c', w'. split; [exact E|].
  apply CheckPR_world in E as (_ & _ & Hc & Hs').
  split; [now apply Hs' | exact Hc].
Qed.

Lemma CheckPR_safe_example :
  exists r c' w',
    checker.CheckPR cached_checker example_world 100 example_changelog
    = Ok (r, c', w')
    /\ client_has_store c' /\ same_config cached_checker c'.
Proof.
  apply (CheckPR_safe cached_checker example_world 100 example_changelog).
  eexists. split; reflexivity.
Defined.

(** X10: [CheckPR] for one PR leaves the rest of the world alone: the
    files, the services, the clock and the state of the connection are
    unchanged, and so is every row of both tables under another key
    than (owner, repo, PR number); the configuration of the checker is
    unchanged too. *)
Theorem CheckPR_frame (c : checker.Checker) (w : World) (pr : Z)
  (section : string) (r : types.PRResult) (c' : checker.Checker) (w' : World) :
  checker.CheckPR c w pr section = Ok (r, c', w') ->
  same_outside_cache w w'
  /\ (forall key, key <> (checker.repoOwner c, checker.repoName c, pr) ->
        db.github_pr_cache (cache w') !! key
        = db.github_pr_cache (cache w) !! key
        /\ db.validation_cache (cache w') !! key
           = db.validation_cache (cache w) !! key)
  /\ same_config c c'.
Proof.
  intros H. apply CheckPR_world in H as (H1 & H2 & H3 & _). auto.
Qed.

Lemma CheckPR_frame_example :
  exists r c' w',
    checker.CheckPR cached_checker example_world 100 example_changelog
    = Ok (r, c', w')
    /\ same_outside_cache example_world w'.
Proof.
  eexists _, _, _. split; [reflexivity|].
  eapply (CheckPR_frame cached_checker example_world 100 example_changelog).
  reflexivity.
Defined.

Section CheckPRCache.

Lemma CheckSimilarity_cases (c : checker.Checker) (w : World) (desc title : string) :
  checker.CheckSimilarity c w desc title = types.StatusGoodMatch
  \/ checker.CheckSimilarity c w desc title = types.StatusPotentialMismatch.
Proof. unfold checker.CheckSimilarity. repeat case_match; auto. Qed.

(** A hit of the verdict table is a row with the description asked for,
    at most seven days old. *)
Lemma GetValidationResult_hit now st owner repo pr desc status :
  db.GetValidationResult (Some db.Conn) now st owner repo pr desc
  = Ok (status, true, None) ->
  db.fault st = None
  /\ exists row,
       db.validation_cache st !! (owner, repo, pr) = Some row
       /\ db.changelog_desc row = desc /\ db.status row = status
       /\ (db.TTL <? time.Since now (db.last_validated row)) = false.
Proof.
  unfold db.GetValidationResult. intros H.
  destruct (db.fault st); [discriminate|]. split; [reflexivity|].
  destruct (db.validation_cache st !! (owner, repo, pr)) as [row|];
    [|discriminate].
  destruct (String.eqb (db.changelog_desc row) desc) eqn:Ed; [|discriminate].
  destruct (db.TTL <? _) eqn:Ef; [discriminate|].
  cbn in H. injection H as <-. apply String.eqb_eq in Ed.
  now exists row.
Qed.

(** With a valid row in the verdict table, [CheckPR] returns the status
    of the row. *)
Lemma CheckPR_hit (c : checker.Checker) (w : World) (pr : Z)
  (section : string) (row : db.validation_row) :
  checker.db c = Some db.Conn -> client_has_store c ->
  db.fault (cache w) = None ->
  String.eqb (checker.FindPRLineInSection pr section) EmptyString = false ->
  String.eqb
    (checker.GetPRDescriptionFromLine
       (checker.FindPRLineInSection pr section) pr) EmptyString = false ->
  db.validation_cache (cache w)
    !! (checker.repoOwner c, checker.repoName c, pr) = Some row ->
  db.changelog_desc row
  = checker.GetPRDescriptionFromLine
      (checker.FindPRLineInSection pr section) pr ->
  (db.TTL <? time.Since (now w) (db.last_validated row)) = false ->
  exists r c' w',
    checker.CheckPR c w pr section = Ok (r, c', w')
    /\ types.Status r = db.status row
    /\ types.ChangelogDesc r
       = checker.GetPRDescriptionFromLine
           (checker.FindPRLineInSection pr section) pr.
Proof.
  intros Hdb Hs Hf Hl Hd Hrow Hdesc Hfresh. unfold checker.CheckPR.
  rewrite Hl, Hd, Hdb. unfold db.GetValidationResult.
  rewrite Hf, Hrow, Hdesc, String.eqb_refl, Hfresh. cbn [negb].
  destruct (client_GetPRInfo_returns c w pr Hs)
    as ([t e] & c1 & w1 & E & _ & _).
  rewrite E. destruct e; eauto 10.
Qed.

(** After a call without an error, the verdict table holds the verdict
    for the description, stamped at most now. *)
Lemma CheckPR_caches (c : checker.Checker) (w : World) (pr : Z)
  (section : string) r c' w' :
  checker.db c = Some db.Conn -> db.fault (cache w) = None ->
  checker.CheckPR c w pr section = Ok (r, c', w') ->
  types.Error r = None ->
  String.eqb (checker.FindPRLineInSection pr section) EmptyString = false
  /\ String.eqb
       (checker.GetPRDescriptionFromLine
          (checker.FindPRLineInSection pr section) pr) EmptyString = false
  /\ types.ChangelogDesc r
     = checker.GetPRDescriptionFromLine
         (checker.FindPRLineInSection pr section) pr
  /\ exists row,
       db.validation_cache (cache w')
         !! (checker.repoOwner c, checker.repoName c, pr) = Some row
       /\ db.changelog_desc row = types.ChangelogDesc r
       /\ db.status row = types.Status r
       /\ (db.TTL <? time.Since (now w) (db.last_validated row)) = false.
Proof.
  intros Hdb Hf H He. unfold checker.CheckPR in H.
  destruct (String.eqb (checker.FindPRLineInSection pr section) EmptyString)
    eqn:Hl; [injection H as <- _ _; discriminate|].
  destruct (String.eqb (checker.GetPRDescriptionFromLine _ pr) EmptyString)
    eqn:Hd; [injection H as <- _ _; discriminate|].
  split; [reflexivity|]. split; [reflexivity|].
  rewrite Hdb in H.
  set (desc := checker.GetPRDescriptionFromLine
                 (checker.FindPRLineInSection pr section) pr) in *.
  assert (Hmiss : checker.check_uncached c w pr desc = Ok (r, c', w') ->
            types.ChangelogDesc r = desc
            /\ exists row,
                 db.validation_cache (cache w')
                   !! (checker.repoOwner c, checker.repoName c, pr) = Some row
                 /\ db.changelog_desc row = types.ChangelogDesc r
                 /\ db.status row = types.Status r
                 /\ (db.TTL <? time.Since (now w) (db.last_validated row))
                    = false).
  { clear H. unfold checker.check_uncached. intros H.
    destruct (checker.client_GetPRInfo c w pr) as [[[[t e] c1] w1]|] eqn:E;
      [|discriminate].
    apply client_GetPRInfo_world in E as (Hw & _ & _ & Hc & _).
    destruct e; [injection H as <- _ _; discriminate|].
    destruct Hc as (C1 & _ & C3 & C4 & _).
    destruct Hw as (_ & _ & _ & W4 & W5).
    rewrite C1, Hdb in H. unfold db.StoreValidationResult in H.
    rewrite W5, Hf in H. cbn in H. injection H as <- <- <-. cbn.
    split; [reflexivity|]. eexists. rewrite C3, C4.
    split; [apply lookup_insert_eq|]. cbn.
    repeat split. rewrite W4. apply Since_self. }
  destruct (db.GetValidationResult _ _ _ _ _ _ _) as [[[st found] e]|] eqn:Eg;
    [|discriminate].
  destruct found; [|now apply Hmiss].
  destruct e; [now apply Hmiss|].
  apply GetValidationResult_hit in Eg as (_ & row & Hrow & Hdesc & Hst & Hfr).
  destruct (checker.client_GetPRInfo c w pr) as [[[[t e] c1] w1]|] eqn:E;
    [|discriminate].
  apply client_GetPRInfo_world in E as (_ & Hv & _ & _ & _).
  destruct e; injection H as <- <- <-; [discriminate|]. cbn.
  split; [reflexivity|]. exists row. rewrite Hv. auto.
Qed.

End CheckPRCache.

(** X11: the verdict is written through. On a checker with a store whose
    statements succeed, after [CheckPR] has returned a result without an
    error, the same call repeated at once returns the same verdict for
    the same description, whatever GitHub and the similarity service
    would answer then. *)
Theorem CheckPR_stable (c : checker.Checker) (w : World) (pr : Z)
  (section : string) (r : types.PRResult) (c' : checker.Checker) (w' : World) :
  checker.db c = Some db.Conn -> client_has_store c ->
  db.fault (cache w) = None ->
  checker.CheckPR c w pr section = Ok (r, c', w') ->
  types.Error r = None ->
  forall github openai,
  exists r2 c2 w2,
    checker.CheckPR c' (with_services w' github openai) pr section
    = Ok (r2, c2, w2)
    /\ types.Status r2 = types.Status r
    /\ types.ChangelogDesc r2 = types.ChangelogDesc r.
Proof.
  intros Hdb Hs Hf H He github openai.
  destruct (CheckPR_caches c w pr section r c' w' Hdb Hf H He)
    as (Hl & Hd & Hdesc & row & Hrow & Hrd & Hrs & Hfresh).
  apply CheckPR_world in H as (Hw & _ & Hc & Hs').
  destruct Hc as (C1 & _ & C3 & C4 & _).
  destruct Hw as (_ & _ & _ & W4 & W5).
  destruct (CheckPR_hit c' (with_services w' github openai) pr section row)
    as (r2 & c2 & w2 & E & Hst & Hds).
  - congruence.
  - now apply Hs'.
  - cbn. congruence.
  - exact Hl.
  - exact Hd.
  - cbn. now rewrite C3, C4.
  - congruence.
  - cbn. now rewrite W4.
  - exists r2, c2, w2. split; [exact E|]. split; congruence.
Qed.

Lemma CheckPR_stable_example :
  exists r c' w',
    checker.CheckPR cached_checker example_world 100 example_changelog
    = Ok (r, c', w')
    /\ exists r2 c2 w2,
         checker.CheckPR c'
           (with_services w'
              (fun _ _ => GhTransportError (ErrHTTP "offline"))
              (fun _ _ => OaTransportError (ErrHTTP "offline")))
           100 example_changelog = Ok (r2, c2, w2)
         /\ types.Status r2 = types.Status r
         /\ types.ChangelogDesc r2 = types.ChangelogDesc r.
Proof.
  eexists _, _, _. split; [reflexivity|].
  eapply (CheckPR_stable cached_checker example_world 100 example_changelog);
    try reflexivity.
  eexists. split; reflexivity.
Defined.

(** X12: without a cached verdict to use (no store, or no row for the
    PR), the verdict [StatusNotFound] and an error go together:
    [CheckPR] returns [StatusNotFound] exactly when it attaches an
    error, and a result without an error is [StatusGoodMatch] or
    [StatusPotentialMismatch]. *)
Theorem CheckPR_not_found_iff_error (c : checker.Checker) (w : World) (pr : Z)
  (section : string) (r : types.PRResult) (c' : checker.Checker) (w' : World) :
  checker.db c = None
  \/ db.validation_cache (cache w)
       !! (checker.repoOwner c, checker.repoName c, pr) = None ->
  checker.CheckPR c w pr section = Ok (r, c', w') ->
  (types.Status r = types.StatusNotFound <-> types.Error r <> None)
  /\ (types.Error r = None ->
      types.Status r = types.StatusGoodMatch
      \/ types.Status r = types.StatusPotentialMismatch).
Proof.
  intros Hno H. unfold checker.CheckPR in H.
  assert (Hfail : forall r0 c0 w0 desc e,
            Ok (types.mkPRResult pr desc EmptyString types.StatusNotFound
                  (Some e), c0, w0) = Ok (r0, c', w') ->
            (types.Status r0 = types.StatusNotFound <-> types.Error r0 <> None)
            /\ (types.Error r0 = None ->
                types.Status r0 = types.StatusGoodMatch
                \/ types.Status r0 = types.StatusPotentialMismatch)).
  { intros r0 c0 w0 desc e E. injection E as <- _ _. cbn.
    split; [split; [discriminate | reflexivity] | discriminate]. }
  assert (Hmiss : forall desc,
            checker.check_uncached c w pr desc = Ok (r, c', w') ->
            (types.Status r = types.StatusNotFound <-> types.Error r <> None)
            /\ (types.Error r = None ->
                types.Status r = types.StatusGoodMatch
                \/ types.Status r = types.StatusPotentialMismatch)).
  { clear H. intros desc H. unfold checker.check_uncached in H.
    destruct (checker.client_GetPRInfo c w pr) as [[[[t e] c1] w1]|];
      [|discriminate].
    destruct e; [now apply (Hfail r c1 w1 desc e)|].
    assert (Hr : r = types.mkPRResult pr desc t
                       (checker.CheckSimilarity c1 w1 desc t) None).
    { destruct (checker.db c1); [|now injection H as <- _ _].
      destruct (db.StoreValidationResult _ _ _ _ _ _ _ _); [|discriminate].
      now injection H as <- _ _. }
    subst r. cbn.
    destruct (CheckSimilarity_cases c1 w1 desc t) as [-> | ->];
      (split; [split; [discriminate | congruence] | auto]). }
  destruct (String.eqb (checker.FindPRLineInSection pr section) EmptyString);
    [now apply (Hfail r c w EmptyString (ErrPRNotInSection pr))|].
  destruct (String.eqb (checker.GetPRDescriptionFromLine _ pr) EmptyString);
    [now apply (Hfail r c w EmptyString (ErrNoDescription pr))|].
  destruct (checker.db c) as [d|] eqn:Hdb; [|now apply Hmiss in H].
  destruct Hno as [Hno | Hno]; [discriminate|].
  unfold db.GetValidationResult in H. destruct d.
  destruct (db.fault (cache w)); [now apply Hmiss in H|].
  rewrite Hno in H. now apply Hmiss in H.
Qed.

Lemma CheckPR_not_found_iff_error_example :
  exists r c' w',
    checker.CheckPR cached_checker example_world 200 example_changelog
    = Ok (r, c', w')
    /\ (types.Status r = types.StatusNotFound <-> types.Error r <> None).
Proof.
  eexists _, _, _. split; [reflexivity|].
  eapply (proj1 (CheckPR_not_found_iff_error cached_checker example_world 200
                   example_changelog _ _ _ (or_intror eq_refl) eq_refl)).
Defined.

(** * The lines of a section *)

Section SectionShape.

(** Inside the section: lines are taken up to the next header of
    another version. *)
Lemma collect_section_inside (h : string) (tokens : list string) :
  forall acc,
  exists mid after,
    tokens = mid ++ after
    /\ checker.collect_section h tokens true acc
       = (acc ++ mid, match after with [] => true | _ => false end)
    /\ (forall l, l ∈ mid ->
          strings.HasPrefix l "## [" = true -> strings.HasPrefix l h = true)
    /\ match after with
       | [] => True
       | l :: _ =>
           strings.HasPrefix l "## [" = true /\ strings.HasPrefix l h = false
       end.
Proof.
  induction tokens as [|line rest IH]; intros acc.
  - exists [], []. split; [reflexivity|].
    split; [cbn; now rewrite app_nil_r|].
    split; [intros l Hl; now apply elem_of_nil in Hl | exact I].
  - cbn [checker.collect_section].
    destruct (strings.HasPrefix line h) eqn:Eh.
    + destruct (IH (acc ++ [line])) as (mid & after & -> & E & Hm & Ha).
      exists (line :: mid), after. rewrite E, <- app_assoc.
      split; [reflexivity|]. split; [reflexivity|]. split; [|exact Ha].
      intros l Hl Hp. apply elem_of_cons in Hl as [-> | Hl];
        [exact Eh | now apply Hm].
    + cbn [andb]. destruct (strings.HasPrefix line "## [") eqn:E2.
      * exists [], (line :: rest). rewrite app_nil_r.
        split; [reflexivity|]. split; [reflexivity|].
        split; [intros l Hl; now apply elem_of_nil in Hl | auto].
      * destruct (IH (acc ++ [line])) as (mid & after & -> & E & Hm & Ha).
        exists (line :: mid), after. rewrite E, <- app_assoc.
        split; [reflexivity|]. split; [reflexivity|]. split; [|exact Ha].
        intros l Hl Hp. apply elem_of_cons in Hl as [-> | Hl];
          [congruence | now apply Hm].
Qed.


(** Before the section: lines are passed until the header. *)
Lemma collect_section_shape (h : string) (tokens : list string) :
  exists before lines after,
    tokens = before ++ lines ++ after
    /\ checker.collect_section h tokens false []
       = (lines, match after with [] => true | _ => false end)
    /\ (forall l, l ∈ before -> strings.HasPrefix l h = false)
    /\ match lines with
       | [] => after = []
       | first :: rest =>
           strings.HasPrefix first h = true
           /\ forall l, l ∈ rest ->
                strings.HasPrefix l "## [" = true ->
                strings.HasPrefix l h = true
       end
    /\ match after with
       | [] => True
       | l :: _ =>
           strings.HasPrefix l "## [" = true /\ strings.HasPrefix l h = false
       end.
Proof.
  induction tokens as [|line rest IH].
  - exists [], [], []. repeat split. intros l Hl. now apply elem_of_nil in Hl.
  - cbn [checker.collect_section].
    destruct (strings.HasPrefix line h) eqn:Eh.
    + destruct (collect_section_inside h rest [line])
        as (mid & after & -> & E & Hm & Ha).
      exists [], (line :: mid), after. cbn [app] in E |- *.
      split; [reflexivity|]. split; [exact E|].
      split; [intros l Hl; now apply elem_of_nil in Hl|].
      split; [split; [exact Eh | exact Hm] | exact Ha].
    + cbn [andb].
      destruct IH as (before & lines & after & -> & E & Hb & Hl & Ha).
      exists (line :: before), lines, after.
      split; [reflexivity|]. split; [exact E|].
      split; [|split; assumption].
      intros l Hin. apply elem_of_cons in Hin as [-> | Hin];
        [exact Eh | now apply Hb].
Qed.

Lemma version_header_v (t : string) :
  checker.version_header (String "v" t) = "## [" +:+ String "v" t +:+ "]".
Proof. reflexivity. Qed.

Lemma version_header_bare (t : string) :
  strings.HasPrefix t "v" = false -> t <> "Unreleased" ->
  checker.version_header t = checker.version_header (String "v" t).
Proof.
  intros Hv Hu. rewrite version_header_v. unfold checker.version_header.
  rewrite Hv. apply String.eqb_neq in Hu. rewrite Hu. reflexivity.
Qed.

End SectionShape.

(** X13: the section [GetChangelogSection] returns is a run of scanned
    lines of the file, joined by newlines: it begins with the first line
    that starts with the header of the label, no line of another version
    header ([## [] without the header of the label) is in it, and it
    stops right before the first such line after the header, or at the
    end of the scan. *)
Theorem GetChangelogSection_shape (w : World)
  (changelogFile versionTag text section : string) :
  files w changelogFile = Some text ->
  checker.GetChangelogSection w changelogFile versionTag = (section, None) ->
  let tokens := fst (bufio.scan text) in
  let header :=
    checker.version_header
      (if String.eqb versionTag EmptyString
       then checker.default_tag tokens else versionTag) in
  exists before first rest after,
    tokens = before ++ (first :: rest) ++ after
    /\ section = strings.Join (first :: rest) (String strings.LF EmptyString)
    /\ (forall l, l ∈ before -> strings.HasPrefix l header = false)
    /\ strings.HasPrefix first header = true
    /\ (forall l, l ∈ rest ->
          strings.HasPrefix l "## [" = true ->
          strings.HasPrefix l header = true)
    /\ match after with
       | [] => True
       | l :: _ =>
           strings.HasPrefix l "## [" = true
           /\ strings.HasPrefix l header = false
       end.
Proof.
  intros Hfile H tokens header. subst tokens header.
  unfold checker.GetChangelogSection in H. rewrite Hfile in H.
  destruct (bufio.scan text) as [tokens tooLong]. cbn [fst].
  set (header := checker.version_header _) in *.
  destruct (collect_section_shape header tokens)
    as (before & lines & after & Ht & E & Hb & Hl & Ha).
  rewrite E in H.
  destruct ((match after with [] => true | _ => false end) && tooLong);
    [discriminate|].
  destruct lines as [|first rest]; [discriminate|].
  cbn [length Nat.eqb] in H. injection H as <-.
  destruct Hl as [Hf Hr].
  exists before, first, rest, after. auto 10.
Qed.

Lemma GetChangelogSection_shape_example :
  exists before first rest after,
    fst (bufio.scan example_changelog) = before ++ (first :: rest) ++ after
    /\ strings.HasPrefix first "## [Unreleased]" = true.
Proof.
  destruct (GetChangelogSection_shape example_world "CHANGELOG.md" ""
              example_changelog _ eq_refl eq_refl)
    as (before & first & rest & after & Ht & _ & _ & Hf & _).
  now exists before, first, rest, after.
Defined.

(** X14: a bare version label and the same label with [v] before it
    name the same section: for a label that is not empty, does not begin
    with [v] and is not [Unreleased], [GetChangelogSection] returns the
    same section for both, and fails for both or for neither. *)
Theorem GetChangelogSection_bare_label (w : World)
  (changelogFile versionTag : string) :
  versionTag <> EmptyString -> strings.HasPrefix versionTag "v" = false ->
  versionTag <> "Unreleased" ->
  fst (checker.GetChangelogSection w changelogFile versionTag)
  = fst (checker.GetChangelogSection w changelogFile (String "v" versionTag))
  /\ (snd (checker.GetChangelogSection w changelogFile versionTag) = None
      <-> snd (checker.GetChangelogSection w changelogFile
                 (String "v" versionTag)) = None).
Proof.
  intros Hne Hv Hu. unfold checker.GetChangelogSection.
  destruct (files w changelogFile) as [text|]; [|split; [reflexivity|tauto]].
  destruct (bufio.scan text) as [tokens tooLong].
  apply String.eqb_neq in Hne. rewrite Hne.
  change (String.eqb (String "v" versionTag) EmptyString) with false.
  cbv iota. rewrite (version_header_bare versionTag Hv Hu).
  destruct (checker.collect_section _ tokens false []) as [lines atEnd].
  destruct (atEnd && tooLong); [split; [reflexivity | split; discriminate]|].
  destruct (length lines =? 0)%nat;
    split; try reflexivity; split; auto; discriminate.
Qed.

Lemma GetChangelogSection_bare_label_example :
  fst (checker.GetChangelogSection example_world "CHANGELOG.md" "1.0.0")
  = fst (checker.GetChangelogSection example_world "CHANGELOG.md" "v1.0.0").
Proof.
  apply (proj1 (GetChangelogSection_bare_label example_world "CHANGELOG.md"
                  "1.0.0" ltac:(discriminate) eq_refl ltac:(discriminate))).
Defined.

(** * The label of the section when none is given *)

Section DefaultLabel.

Lemma findSection_spec (tokens : list string) (header : string) :
  checker.findSection tokens header = true
  <-> exists line, line ∈ tokens /\ strings.HasPrefix line header = true.
Proof.
  induction tokens as [|l ls IH]; cbn [checker.findSection].
  - split; [discriminate | intros (line & H & _); now apply elem_of_nil in H].
  - destruct (strings.HasPrefix l header) eqn:E.
    + split; [|reflexivity]. intros _. exists l. split; [apply list_elem_of_here | exact E].
    + rewrite IH. split.
      * intros (line & H & Hp). exists line. split; [now apply list_elem_of_further | exact Hp].
      * intros (line & H & Hp). apply elem_of_cons in H as [-> | H]; [congruence|].
        now exists line.
Qed.

(** A line the version pattern matches begins with the header of the
    version it captures, and that version begins with [v]. *)
Lemma version_re_match (line : string) (m : list string) :
  regexp.FindStringSubmatch checker.version_re line = Some m ->
  exists whole v,
    m = [whole; String "v" v]
    /\ strings.HasPrefix line (checker.version_header (String "v" v)) = true.
Proof.
  unfold regexp.FindStringSubmatch, checker.version_re.
  cbn [regexp.anchored regexp.body]. intros H.
  destruct (regexp.match_here _ line) as [[rest m']|] eqn:E; [|discriminate].
  cbn in H. injection H as <-.
  apply match_here_sound in E as (whole & caps & -> & -> & M).
  cbv [regexp.Seq regexp.Lits regexp.Plus] in M. invert_matches.
  simpl. eexists _, _. split; [reflexivity|].
  rewrite version_header_v. apply HasPrefix_spec. exists rest.
  simpl. rewrite !append_assoc. simpl. rewrite !append_assoc. simpl.
  rewrite !append_assoc. reflexivity.
Qed.

Lemma first_version_found (tokens : list string) :
  (exists line, line ∈ tokens
     /\ regexp.FindStringSubmatch checker.version_re line <> None) ->
  exists v line,
    checker.first_version tokens = Some (String "v" v)
    /\ line ∈ tokens
    /\ strings.HasPrefix line (checker.version_header (String "v" v)) = true.
Proof.
  induction tokens as [|l ls IH]; intros (line & Hl & Hm).
  - now apply elem_of_nil in Hl.
  - cbn [checker.first_version].
    destruct (regexp.FindStringSubmatch checker.version_re l) as [m|] eqn:E.
    + apply version_re_match in E as (whole & v & -> & Hp).
      exists v, l. split; [reflexivity|]. split; [apply list_elem_of_here | exact Hp].
    + destruct IH as (v & l' & Hv & Hl' & Hp).
      * apply elem_of_cons in Hl as [-> | Hl]; [contradiction|]. now exists line.
      * exists v, l'. split; [exact Hv|].
        split; [now apply list_elem_of_further | exact Hp].
Qed.

End DefaultLabel.

(** X15: with an empty label the section is found whenever the file has
    one to fall back on: if a scanned line begins with
    [## [Unreleased]] or matches the version pattern
    [^## \[(v\d+\.\d+\.\d+)\]], [GetChangelogSection] does not fail with
    "no section found". *)
Theorem GetChangelogSection_default_found (w : World)
  (changelogFile text : string) :
  files w changelogFile = Some text ->
  (exists line, line ∈ fst (bufio.scan text)
     /\ (strings.HasPrefix line "## [Unreleased]" = true
         \/ regexp.FindStringSubmatch checker.version_re line <> None)) ->
  forall t,
    snd (checker.GetChangelogSection w changelogFile EmptyString)
    <> Some (ErrNoSection t).
Proof.
  intros Hfile (line & Hl & Hcase) t. unfold checker.GetChangelogSection.
  rewrite Hfile. destruct (bufio.scan text) as [tokens tooLong].
  cbn [fst] in Hl. change (String.eqb EmptyString EmptyString) with true.
  cbv iota.
  assert (Hfound : exists l,
            l ∈ tokens
            /\ strings.HasPrefix l
                 (checker.version_header (checker.default_tag tokens)) = true).
  { unfold checker.default_tag.
    destruct (checker.findSection tokens "## [Unreleased]") eqn:Ef.
    - apply findSection_spec in Ef as (l & Hin & Hp). now exists l.
    - destruct (first_version_found tokens) as (v & l & Hv & Hin & Hp).
      + exists line. split; [exact Hl|].
        destruct Hcase as [Hu | Hm]; [|exact Hm].
        exfalso. apply not_true_iff_false in Ef. apply Ef.
        apply findSection_spec. now exists line.
      + rewrite Hv. now exists l. }
  pose proof (collect_section_header _ tokens [] Hfound) as Hne.
  destruct (checker.collect_section _ tokens false []) as [lines atEnd].
  cbn [fst] in Hne.
  destruct (atEnd && tooLong); [discriminate|].
  destruct lines; [contradiction | discriminate].
Qed.

Lemma GetChangelogSection_default_found_example :
  snd (checker.GetChangelogSection example_world "CHANGELOG.md" EmptyString)
  <> Some (ErrNoSection "Unreleased").
Proof.
  apply (GetChangelogSection_default_found example_world "CHANGELOG.md"
           example_changelog eq_refl).
  exists "## [Unreleased]". split; [|left; reflexivity].
  vm_compute. apply list_elem_of_here.
Defined.

(** * The sample and the batch *)

Section Batch.

Lemma apply_limit_spec (prNumbers : list Z) (limit : Z) :
  exists selected,
    checker.apply_limit prNumbers limit = Ok selected
    /\ (forall x, x ∈ selected -> x ∈ prNumbers)
    /\ (NoDup prNumbers -> NoDup selected)
    /\ (length selected <= length prNumbers)%nat
    /\ (0 < limit -> Z.of_nat (length selected) <= limit)
    /\ (prNumbers <> [] -> selected <> []).
Proof.
  unfold checker.apply_limit.
  destruct ((0 <? limit) && (limit <? Z.of_nat (length prNumbers))) eqn:E.
  - apply andb_true_iff in E as [H0 Hn].
    apply Z.ltb_lt in H0. apply Z.ltb_lt in Hn.
    destruct (limit =? 3) eqn:E3.
    + apply Z.eqb_eq in E3. subst limit. unfold checker.index.
      destruct (lookup_lt_is_Some_2 prNumbers 0%nat) as [a Ha]; [lia|].
      destruct (lookup_lt_is_Some_2 prNumbers (length prNumbers / 2)%nat)
        as [m Hm].
      { apply Nat.Div0.div_lt_upper_bound. lia. }
      destruct (lookup_lt_is_Some_2 prNumbers (length prNumbers - 1)%nat)
        as [z Hz]; [lia|].
      rewrite Ha, Hm, Hz. exists [a; m; z]. split; [reflexivity|].
      assert (H2 : (2 <= length prNumbers / 2)%nat).
      { apply Nat.div_le_lower_bound; lia. }
      assert (H3 : (length prNumbers / 2 < length prNumbers - 1)%nat).
      { assert (length prNumbers / 2 <= length prNumbers - 2)%nat; [|lia].
        assert (length prNumbers / 2 * 2 <= length prNumbers)%nat.
        { rewrite Nat.mul_comm. apply Nat.Div0.mul_div_le. }
        lia. }
      repeat split.
      * intros x Hx.
        repeat (apply elem_of_cons in Hx as [-> | Hx];
                [eapply list_elem_of_lookup_2; eassumption|]).
        now apply elem_of_nil in Hx.
      * intros Hnd.
        assert (Hinj : forall i j x, prNumbers !! i = Some x ->
                  prNumbers !! j = Some x -> i = j).
        { intros i j x. now apply NoDup_lookup. }
        repeat constructor.
        -- intros Hin. apply elem_of_cons in Hin as [-> | Hin].
           ++ specialize (Hinj _ _ _ Ha Hm). lia.
           ++ apply list_elem_of_singleton in Hin as ->.
              specialize (Hinj _ _ _ Ha Hz). lia.
        -- intros Hin. apply list_elem_of_singleton in Hin as ->.
           specialize (Hinj _ _ _ Hm Hz). lia.
        -- intros Hin. now apply elem_of_nil in Hin.
      * simpl. lia.
      * simpl. lia.
      * discriminate.
    + eexists. split; [reflexivity|]. repeat split.
      * intros x Hx. apply elem_of_take in Hx as (i & Hx & _).
        eapply list_elem_of_lookup_2; exact Hx.
      * intros Hnd. eapply sublist_NoDup; [exact Hnd | apply sublist_take].
      * rewrite length_take. lia.
      * intros _. rewrite length_take. lia.
      * intros Hne Ht. apply (f_equal length) in Ht. rewrite length_take in Ht.
        simpl in Ht. lia.
  - exists prNumbers. split; [reflexivity|]. repeat split; auto.
    intros H0. apply andb_false_iff in E as [E | E].
    + apply Z.ltb_ge in E. lia.
    + apply Z.ltb_ge in E. lia.
Qed.

Lemma check_each_returns (prNumbers : list Z) :
  forall c w section acc,
  client_has_store c ->
  exists results c' w',
    checker.check_each c w prNumbers section acc = Ok (results, c', w')
    /\ same_outside_cache w w' /\ same_config c c'.
Proof.
  induction prNumbers as [|pr rest IH]; intros c w section acc Hs;
    cbn [checker.check_each].
  - exists acc, c, w. split; [reflexivity|].
    split; [apply same_outside_cache_refl | apply same_config_refl].
  - destruct (CheckPR_returns c w pr section Hs) as (r & c1 & w1 & E).
    rewrite E. apply CheckPR_world in E as (Hw & _ & Hc & Hs1).
    destruct (IH c1 w1 section (acc ++ [r]) (Hs1 Hs))
      as (results & c' & w' & E' & Hw' & Hc').
    exists results, c', w'. split; [exact E'|]. split.
    + destruct Hw as (A1 & A2 & A3 & A4 & A5).
      destruct Hw' as (B1 & B2 & B3 & B4 & B5).
      repeat split; congruence.
    + now apply (same_config_trans c c1 c').
Qed.

End Batch.

(** X16: the sample never reaches outside the list. For every list and
    limit, the block that applies the limit returns (its index
    expressions do not panic) a selection of PR numbers of the list,
    without duplicates when the list has none, not longer than the list
    nor than a positive limit, and not empty when the list is not. *)
Theorem apply_limit_safe (prNumbers : list Z) (limit : Z) :
  exists selected,
    checker.apply_limit prNumbers limit = Ok selected
    /\ (forall x, x ∈ selected -> x ∈ prNumbers)
    /\ (NoDup prNumbers -> NoDup selected)
    /\ (length selected <= length prNumbers)%nat
    /\ (0 < limit -> Z.of_nat (length selected) <= limit)
    /\ (prNumbers <> [] -> selected <> []).
Proof. apply apply_limit_spec. Qed.

Lemma apply_limit_safe_example :
  exists selected,
    checker.apply_limit [4; 5; 6; 7] 3 = Ok selected /\ NoDup selected.
Proof.
  destruct (apply_limit_safe [4; 5; 6; 7] 3) as (sel & E & _ & Hnd & _).
  exists sel. split; [exact E|]. apply Hnd.
  repeat constructor; intros H;
    repeat (apply elem_of_cons in H as [H | H]; [discriminate|]);
    now apply elem_of_nil in H.
Defined.

(** X17: with a client that has a store, [CheckChangelog] does not
    panic, and it changes nothing of the world but rows of the cache.
    When it returns an error it returns no result and has changed
    nothing at all. When it returns no error it returns at least one
    result, and the results are for pairwise different PR numbers, all
    of them numbers of markers of the section. *)
Theorem CheckChangelog_safe (c : checker.Checker) (w : World)
  (changelogFile versionTag : string) (limit : Z) :
  client_has_store c ->
  exists results err c' w',
    checker.CheckChangelog c w changelogFile versionTag limit
    = Ok ((results, err), c', w')
    /\ same_outside_cache w w' /\ same_config c c'
    /\ (err <> None -> results = [] /\ c' = c /\ w' = w)
    /\ (err = None ->
        results <> []
        /\ NoDup (map types.Number results)
        /\ forall x, x ∈ map types.Number results ->
             x ∈ checker.ExtractPRNumbers
                   (fst (checker.GetChangelogSection w changelogFile
                           versionTag))).
Proof.
  intros Hs. unfold checker.CheckChangelog.
  destruct (checker.GetChangelogSection w changelogFile versionTag)
    as [section [err|]].
  - exists [], (Some err), c, w. split; [reflexivity|].
    split; [apply same_outside_cache_refl|].
    split; [apply same_config_refl|]. split; [auto | discriminate].
  - cbn [fst].
    destruct (length (checker.ExtractPRNumbers section) =? 0)%nat eqn:El.
    + exists [], (Some ErrNoPRNumbers), c, w. split; [reflexivity|].
      split; [apply same_outside_cache_refl|].
      split; [apply same_config_refl|]. split; [auto | discriminate].
    + destruct (apply_limit_spec (checker.ExtractPRNumbers section) limit)
        as (sel & Esel & Hin & Hnd & _ & _ & Hne).
      rewrite Esel.
      destruct (check_each_returns sel c w section [] Hs)
        as (results & c' & w' & E & Hw & Hc).
      rewrite E. exists results, None, c', w'. split; [reflexivity|].
      split; [exact Hw|]. split; [exact Hc|]. split; [congruence|].
      intros _. apply check_each_Numbers in E. cbn [map app] in E.
      split; [|split].
      * intros ->. cbn in E. apply Hne; [|now symmetry].
        intros Hnil. rewrite Hnil in El. discriminate.
      * rewrite E. apply Hnd.
        apply (proj1 (ExtractPRNumbers_spec section)).
      * intros x Hx. rewrite E in Hx. now apply Hin.
Qed.

Lemma CheckChangelog_safe_example :
  exists results err c' w',
    checker.CheckChangelog cached_checker example_world "CHANGELOG.md" "" 0
    = Ok ((results, err), c', w')
    /\ same_outside_cache example_world w'.
Proof.
  destruct (CheckChangelog_safe cached_checker example_world "CHANGELOG.md" "" 0)
    as (results & err & c' & w' & E & Hw & _).
  - eexists. split; reflexivity.
  - now exists results, err, c', w'.
Defined.

(** C5: with a positive limit below the number of PRs, the limit 3
    selects the first, the middle (index [n / 2]) and the last PR number,
    any other limit the first [limit] numbers; a limit of 0 or less
    selects all; and [CheckChangelog] processes the PRs selected, in
    that order: whenever it returns results they are for the selection,
    and it does return them, without an error, on a section with a PR
    number when its client has a store. Ten PRs and the limit 3 give the
    PRs at the indices 0, 5 and 9. *)
Theorem sampling_selects :
  (forall (prNumbers : list Z) (limit : Z),
     let n := length prNumbers in
     (0 < limit < Z.of_nat n -> limit = 3 ->
      exists first mid last,
        prNumbers !! 0%nat = Some first
        /\ prNumbers !! (n / 2)%nat = Some mid
        /\ prNumbers !! (n - 1)%nat = Some last
        /\ checker.apply_limit prNumbers limit = Ok [first; mid; last])
     /\ (0 < limit < Z.of_nat n -> limit <> 3 ->
         checker.apply_limit prNumbers limit
         = Ok (take (Z.to_nat limit) prNumbers))
     /\ (limit <= 0 -> checker.apply_limit prNumbers limit = Ok prNumbers)
     /\ (forall c w file tag section results c' w',
           checker.GetChangelogSection w file tag = (section, None) ->
           prNumbers = checker.ExtractPRNumbers section ->
           checker.CheckChangelog c w file tag limit
           = Ok ((results, None), c', w') ->
           checker.apply_limit prNumbers limit
           = Ok (map types.Number results))
     /\ (forall c w file tag section,
           client_has_store c ->
           checker.GetChangelogSection w file tag = (section, None) ->
           prNumbers = checker.ExtractPRNumbers section ->
           prNumbers <> [] ->
           exists results c' w',
             checker.CheckChangelog c w file tag limit
             = Ok ((results, None), c', w')
             /\ checker.apply_limit prNumbers limit
                = Ok (map types.Number results)))
  /\ (forall p0 p1 p2 p3 p4 p5 p6 p7 p8 p9 : Z,
        checker.apply_limit [p0; p1; p2; p3; p4; p5; p6; p7; p8; p9] 3
        = Ok [p0; p5; p9]).
Proof.
  split; [|intros; reflexivity].
  intros prNumbers limit n. subst n. unfold checker.apply_limit.
  repeat split.
  - intros [H0 Hn] ->.
    assert (E : (0 <? 3) && (3 <? Z.of_nat (length prNumbers)) = true).
    { apply andb_true_iff. split; [reflexivity | now apply Z.ltb_lt]. }
    rewrite E, Z.eqb_refl. unfold checker.index.
    destruct (lookup_lt_is_Some_2 prNumbers 0%nat) as [a Ha]; [lia|].
    destruct (lookup_lt_is_Some_2 prNumbers (length prNumbers / 2)%nat)
      as [m Hm].
    { apply Nat.Div0.div_lt_upper_bound. lia. }
    destruct (lookup_lt_is_Some_2 prNumbers (length prNumbers - 1)%nat)
      as [z Hz]; [lia|].
    exists a, m, z. rewrite Ha, Hm, Hz. auto.
  - intros [H0 Hn] H3.
    assert (E : (0 <? limit) && (limit <? Z.of_nat (length prNumbers)) = true).
    { apply andb_true_iff. split; now apply Z.ltb_lt. }
    rewrite E. apply Z.eqb_neq in H3. now rewrite H3.
  - intros H. assert (E : (0 <? limit) = false) by (apply Z.ltb_ge; lia).
    now rewrite E.
  - intros c w file tag section results c' w' Hs -> H.
    unfold checker.CheckChangelog in H. rewrite Hs in H.
    destruct (length (checker.ExtractPRNumbers section) =? 0)%nat;
      [discriminate|].
    fold (checker.apply_limit (checker.ExtractPRNumbers section) limit).
    fold (checker.apply_limit (checker.ExtractPRNumbers section) limit) in H.
    destruct (checker.apply_limit _ limit) as [selected|]; [|discriminate].
    destruct (checker.check_each c w selected section []) as [[[rs c1] w1]|] eqn:E;
      [|discriminate].
    injection H as <- <- <-. apply check_each_Numbers in E. now rewrite E.
  - intros c w file tag section Hs Hsec -> Hne.
    unfold checker.CheckChangelog. rewrite Hsec.
    destruct (length (checker.ExtractPRNumbers section) =? 0)%nat eqn:El.
    { apply Nat.eqb_eq in El.
      destruct (checker.ExtractPRNumbers section); [congruence | discriminate]. }
    fold (checker.apply_limit (checker.ExtractPRNumbers section) limit).
    destruct (apply_limit_spec (checker.ExtractPRNumbers section) limit)
      as (selected & Esel & _).
    rewrite Esel.
    destruct (check_each_returns selected c w section [] Hs)
      as (results & c' & w' & E & _).
    rewrite E. exists results, c', w'. split; [reflexivity|].
    apply check_each_Numbers in E. now rewrite E.
Qed.

Lemma sampling_example :
  (0 < 3 < Z.of_nat (length [101; 102; 103; 104; 105; 106; 107; 108; 109; 110])
   /\ exists first mid last,
        [101; 102; 103; 104; 105; 106; 107; 108; 109; 110] !! 0%nat = Some first
        /\ [101; 102; 103; 104; 105; 106; 107; 108; 109; 110] !! 5%nat = Some mid
        /\ [101; 102; 103; 104; 105; 106; 107; 108; 109; 110] !! 9%nat = Some last
        /\ checker.apply_limit
             [101; 102; 103; 104; 105; 106; 107; 108; 109; 110] 3
           = Ok [first; mid; last])
  /\ exists results c' w',
       checker.CheckChangelog cached_checker example_world "CHANGELOG.md"
         EmptyString 3 = Ok ((results, None), c', w')
       /\ checker.apply_limit [100] 3 = Ok (map types.Number results).
Proof.
  assert (H : 0 < 3 < Z.of_nat
                (length [101; 102; 103; 104; 105; 106; 107; 108; 109; 110]))
    by (simpl; lia).
  split; [split; [exact H|]|].
  - exact (proj1 (proj1 sampling_selects
                    [101; 102; 103; 104; 105; 106; 107; 108; 109; 110] 3)
             H eq_refl).
  - apply (proj2 (proj2 (proj2 (proj2 (proj1 sampling_selects [100] 3))))
             cached_checker example_world "CHANGELOG.md" EmptyString
             example_changelog_section).
    + eexists. split; reflexivity.
    + reflexivity.
    + reflexivity.
    + discriminate.
Defined.

(** * The section is scanned again *)

Section Rescan.

Lemma split_lines_cons (c : ascii) (t : string) :
  bufio.split_lines (String c t)
  = if strings.byte_eqb c strings.LF then EmptyString :: bufio.split_lines t
    else match bufio.split_lines t with
         | [] => [String c EmptyString]
         | l :: ls => String c l :: ls
         end.
Proof. reflexivity. Qed.

Lemma split_lines_head (s l0 : string) (ls : list string) :
  bufio.split_lines s = l0 :: ls -> exists b, s = l0 +:+ b.
Proof.
  revert l0 ls. induction s as [|c t IH]; intros l0 ls H; [discriminate|].
  rewrite split_lines_cons in H.
  destruct (strings.byte_eqb c strings.LF).
  - injection H as <- _. now exists (String c t).
  - destruct (bufio.split_lines t) as [|l1 ls1] eqn:E.
    + injection H as <- _. now exists t.
    + injection H as <- _. destruct (IH l1 ls1 eq_refl) as [b ->].
      now exists b.
Qed.

(** A line is a piece of the text. *)
Lemma split_lines_infix (s l : string) :
  l ∈ bufio.split_lines s -> exists a b, s = a +:+ l +:+ b.
Proof.
  revert l. induction s as [|c t IH]; intros l H.
  - now apply elem_of_nil in H.
  - rewrite split_lines_cons in H.
    destruct (strings.byte_eqb c strings.LF).
    + apply elem_of_cons in H as [-> | H].
      * now exists EmptyString, (String c t).
      * destruct (IH l H) as (a & b & ->). now exists (String c a), b.
    + destruct (bufio.split_lines t) as [|l1 ls1] eqn:E.
      * apply list_elem_of_singleton in H as ->. now exists EmptyString, t.
      * apply elem_of_cons in H as [-> | H].
        -- destruct (split_lines_head t l1 ls1 E) as [b ->].
           now exists EmptyString, b.
        -- destruct (IH l) as (a & b & ->);
             [now apply list_elem_of_further|].
           now exists (String c a), b.
Qed.

Lemma split_lines_without (s l : string) :
  l ∈ bufio.split_lines s -> without strings.LF l.
Proof.
  revert l. induction s as [|c t IH]; intros l H.
  - now apply elem_of_nil in H.
  - rewrite split_lines_cons in H.
    destruct (strings.byte_eqb c strings.LF) eqn:Ec.
    + apply elem_of_cons in H as [-> | H]; [reflexivity | now apply IH].
    + destruct (bufio.split_lines t) as [|l1 ls1] eqn:E.
      * apply list_elem_of_singleton in H as ->. unfold without.
        cbn [strconv.all_bytes]. now rewrite Ec.
      * apply elem_of_cons in H as [-> | H].
        -- unfold without. cbn [strconv.all_bytes]. rewrite Ec.
           apply IH, list_elem_of_here.
        -- apply IH. now apply list_elem_of_further.
Qed.

Lemma split_lines_line (a b : string) :
  without strings.LF a ->
  bufio.split_lines (a +:+ String strings.LF b) = a :: bufio.split_lines b.
Proof.
  induction a as [|c a IH]; intros Ha; [reflexivity|].
  apply without_cons in Ha as [Hc Ha].
  change (String c a +:+ String strings.LF b)
    with (String c (a +:+ String strings.LF b)).
  now rewrite split_lines_cons, Hc, (IH Ha).
Qed.

Lemma split_lines_single (a : string) :
  without strings.LF a -> a <> EmptyString -> bufio.split_lines a = [a].
Proof.
  induction a as [|c a IH]; intros Ha Hne; [contradiction|].
  apply without_cons in Ha as [Hc Ha]. rewrite split_lines_cons, Hc.
  destruct a as [|c' a']; [reflexivity|].
  rewrite (IH Ha); [reflexivity | discriminate].
Qed.

(** The lines of joined lines are among the lines joined. *)
Lemma split_lines_Join (ts : list string) :
  (forall t, t ∈ ts -> without strings.LF t) ->
  forall l,
    l ∈ bufio.split_lines (strings.Join ts (String strings.LF EmptyString)) ->
    l ∈ ts.
Proof.
  induction ts as [|x rest IH]; intros Hts l H.
  - now apply elem_of_nil in H.
  - destruct rest as [|y rest'].
    + cbn [strings.Join] in H. destruct x as [|c x'].
      * now apply elem_of_nil in H.
      * rewrite split_lines_single in H;
          [exact H | apply Hts, list_elem_of_here | discriminate].
    + change (strings.Join (x :: y :: rest') (String strings.LF EmptyString))
        with (x +:+ String strings.LF
                (strings.Join (y :: rest') (String strings.LF EmptyString)))
        in H.
      rewrite split_lines_line in H by apply Hts, list_elem_of_here.
      apply elem_of_cons in H as [-> | H]; [apply list_elem_of_here|].
      apply list_elem_of_further. apply IH; [|exact H].
      intros t Ht. apply Hts. now apply list_elem_of_further.
Qed.

Lemma dropCR_length (l : string) :
  (String.length (bufio.dropCR l) <= String.length l)%nat.
Proof.
  destruct (dropCR_spec l) as [-> | E]; [lia|].
  rewrite E at 2. rewrite length_append. lia.
Qed.

Lemma dropCR_without (x : ascii) (l : string) :
  without x l -> without x (bufio.dropCR l).
Proof.
  intros H. destruct (dropCR_spec l) as [-> | E]; [exact H|].
  unfold without in *. rewrite E, all_bytes_app in H.
  now apply andb_true_iff in H as [H _].
Qed.

Lemma dropCR_infix (l : string) : exists b, l = bufio.dropCR l +:+ b.
Proof.
  destruct (dropCR_spec l) as [E | E].
  - exists EmptyString. now rewrite append_nil_r.
  - now exists (String strings.CR EmptyString).
Qed.

(** A token is a raw line that fits the buffer, less its carriage
    return. *)
Lemma scan_tokens_elem (raw : list string) (t : string) :
  t ∈ fst (bufio.scan_tokens raw) ->
  exists l, l ∈ raw /\ t = bufio.dropCR l
            /\ Z.of_nat (String.length l) < bufio.MaxScanTokenSize.
Proof.
  induction raw as [|l ls IH]; cbn [bufio.scan_tokens]; intros H.
  - now apply elem_of_nil in H.
  - destruct (bufio.MaxScanTokenSize <=? Z.of_nat (String.length l)) eqn:E.
    + now apply elem_of_nil in H.
    + destruct (bufio.scan_tokens ls) as [ts e]. cbn [fst] in *.
      apply Z.leb_gt in E. apply elem_of_cons in H as [-> | H].
      * exists l. split; [apply list_elem_of_here | auto].
      * destruct (IH H) as (l' & Hl & Ht & Hlen). exists l'.
        split; [now apply list_elem_of_further | auto].
Qed.

Lemma scan_tokens_short (raw : list string) :
  (forall l, l ∈ raw ->
     Z.of_nat (String.length l) < bufio.MaxScanTokenSize) ->
  snd (bufio.scan_tokens raw) = false.
Proof.
  induction raw as [|l ls IH]; cbn [bufio.scan_tokens]; intros H;
    [reflexivity|].
  destruct (bufio.MaxScanTokenSize <=? Z.of_nat (String.length l)) eqn:E.
  - apply Z.leb_le in E. specialize (H l (list_elem_of_here _ _)). lia.
  - destruct (bufio.scan_tokens ls) as [ts e]. cbn [snd] in *.
    apply IH. intros l' Hl. apply H. now apply list_elem_of_further.
Qed.

Lemma scan_token_fits (text t : string) :
  t ∈ fst (bufio.scan text) ->
  without strings.LF t
  /\ Z.of_nat (String.length t) < bufio.MaxScanTokenSize.
Proof.
  intros H. apply scan_tokens_elem in H as (l & Hl & -> & Hlen). split.
  - apply dropCR_without. now apply split_lines_without in Hl.
  - pose proof (dropCR_length l). lia.
Qed.

Lemma scan_token_infix (text t : string) :
  t ∈ fst (bufio.scan text) -> exists a b, text = a +:+ t +:+ b.
Proof.
  intros H. apply scan_tokens_elem in H as (l & Hl & -> & _).
  apply split_lines_infix in Hl as (a & b & ->).
  destruct (dropCR_infix l) as [r Hr]. exists a, (r +:+ b).
  rewrite <- (append_assoc (bufio.dropCR l) r b), <- Hr. reflexivity.
Qed.

(** The section is made of scanned lines of the file. *)
Lemma GetChangelogSection_lines (w : World)
  (changelogFile versionTag section : string) :
  checker.GetChangelogSection w changelogFile versionTag = (section, None) ->
  exists text lines,
    files w changelogFile = Some text
    /\ section = strings.Join lines (String strings.LF EmptyString)
    /\ forall l, l ∈ lines -> l ∈ fst (bufio.scan text).
Proof.
  unfold checker.GetChangelogSection. intros H.
  destruct (files w changelogFile) as [text|]; [|discriminate].
  exists text. destruct (bufio.scan text) as [tokens tooLong]. cbn [fst].
  set (header := checker.version_header _) in *.
  destruct (collect_section_shape header tokens)
    as (before & lines & after & Ht & E & _).
  rewrite E in H.
  destruct ((match after with [] => true | _ => false end) && tooLong);
    [discriminate|].
  destruct (length lines =? 0)%nat; [discriminate|].
  injection H as <-. exists lines. split; [reflexivity|].
  split; [reflexivity|]. intros l Hl. rewrite Ht.
  apply elem_of_app. right. apply elem_of_app. now left.
Qed.

Lemma FindPRLineInSection_absent (prNumber : Z) (section : string) :
  strings.Contains section (checker.pr_marker prNumber) = false ->
  checker.FindPRLineInSection prNumber section = EmptyString.
Proof.
  intros Hno. unfold checker.FindPRLineInSection.
  destruct (find_line_spec (checker.pr_marker prNumber)
              (fst (bufio.scan section)) (pr_marker_nonempty prNumber))
    as [[E _] | (earlier & later & Ht & Hc & _)]; [exact E|].
  exfalso.
  assert (Hin : checker.find_line (checker.pr_marker prNumber)
                  (fst (bufio.scan section)) ∈ fst (bufio.scan section)).
  { rewrite Ht at 2. apply elem_of_app. right. apply list_elem_of_here. }
  apply scan_token_infix in Hin as (a & b & Hs).
  apply Contains_spec in Hc as (x & y & Hl).
  assert (Hyes : strings.Contains section (checker.pr_marker prNumber) = true).
  { apply Contains_spec. exists (a +:+ x), (y +:+ b).
    rewrite Hs, Hl, !append_assoc. reflexivity. }
  congruence.
Qed.

End Rescan.

(** X18: a section that [GetChangelogSection] returned is read to its
    end when it is scanned again: no line of it is too long for the
    scanner, every line scanned from it is a line scanned from the file
    (less one more trailing carriage return), and [FindPRLineInSection]
    finds a line with the marker of every PR whose marker occurs in
    it. *)
Theorem GetChangelogSection_rescans (w : World)
  (changelogFile versionTag section : string) :
  checker.GetChangelogSection w changelogFile versionTag = (section, None) ->
  snd (bufio.scan section) = false
  /\ (exists text,
        files w changelogFile = Some text
        /\ forall l, l ∈ fst (bufio.scan section) ->
             exists t, t ∈ fst (bufio.scan text) /\ l = bufio.dropCR t)
  /\ forall prNumber,
       strings.Contains section (checker.pr_marker prNumber) = true ->
       strings.Contains (checker.FindPRLineInSection prNumber section)
         (checker.pr_marker prNumber) = true
       /\ checker.FindPRLineInSection prNumber section <> EmptyString.
Proof.
  intros H. apply GetChangelogSection_lines in H as (text & lines & Hf & -> & Hl).
  assert (Hfit : forall t, t ∈ lines -> without strings.LF t).
  { intros t Ht. now apply (scan_token_fits text), Hl. }
  assert (Hscan : snd (bufio.scan
            (strings.Join lines (String strings.LF EmptyString))) = false).
  { apply scan_tokens_short. intros l Hin.
    apply split_lines_Join in Hin; [|exact Hfit].
    now apply (scan_token_fits text), Hl. }
  split; [exact Hscan|]. split.
  - exists text. split; [exact Hf|]. intros l Hin.
    apply scan_tokens_elem in Hin as (r & Hr & -> & _).
    apply split_lines_Join in Hr; [|exact Hfit].
    exists r. split; [now apply Hl | reflexivity].
  - intros prNumber Hc. now apply FindPRLineInSection_scan.
Qed.

Lemma GetChangelogSection_rescans_example :
  snd (bufio.scan example_changelog_section) = false
  /\ checker.FindPRLineInSection 100 example_changelog_section <> EmptyString.
Proof.
  destruct (GetChangelogSection_rescans example_world "CHANGELOG.md" ""
              example_changelog_section eq_refl) as (Hs & _ & Hf).
  split; [exact Hs|]. now apply Hf.
Defined.

(** X19: a PR whose marker [[\#N]], with [N] in the decimal form of
    [Sprintf], does not occur in the section is reported as not found,
    before the store, GitHub or the similarity service is used: the
    result has the status not found and the error of the missing line,
    and the checker and the world are unchanged, whatever the checker
    is. A marker written with a leading zero is such a case. *)
Theorem CheckPR_marker_absent (c : checker.Checker) (w : World)
  (prNumber : Z) (changelogSection : string) :
  strings.Contains changelogSection (checker.pr_marker prNumber) = false ->
  checker.CheckPR c w prNumber changelogSection
  = Ok (types.mkPRResult prNumber EmptyString EmptyString
          types.StatusNotFound (Some (ErrPRNotInSection prNumber)), c, w).
Proof.
  intros H. unfold checker.CheckPR.
  now rewrite (FindPRLineInSection_absent _ _ H).
Qed.

Lemma CheckPR_marker_absent_example :
  checker.ExtractPRNumbers "* [\#007](url) Fix bug" = [7]
  /\ checker.CheckPR example_checker example_world 7 "* [\#007](url) Fix bug"
     = Ok (types.mkPRResult 7 EmptyString EmptyString types.StatusNotFound
             (Some (ErrPRNotInSection 7)), example_checker, example_world).
Proof.
  split; [reflexivity|].
  apply (CheckPR_marker_absent example_checker example_world 7
           "* [\#007](url) Fix bug").
  reflexivity.
Defined.

(** * The substring test *)

Section SubstringTest.

Lemma map_bytes_app (f : ascii -> ascii) (a b : string) :
  strings.map_bytes f (a +:+ b) = strings.map_bytes f a +:+ strings.map_bytes f b.
Proof. induction a as [|c a IH]; simpl; [reflexivity | now rewrite IH]. Qed.

Lemma RemoveByte_app (a b : string) (x : ascii) :
  strings.RemoveByte (a +:+ b) x
  = strings.RemoveByte a x +:+ strings.RemoveByte b x.
Proof.
  induction a as [|c a IH]; simpl; [reflexivity|].
  destruct (strings.byte_eqb c x); simpl; now rewrite IH.
Qed.

Lemma IndexByte_app_None (a b : string) (x : ascii) :
  strings.IndexByte a x = None ->
  strings.IndexByte (a +:+ b) x
  = match strings.IndexByte b x with
    | Some i => Some (String.length a + i)%nat
    | None => None
    end.
Proof.
  induction a as [|c a IH]; simpl.
  - intros _. now destruct (strings.IndexByte b x).
  - destruct (strings.byte_eqb c x); [discriminate|].
    destruct (strings.IndexByte a x); [discriminate|]. intros _.
    rewrite (IH eq_refl). now destruct (strings.IndexByte b x).
Qed.

Lemma IndexByte_app_absent (a b : string) (x : ascii) :
  strings.IndexByte a x = None -> strings.IndexByte b x = None ->
  strings.IndexByte (a +:+ b) x = None.
Proof. intros Ha Hb. now rewrite (IndexByte_app_None a b x Ha), Hb. Qed.

Lemma IndexByte_RemoveByte (s : string) (x y : ascii) :
  strings.IndexByte s y = None ->
  strings.IndexByte (strings.RemoveByte s x) y = None.
Proof.
  induction s as [|c s IH]; simpl; [reflexivity|].
  destruct (strings.byte_eqb c y) eqn:E; [discriminate|].
  destruct (strings.IndexByte s y); [discriminate|]. intros _.
  destruct (strings.byte_eqb c x); simpl; [now apply IH|].
  now rewrite E, (IH eq_refl).
Qed.

Lemma slice_to_app_plus (a b : string) (n : nat) :
  strings.slice_to (String.length a + n) (a +:+ b)
  = a +:+ strings.slice_to n b.
Proof. induction a as [|c a IH]; simpl; [reflexivity | now rewrite IH]. Qed.

Lemma slice_to_prefix (n : nat) (s : string) :
  exists t, s = strings.slice_to n s +:+ t.
Proof.
  revert n. induction s as [|c s IH]; intros n.
  - exists EmptyString. now destruct n.
  - destruct n as [|n]; simpl.
    + now exists (String c s).
    + destruct (IH n) as [t Ht]. exists t. now rewrite <- Ht.
Qed.

(** The text the test compares is a prefix of the description in lower
    case without its backticks. *)
Lemma normalize_desc_prefix (desc : string) :
  exists t,
    strings.ToLower (strings.RemoveByte desc "`"%char)
    = checker.normalize_desc desc +:+ t.
Proof.
  unfold checker.normalize_desc.
  destruct (strings.IndexByte _ "."%char) as [idx|].
  - apply slice_to_prefix.
  - exists EmptyString. now rewrite append_nil_r.
Qed.

(** Only the text before the first period is compared. *)
Lemma normalize_desc_cut (desc rest : string) :
  strings.IndexByte desc "."%char = None ->
  checker.normalize_desc (desc +:+ String "."%char rest)
  = checker.normalize_desc desc.
Proof.
  intros Hd. unfold checker.normalize_desc, strings.ToLower.
  rewrite RemoveByte_app, map_bytes_app.
  change (strings.map_bytes strings.lower_byte
            (strings.RemoveByte (String "."%char rest) "`"%char))
    with (String "."%char
            (strings.map_bytes strings.lower_byte
               (strings.RemoveByte rest "`"%char))).
  set (X := strings.map_bytes strings.lower_byte
              (strings.RemoveByte desc "`"%char)).
  set (Y := strings.map_bytes strings.lower_byte
              (strings.RemoveByte rest "`"%char)).
  assert (HX : strings.IndexByte X "."%char = None).
  { apply IndexByte_ToLower; [reflexivity | reflexivity|].
    now apply IndexByte_RemoveByte. }
  rewrite (IndexByte_app_None X (String "."%char Y) "."%char HX), HX.
  change (strings.IndexByte (String "."%char Y) "."%char) with (Some 0%nat).
  cbv beta iota. rewrite slice_to_app_plus.
  change (strings.slice_to 0 (String "."%char Y)) with EmptyString.
  apply append_nil_r.
Qed.

Lemma normalize_desc_backtick (a b : string) :
  checker.normalize_desc (a +:+ String "`"%char b)
  = checker.normalize_desc (a +:+ b).
Proof.
  unfold checker.normalize_desc. rewrite !RemoveByte_app.
  change (strings.RemoveByte (String "`"%char b) "`"%char)
    with (strings.RemoveByte b "`"%char).
  reflexivity.
Qed.

Lemma substring_check_verbatim (desc before after : string) :
  strings.IndexByte desc "`"%char = None ->
  checker.substring_check desc (before +:+ desc +:+ after) = true.
Proof.
  intros Hb. unfold checker.substring_check.
  destruct (normalize_desc_prefix desc) as [t Ht].
  rewrite (RemoveByte_absent desc _ Hb) in Ht.
  unfold strings.ToLower in *. rewrite !map_bytes_app, Ht.
  apply orb_true_iff. left. apply Contains_spec.
  exists (strings.map_bytes strings.lower_byte before),
         (t +:+ strings.map_bytes strings.lower_byte after).
  now rewrite !append_assoc.
Qed.

Lemma substring_check_inside (before title after : string) :
  strings.IndexByte title "`"%char = None ->
  strings.IndexByte title "."%char = None ->
  strings.IndexByte before "."%char = None ->
  checker.substring_check (before +:+ title +:+ after) title = true.
Proof.
  intros Hb Hp Ha. unfold checker.substring_check.
  apply orb_true_iff. right.
  unfold checker.normalize_desc, strings.ToLower.
  rewrite !RemoveByte_app, (RemoveByte_absent title _ Hb), !map_bytes_app.
  set (X := strings.map_bytes strings.lower_byte
              (strings.RemoveByte before "`"%char)).
  set (T := strings.map_bytes strings.lower_byte title).
  set (Y := strings.map_bytes strings.lower_byte
              (strings.RemoveByte after "`"%char)).
  assert (HX : strings.IndexByte X "."%char = None).
  { apply IndexByte_ToLower; [reflexivity | reflexivity|].
    now apply IndexByte_RemoveByte. }
  assert (HT : strings.IndexByte T "."%char = None).
  { now apply IndexByte_ToLower. }
  rewrite (IndexByte_app_None X (T +:+ Y) "."%char HX),
    (IndexByte_app_None T Y "."%char HT).
  destruct (strings.IndexByte Y "."%char) as [i|].
  - rewrite !slice_to_app_plus. apply Contains_mid.
  - apply Contains_mid.
Qed.

Lemma CheckSimilarity_substring (c : checker.Checker) (w : World)
  (desc title : string) :
  checker.substring_check desc title = true ->
  checker.CheckSimilarity c w desc title = types.StatusGoodMatch.
Proof. intros H. unfold checker.CheckSimilarity. now rewrite H. Qed.

End SubstringTest.

(** X20: the substring test of [CheckSimilarity] reads a description only
    up to its first period and without its backticks: a description
    continued after a period has the verdict of the test of its first
    sentence, so it is a good match whenever the first sentence alone
    passes the test; and a backtick anywhere in the description changes
    nothing. *)
Theorem CheckSimilarity_first_sentence (c : checker.Checker) (w : World)
  (changelogDesc rest prTitle : string) :
  strings.IndexByte changelogDesc "."%char = None ->
  checker.substring_check (changelogDesc +:+ "." +:+ rest) prTitle
  = checker.substring_check changelogDesc prTitle
  /\ (checker.substring_check changelogDesc prTitle = true ->
      checker.CheckSimilarity c w (changelogDesc +:+ "." +:+ rest) prTitle
      = types.StatusGoodMatch)
  /\ forall a b,
       checker.substring_check (a +:+ "`" +:+ b) prTitle
       = checker.substring_check (a +:+ b) prTitle.
Proof.
  intros Hd.
  assert (E : checker.substring_check (changelogDesc +:+ "." +:+ rest) prTitle
              = checker.substring_check changelogDesc prTitle).
  { unfold checker.substring_check.
    change ("." +:+ rest) with (String "."%char rest).
    now rewrite normalize_desc_cut. }
  split; [exact E|]. split.
  - intros H. apply CheckSimilarity_substring. now rewrite E.
  - intros a b. unfold checker.substring_check.
    change ("`" +:+ b) with (String "`"%char b).
    now rewrite normalize_desc_backtick.
Qed.

Lemma CheckSimilarity_first_sentence_example :
  checker.CheckSimilarity example_checker example_world
    ("Fix bug" +:+ "." +:+ " Also rewrites the relayer") "Fix bug in client"
  = types.StatusGoodMatch.
Proof.
  apply (CheckSimilarity_first_sentence example_checker example_world
           "Fix bug" " Also rewrites the relayer" "Fix bug in client");
    reflexivity.
Defined.

(** X21: for a description and a title of ASCII bytes, a title that
    contains the description word for word is a good match without the
    similarity service, provided the description has no backtick: the
    backticks are taken out of the description but not out of the
    title. *)
Theorem CheckSimilarity_title_contains (c : checker.Checker) (w : World)
  (changelogDesc before after : string) :
  is_ascii changelogDesc -> is_ascii before -> is_ascii after ->
  strings.IndexByte changelogDesc "`"%char = None ->
  checker.CheckSimilarity c w changelogDesc
    (before +:+ changelogDesc +:+ after) = types.StatusGoodMatch.
Proof.
  intros _ _ _ Hb. apply CheckSimilarity_substring.
  now apply substring_check_verbatim.
Qed.

Lemma CheckSimilarity_title_contains_example :
  checker.CheckSimilarity example_checker example_world
    "Fix bug. See the docs" ("fix: " +:+ "Fix bug. See the docs" +:+ " (#7)")
  = types.StatusGoodMatch.
Proof.
  apply (CheckSimilarity_title_contains example_checker example_world
           "Fix bug. See the docs" "fix: " " (#7)");
    reflexivity.
Defined.

(** X22: for a description and a title of ASCII bytes, a description
    whose first sentence contains the title word for word is a good
    match without the similarity service: when the title has no
    backtick and no period and the description has no period before the
    title. *)
Theorem CheckSimilarity_description_contains (c : checker.Checker) (w : World)
  (prTitle before after : string) :
  is_ascii prTitle -> is_ascii before -> is_ascii after ->
  strings.IndexByte prTitle "`"%char = None ->
  strings.IndexByte prTitle "."%char = None ->
  strings.IndexByte before "."%char = None ->
  checker.CheckSimilarity c w (before +:+ prTitle +:+ after) prTitle
  = types.StatusGoodMatch.
Proof.
  intros _ _ _ Hb Hp Ha. apply CheckSimilarity_substring.
  now apply substring_check_inside.
Qed.

Lemma CheckSimilarity_description_contains_example :
  checker.CheckSimilarity example_checker example_world
    ("`client`: " +:+ "Fix bug" +:+ " in the handshake. More") "Fix bug"
  = types.StatusGoodMatch.
Proof.
  apply (CheckSimilarity_description_contains example_checker example_world
           "Fix bug" "`client`: " " in the handshake. More");
    reflexivity.
Defined.

(** * The answer of the similarity service *)

Section Answer.

Lemma Contains_YES (a b : string) (y e s : ascii) :
  strings.upper_byte y = "Y"%char -> strings.upper_byte e = "E"%char ->
  strings.upper_byte s = "S"%char ->
  strings.Contains
    (strings.ToUpper (a +:+ String y (String e (String s b)))) "YES" = true.
Proof.
  intros Hy He Hs. unfold strings.ToUpper. rewrite map_bytes_app.
  cbn [strings.map_bytes]. rewrite Hy, He, Hs.
  apply Contains_spec.
  exists (strings.map_bytes strings.upper_byte a),
         (strings.map_bytes strings.upper_byte b).
  reflexivity.
Qed.

End Answer.

(** X23: the answer of the similarity service counts as a yes as soon as
    the letters y, e, s follow each other anywhere in it, in any letter
    case, whatever else the answer says: [CheckSimilarity] of a checker
    with a similarity client is then a good match. Only the first choice
    of the reply is read. *)
Theorem CheckSimilarity_yes_anywhere (c : checker.Checker) (w : World)
  (changelogDesc prTitle key a b : string) (y e s : ascii)
  (more : list string) :
  checker.openAIClient c = Some (checker.NewOpenAIClient key) ->
  strings.upper_byte y = "Y"%char -> strings.upper_byte e = "E"%char ->
  strings.upper_byte s = "S"%char ->
  openai_api w key (checker.similarity_prompt prTitle changelogDesc)
  = OaResponse EmptyString
      ((a +:+ String y (String e (String s b))) :: more) ->
  checker.OpenAI_CheckSimilarity (checker.NewOpenAIClient key) w prTitle
    changelogDesc = (true, None)
  /\ checker.CheckSimilarity c w changelogDesc prTitle = types.StatusGoodMatch.
Proof.
  intros Hc Hy He Hs Hr.
  assert (E : checker.OpenAI_CheckSimilarity (checker.NewOpenAIClient key) w
                prTitle changelogDesc = (true, None)).
  { unfold checker.OpenAI_CheckSimilarity. cbn [checker.apiKey].
    rewrite Hr. cbn [String.eqb negb].
    now rewrite (Contains_YES a b y e s Hy He Hs). }
  split; [exact E|]. unfold checker.CheckSimilarity.
  destruct (checker.substring_check changelogDesc prTitle); [reflexivity|].
  now rewrite Hc, E.
Qed.

Lemma CheckSimilarity_yes_anywhere_example :
  checker.CheckSimilarity example_checker
    (with_services example_world (github_api example_world)
       (fun _ _ => OaResponse EmptyString ["No. Yesterday's change differs."]))
    "Rework the relayer" "Fix bug in client"
  = types.StatusGoodMatch.
Proof.
  apply (CheckSimilarity_yes_anywhere example_checker
           (with_services example_world (github_api example_world)
              (fun _ _ => OaResponse EmptyString
                            ["No. Yesterday's change differs."]))
           "Rework the relayer" "Fix bug in client" "sk-key"
           "No. " "terday's change differs." "Y"%char "e"%char "s"%char []);
    reflexivity.
Defined.

(** * A store that fails *)

Section BrokenStore.

Lemma set_cache_same (w : World) : set_cache w (cache w) = w.
Proof. now destruct w. Qed.

(** With a store that fails, the client asks GitHub and leaves the
    world as it is. *)
Lemma GetPRInfo_broken_store (gc : github.Client) (w : World)
  (owner repo : string) (prNumber : Z) (e : error) :
  github.db gc = Some db.Conn -> db.fault (cache w) = Some e ->
  exists res gc',
    github.GetPRInfo gc w owner repo prNumber = Ok (res, gc', w)
    /\ github.db gc' = Some db.Conn.
Proof.
  intros Hdb Hf. unfold github.GetPRInfo, db.GetPRInfo, db.StorePRInfo.
  rewrite Hdb, Hf. cbv beta iota. cbn [snd]. rewrite set_cache_same.
  repeat case_match; simplify_eq; eauto.
Qed.

End BrokenStore.

(** X24: a store whose every statement fails costs the cache and nothing
    else: [CheckPR] returns the result it returns with the cache of
    verdicts switched off (the errors of the store are not in it), and
    the world is left as it was. *)
Theorem CheckPR_broken_store (c : checker.Checker) (w : World)
  (prNumber : Z) (changelogSection : string) (e : error) :
  client_has_store c ->
  db.fault (cache w) = Some e ->
  exists r c1 c2,
    checker.CheckPR c w prNumber changelogSection = Ok (r, c1, w)
    /\ checker.CheckPR
         (checker.mkChecker (checker.githubClient c) (checker.openAIClient c)
            None (checker.repoOwner c) (checker.repoName c)
            (checker.verbose c))
         w prNumber changelogSection = Ok (r, c2, w).
Proof.
  intros (gc & Hgc & Hdb) Hf.
  unfold checker.CheckPR.
  set (line := checker.FindPRLineInSection prNumber changelogSection).
  destruct (String.eqb line EmptyString); [eauto|].
  set (desc := checker.GetPRDescriptionFromLine line prNumber).
  destruct (String.eqb desc EmptyString); [eauto|].
  cbn [checker.db].
  assert (Hu : forall d,
            exists r c1 c2,
              checker.check_uncached
                (checker.mkChecker (checker.githubClient c)
                   (checker.openAIClient c) d (checker.repoOwner c)
                   (checker.repoName c) (checker.verbose c))
                w prNumber desc = Ok (r, c1, w)
              /\ checker.check_uncached
                   (checker.mkChecker (checker.githubClient c)
                      (checker.openAIClient c) None (checker.repoOwner c)
                      (checker.repoName c) (checker.verbose c))
                   w prNumber desc = Ok (r, c2, w)).
  { intros d. unfold checker.check_uncached, checker.client_GetPRInfo.
    cbn [checker.githubClient checker.openAIClient checker.db
         checker.repoOwner checker.repoName checker.verbose].
    rewrite Hgc.
    destruct (GetPRInfo_broken_store gc w (checker.repoOwner c)
                (checker.repoName c) prNumber e Hdb Hf)
      as ([title err] & gc' & E & _).
    rewrite E. cbv beta iota.
    destruct err as [err|]; [eauto|].
    cbn [checker.db checker.repoOwner checker.repoName].
    unfold checker.CheckSimilarity. cbn [checker.openAIClient].
    destruct d as [[]|]; [|eauto].
    unfold db.StoreValidationResult. rewrite Hf. cbv beta iota. cbn [snd].
    rewrite set_cache_same. eauto. }
  destruct (checker.db c) as [[]|] eqn:Ed.
  - unfold db.GetValidationResult. rewrite Hf. cbv beta iota.
    destruct c as [g o d ro rn v]. cbn in Ed. subst d. apply (Hu (Some db.Conn)).
  - destruct c as [g o d ro rn v]. cbn in Ed. subst d. apply (Hu None).
Qed.

Lemma CheckPR_broken_store_example :
  exists r c1,
    checker.CheckPR cached_checker
      (set_cache example_world (db.mkStore ∅ ∅ (Some (ErrSQL "disk I/O error"))))
      100 example_changelog
    = Ok (r, c1,
          set_cache example_world
            (db.mkStore ∅ ∅ (Some (ErrSQL "disk I/O error")))).
Proof.
  destruct (CheckPR_broken_store cached_checker
              (set_cache example_world
                 (db.mkStore ∅ ∅ (Some (ErrSQL "disk I/O error"))))
              100 example_changelog (ErrSQL "disk I/O error"))
    as (r & c1 & c2 & E1 & E2).
  - eexists. split; reflexivity.
  - reflexivity.
  - now exists r, c1.
Defined.
